(** * kleinanzeigen-bot: ad definition resolution, selection and round trip

    A shallow embedding of [KleinanzeigenBot.load_ads], [load_config],
    [delete_ad], [delete_ads], [publish_ad], [publish_ads] and the commands
    [publish] and [delete] of [run], from [src/kleinanzeigen_bot/__init__.py],
    and the properties of the ad definition engine proved about it.  Further
    parts of the file follow the same lines: [parse_args], the reading of the
    configuration file in [load_config], the shipping, direct-sale and
    description steps of [publish_ad] with [__set_shipping_options],
    [navigate_to_ad_page] and [start_download_routine], and the creation date
    of [extract_ad_page_info].

    - Python dictionaries are finite maps with string keys
      ([gmap string value]); the values a YAML document can hold are the
      inductive type [value].  A dictionary that the code mutates in place is
      passed in and returned; [ad_cfg] and [ad_cfg_orig] are separate values,
      as [ad_cfg] is a deep copy.
    - Exceptions are the [Raise] results of the error monad [result]; the
      steps in the browser run in a state and error monad over the state of
      the page, and [sys.exit] is the result [SystemExit].
    - A string holds the UTF-8 encoding of its text: [len] counts and
      iteration yields characters, and the order byte by byte is the order
      of [str].  Timestamps are microseconds.
    - The helpers of [kleinanzeigen_bot.utils], the bundled YAML resources,
      the glob library, the clock and the browser are not part of the sources
      at hand: [ensure], [safe_get], [apply_defaults], [load_dict] and
      [save_dict] are modelled from the specification, the others are
      parameters of the section [Engine].  So are the order of the keys of a
      mapping, which a finite map does not record, and what the glob library
      makes of a pattern that is not a string. *)

From Stdlib Require Import ZArith String Ascii List.
From stdpp Require Import gmap strings list fin_maps sorting.

#[local] Set Warnings "-register-all".
#[local] Open Scope string_scope.

(** ** Python values *)

Module Py.

(** What a loaded YAML/JSON document is made of.  [VDatetime] is a timestamp
    in microseconds; floating point numbers are outside the model. *)
Inductive value : Type :=
  | VNone
  | VBool (b : bool)
  | VInt (z : Z)
  | VStr (s : string)
  | VDatetime (t : Z)
  | VList (l : list value)
  | VDict (d : gmap string value).

Abbreviation dict := (gmap string value).

Inductive failure : Type :=
  | DescriptionTooLong                         (* line 262 *)
  | NotOneOf (path : string)                   (* assert_one_of *)
  | TooShort (path : string) (minlen : nat)    (* assert_min_len *)
  | NotSpecified (path : string)               (* assert_has_value *)
  | PriceForGiveAway                           (* line 280 *)
  | UnsupportedImageType (image_file : string) (* line 303 *)
  | NoImagesFound.                             (* line 309 *)

Inductive exn : Type :=
  | ValidationError (f : failure)
  | TypeError
  | ValueError
  | KeyError (key : string)
  | OSError
  | WebDriverException.

Inductive result (A : Type) : Type :=
  | Ok (a : A)
  | Raise (e : exn).
Arguments Ok {A} a.
Arguments Raise {A} e.

#[export] Instance result_ret : MRet result := λ A a, Ok a.
#[export] Instance result_bind : MBind result := λ A B f m,
  match m with Ok a => f a | Raise e => Raise e end.
#[export] Instance result_fmap : FMap result := λ A B f m,
  match m with Ok a => Ok (f a) | Raise e => Raise e end.

Definition is_ok {A} (r : result A) : bool :=
  match r with Ok _ => true | Raise _ => false end.

(** [bool(v)] *)
Definition truthy (v : value) : bool :=
  match v with
  | VNone => false
  | VBool b => b
  | VInt z => negb (z =? 0)%Z
  | VStr s => negb (String.eqb s "")
  | VDatetime _ => true
  | VList l => match l with [] => false | _ => true end
  | VDict d => negb (bool_decide (d = ∅))
  end.

(** [a or b] on values *)
Definition py_or (a b : value) : value := if truthy a then a else b.

(** [d[key]] for a dictionary *)
Definition getitem (d : dict) (key : string) : result value :=
  match d !! key with
  | Some v => Ok v
  | None => Raise (KeyError key)
  end.

(** [v[key]] for an arbitrary value and a string key *)
Definition subscript (v : value) (key : string) : result value :=
  match v with
  | VDict d => getitem d key
  | _ => Raise TypeError
  end.

(** A string holds the UTF-8 encoding of a text.  The bytes 10xxxxxx continue
    a character; every other byte starts one. *)
Definition continuation_byte (c : ascii) : bool :=
  match c with Ascii _ _ _ _ _ _ b6 b7 => b7 && negb b6 end.

(** [len(s)] for a string: the number of its characters. *)
Fixpoint str_len (s : string) : nat :=
  match s with
  | EmptyString => 0
  | String c s' => if continuation_byte c then str_len s' else S (str_len s')
  end.

(** [list(s)] for a string: its characters, one string each.  The first
    component holds the continuation bytes that [s] begins with. *)
Fixpoint characters_aux (s : string) : string * list string :=
  match s with
  | EmptyString => ("", [])
  | String c s' =>
      let r := characters_aux s' in
      if continuation_byte c then (String c r.1, r.2)
      else ("", String c r.1 :: r.2)
  end.
Definition characters (s : string) : list string := (characters_aux s).2.

(** [len(v)] *)
Definition py_len (v : value) : result nat :=
  match v with
  | VStr s => Ok (str_len s)
  | VList l => Ok (List.length l)
  | VDict d => Ok (size d)
  | _ => Raise TypeError
  end.

(** [a + b] *)
Definition py_add (a b : value) : result value :=
  match a, b with
  | VStr s, VStr t => Ok (VStr (s +:+ t))
  | VList l, VList k => Ok (VList (l ++ k))
  | VInt x, VInt y => Ok (VInt (x + y)%Z)
  | VInt x, VBool y => Ok (VInt (x + Z.b2z y)%Z)
  | VBool x, VInt y => Ok (VInt (Z.b2z x + y)%Z)
  | VBool x, VBool y => Ok (VInt (Z.b2z x + Z.b2z y)%Z)
  | _, _ => Raise TypeError
  end.

(** [n <= v] for an integer [n] *)
Definition py_int_le (n : Z) (v : value) : result bool :=
  match v with
  | VInt z => Ok (n <=? z)%Z
  | VBool b => Ok (n <=? Z.b2z b)%Z
  | _ => Raise TypeError
  end.

(** [v == s] for a string literal [s] *)
Definition eq_str (v : value) (s : string) : bool :=
  match v with VStr t => String.eqb t s | _ => false end.

(** Lists and dictionaries are not hashable. *)
Definition hashable (v : value) : bool :=
  match v with VList _ | VDict _ => false | _ => true end.

(** [v in allowed] for a set of strings *)
Definition in_str_set (v : value) (allowed : list string) : result bool :=
  match v with
  | VStr s => Ok (bool_decide (s ∈ allowed))
  | VList _ | VDict _ => Raise TypeError
  | _ => Ok false
  end.

(** [path.split(".")] *)
Fixpoint split_dot_aux (cur : string) (s : string) : list string :=
  match s with
  | EmptyString => [cur]
  | String c s' =>
      if Ascii.eqb c "."%char then cur :: split_dot_aux "" s'
      else split_dot_aux (cur +:+ String c "") s'
  end.
Definition split_dot (s : string) : list string := split_dot_aux "" s.

(** [s.endswith(suffix)] *)
Definition endswith (s suffix : string) : bool :=
  String.eqb
    (substring (String.length s - String.length suffix)%nat (String.length suffix) s)
    suffix.

(** Modelled from the spec: [utils.ensure] is not among the sources.  Section
    4.3 has a rule fail with a validation error when its condition does not
    hold and succeed silently otherwise. *)
Definition ensure (condition : bool) (f : failure) : result unit :=
  if condition then Ok tt else Raise (ValidationError f).

(** Modelled from the spec: [utils.safe_get] is not among the sources.  It is
    called with a field path; section 4.1 has fields that are not set read as
    None downstream. *)
Fixpoint safe_get (a_map : value) (keys : list string) : value :=
  match keys with
  | [] => a_map
  | key :: keys' =>
      match a_map with
      | VDict d =>
          match d !! key with
          | Some v => safe_get v keys'
          | None => VNone
          end
      | _ => VNone
      end
  end.

Definition default_or {A} (d : A) (o : option A) : A :=
  match o with Some a => a | None => d end.

(** [int(v)]; [int_of_str] is [int] on strings. *)
Definition py_int (int_of_str : string → option Z) (v : value) : result Z :=
  match v with
  | VInt z => Ok z
  | VBool b => Ok (Z.b2z b)
  | VStr s => match int_of_str s with Some z => Ok z | None => Raise ValueError end
  | _ => Raise TypeError
  end.

(** [d.get(key, default)] for a dictionary with string keys *)
Definition dict_get (d : dict) (key default : value) : result value :=
  match key with
  | VStr s => Ok (default_or default (d !! s))
  | VList _ | VDict _ => Raise TypeError
  | _ => Ok default
  end.

(** [list(dict.fromkeys(l))]: the keys in the order of their first insertion *)
Definition fromkeys_step (acc : list string) (x : string) : list string :=
  if bool_decide (x ∈ acc) then acc else acc ++ [x].
Definition fromkeys (l : list string) : list string :=
  fold_left fromkeys_step l [].

(** [sorted(s)] for a set of strings: ascending in the order of [str] *)
Definition str_le (s t : string) : Prop := String.leb s t = true.
#[export] Instance str_le_dec : RelDecision str_le.
Proof. intros s t. unfold str_le. apply _. Defined.
Definition sorted (s : gset string) : list string := merge_sort str_le (elements s).

End Py.
Import Py.


(** ** The bot and its collaborators *)

(** [self.config] after [load_config]: the part the ad engine reads. *)
Record Config : Type := {
  ad_files : list string;       (* config["ad_files"]: glob patterns *)
  ad_defaults : dict;           (* config["ad_defaults"] *)
  config_categories : dict;     (* config["categories"]: name -> code overrides *)
}.

(** The attributes of [KleinanzeigenBot] that the engine reads. *)
Record KleinanzeigenBot : Type := {
  config_file_path : string;
  config : Config;
  categories : dict;
  ads_selector : string;
  delete_old_ads : bool;
  delete_ads_by_title : bool;
}.

(** An entry of the list [load_ads] returns: [(ad_file, ad_cfg, ad_cfg_orig)]. *)
Abbreviation ad_entry := (string * dict * dict)%type.

(** The structured file store: path to saved mapping. *)
Abbreviation file_store := (gmap string dict).

(** Modelled from the spec: [utils.load_dict] is not among the sources.
    Section 1 has the file store provide [load(path) -> mapping]. *)
Definition load_dict (store : file_store) (path : string) : result dict :=
  match store !! path with
  | Some content => Ok content
  | None => Raise OSError
  end.

(** Modelled from the spec: [utils.save_dict], the [save(path, mapping)] of
    the file store; a save is a full rewrite of the file at [path]. *)
Definition save_dict (path : string) (content : dict) (store : file_store) : file_store :=
  <[path := content]> store.

(** Modelled from the spec: [utils.load_dict_if_exists] is not among the
    sources.  It is the [load(path) -> mapping] of the file store for a file
    that may be missing; [None] is Python's None. *)
Definition load_dict_if_exists (store : file_store) (path : string) : option dict :=
  store !! path.

(** What [delete_ads] leaves of an entry. *)
Definition deleted_entry (entry : ad_entry) : ad_entry :=
  (entry.1.1, <["id" := VNone]> entry.1.2, entry.2).

(** The fields that the bot manages in a definition: [id], [created_on]
    and [updated_on]. *)
Definition managed_fields (d : dict) : option value * option value * option value :=
  (d !! "id", d !! "created_on", d !! "updated_on").

(** Per entry: the file, the [id] of the resolved definition and the [id] of
    the raw one. *)
Definition ids_of (entries : list ad_entry)
    : list (string * option value * option value) :=
  (λ entry : ad_entry, (entry.1.1, entry.1.2 !! "id", entry.2 !! "id")) <$> entries.

(** The managed fields of the definition saved under [ad_file]. *)
Definition saved_fields (ad_file : string) (store : file_store) :=
  managed_fields <$> (store !! ad_file).

(** What a publish leaves: the managed fields of the raw definition in memory
    and of the definition saved under [ad_file]. *)
Definition publish_outcome (ad_file : string) (r : dict * dict * file_store) :=
  (managed_fields r.1.2, saved_fields ad_file r.2).

(** What the command [delete] leaves: the identifiers of the entries and the
    managed fields of the definition saved under [ad_file]. *)
Definition delete_outcome (ad_file : string) (r : list ad_entry * file_store) :=
  (ids_of r.1, saved_fields ad_file r.2).

Definition MICROS_PER_DAY : Z := 86400000000.

(** [(now - last_updated_on).days]: [timedelta.days] rounds towards minus
    infinity, as [Z.div] does. *)
Definition age_days (now last_updated_on : Z) : Z :=
  ((now - last_updated_on) / MICROS_PER_DAY)%Z.

(** Modelled from the spec: [utils.apply_defaults] is not among the sources.
    Section 4.1: for every field present in the layer's source that is absent
    (or, depending on the layer's override predicate, present with an
    overridable value such as the empty string) in the accumulating result,
    the layer's value is copied in; the ignore predicate excludes a field from
    the layer entirely. *)
Definition apply_defaults_step (ignore override : string → value → bool)
    (key : string) (default_value : value) (target : dict) : dict :=
  if ignore key default_value then target
  else match target !! key with
       | None => <[key := default_value]> target
       | Some v => if override key v then <[key := default_value]> target else target
       end.

(** Modelled from the spec: [utils.apply_defaults], one layer of section
    4.1: the step above, for every field of the layer's source. *)
Definition apply_defaults (target defaults : dict)
    (ignore override : string → value → bool) : dict :=
  map_fold (apply_defaults_step ignore override) target defaults.

(** The default predicates of [apply_defaults]: nothing ignored, nothing
    overridden. *)
Definition never (_ : string) (_ : value) : bool := false.
(** [ignore = lambda k, _: k == "description"] *)
Definition ignore_description (k : string) (_ : value) : bool := String.eqb k "description".
(** [override = lambda _, v: v == ""] *)
Definition override_empty (_ : string) (v : value) : bool := eq_str v "".

(** Lines 232-233: the two layers applied to the copy of the raw definition. *)
Definition merge_defaults (ad_defaults ad_fields raw : dict) : dict :=
  let ad_cfg := apply_defaults raw ad_defaults ignore_description override_empty in
  apply_defaults ad_cfg ad_fields never never.

(** The result of the three selection gates of the loop body. *)
Inductive selection : Type :=
  | Selected
  | SkippedInactive
  | SkippedNotNew
  | SkippedNotDue.

(** ** The command line *)

(** A call either returns or ends the program with [sys.exit(code)]. *)
Inductive exit_or (A : Type) : Type :=
  | Continue (a : A)
  | SystemExit (code : Z).
Arguments Continue {A} a.
Arguments SystemExit {A} code.

(** The attributes that [parse_args] writes: those of [KleinanzeigenBot]
    above, [command] and [log_file_path], and the level of the logger
    ([log_level_debug] after [LOG.setLevel(logging.DEBUG)]). *)
Record Cli : Type := {
  cli_bot : KleinanzeigenBot;
  command : string;
  log_file_path : option string;
  log_level_debug : bool;
}.

(** Assignments to single attributes. *)
Definition set_config_file_path (path : string) (self : Cli) : Cli := {|
  cli_bot := {|
    config_file_path := path;
    config := config (cli_bot self);
    categories := categories (cli_bot self);
    ads_selector := ads_selector (cli_bot self);
    delete_old_ads := delete_old_ads (cli_bot self);
    delete_ads_by_title := delete_ads_by_title (cli_bot self);
  |};
  command := command self;
  log_file_path := log_file_path self;
  log_level_debug := log_level_debug self;
|}.

Definition set_ads_selector (selector : string) (self : Cli) : Cli := {|
  cli_bot := {|
    config_file_path := config_file_path (cli_bot self);
    config := config (cli_bot self);
    categories := categories (cli_bot self);
    ads_selector := selector;
    delete_old_ads := delete_old_ads (cli_bot self);
    delete_ads_by_title := delete_ads_by_title (cli_bot self);
  |};
  command := command self;
  log_file_path := log_file_path self;
  log_level_debug := log_level_debug self;
|}.

Definition set_delete_old_ads (b : bool) (self : Cli) : Cli := {|
  cli_bot := {|
    config_file_path := config_file_path (cli_bot self);
    config := config (cli_bot self);
    categories := categories (cli_bot self);
    ads_selector := ads_selector (cli_bot self);
    delete_old_ads := b;
    delete_ads_by_title := delete_ads_by_title (cli_bot self);
  |};
  command := command self;
  log_file_path := log_file_path self;
  log_level_debug := log_level_debug self;
|}.

Definition set_log_file_path (path : option string) (self : Cli) : Cli := {|
  cli_bot := cli_bot self;
  command := command self;
  log_file_path := path;
  log_level_debug := log_level_debug self;
|}.

Definition set_log_level_debug (self : Cli) : Cli := {|
  cli_bot := cli_bot self;
  command := command self;
  log_file_path := log_file_path self;
  log_level_debug := true;
|}.

Definition set_command (c : string) (self : Cli) : Cli := {|
  cli_bot := cli_bot self;
  command := c;
  log_file_path := log_file_path self;
  log_level_debug := log_level_debug self;
|}.

(** ** The browser *)

(** [selenium.webdriver.common.by.By] *)
Inductive By : Type := ID | XPATH | CSS_SELECTOR | CLASS_NAME.

(** The exceptions of the code that drives the browser: those of [exn],
    where [WebDriverException] stands for the ones that are not a
    [NoSuchElementException], and the ones that this code raises itself. *)
Inductive error : Type :=
  | Py (e : exn)
  | NoSuchElementException
  | UnknownShippingOptions        (* the KeyError of line 645 *)
  | UserWarning                   (* line 721 *)
  | IndexError                    (* line 871 *)
  | AttributeError.               (* line 517 *)

Inductive outcome (A : Type) : Type :=
  | Done (a : A)
  | Fail (e : error).
Arguments Done {A} a.
Arguments Fail {A} e.

Definition outcome_of {A} (r : result A) : outcome A :=
  match r with Ok a => Done a | Raise e => Fail (Py e) end.

(** A string literal of the source in which double quotes occur: the pieces
    between the quotes. *)
Definition double_quote : string := String "034"%char "".
Fixpoint quoted (pieces : list string) : string :=
  match pieces with
  | [] => ""
  | [piece] => piece
  | piece :: rest => piece +:+ double_quote +:+ quoted rest
  end.

(** [s.replace(old, new)] for single characters *)
Fixpoint replace_char (old new : ascii) (s : string) : string :=
  match s with
  | EmptyString => EmptyString
  | String c s' => String (if Ascii.eqb c old then new else c) (replace_char old new s')
  end.

(** [str.replace(v, ".", ",")] *)
Definition str_replace_dot (v : value) : result value :=
  match v with
  | VStr s => Ok (VStr (replace_char "." "," s))
  | _ => Raise TypeError
  end.

(** [s.split(sep)] for a separator of one character *)
Fixpoint split_on_aux (sep : ascii) (cur : string) (s : string) : list string :=
  match s with
  | EmptyString => [cur]
  | String c s' =>
      if Ascii.eqb c sep then cur :: split_on_aux sep "" s'
      else split_on_aux sep (cur +:+ String c "") s'
  end.
Definition split_on (sep : ascii) (s : string) : list string := split_on_aux sep "" s.

(** Line 517: the script that sets the description of the form.  Of the
    values of a definition only strings and timestamps have a [replace]. *)
Definition description_script (ad_cfg : dict) : outcome string :=
  match ad_cfg !! "description" with
  | None => Fail (Py (KeyError "description"))
  | Some (VStr description) =>
      Done ("document.querySelector('#pstad-descrptn').value = `"
            +:+ replace_char "`" "'" description +:+ "`")
  | Some (VDatetime _) => Fail (Py TypeError)
  | Some _ => Fail AttributeError
  end.

(** Lines 631-640 *)
Definition shipping_option_mapping (name : string) : option (string * string) :=
  if String.eqb name "DHL_2" then Some ("Klein", "Paket 2 kg")
  else if String.eqb name "Hermes_Päckchen" then Some ("Klein", "Päckchen")
  else if String.eqb name "Hermes_S" then Some ("Klein", "S-Paket")
  else if String.eqb name "DHL_5" then Some ("Mittel", "Paket 5 kg")
  else if String.eqb name "Hermes_M" then Some ("Mittel", "M-Paket")
  else if String.eqb name "DHL_10" then Some ("Mittel", "Paket 10 kg")
  else if String.eqb name "DHL_31,5" then Some ("Groß", "Paket 31,5 kg")
  else if String.eqb name "Hermes_L" then Some ("Groß", "L-Paket")
  else None.

(** Lines 642 and 644-645: the list comprehension over the options.  The
    KeyError of a lookup is caught and the KeyError of line 645 is raised in
    its place; an option that cannot be hashed raises a TypeError. *)
Fixpoint mapped_shipping_options (options : list value)
    : outcome (list (string * string)) :=
  match options with
  | [] => Done []
  | VStr name :: rest =>
      match shipping_option_mapping name with
      | Some mapped =>
          match mapped_shipping_options rest with
          | Done mapped_rest => Done (mapped :: mapped_rest)
          | Fail e => Fail e
          end
      | None => Fail UnknownShippingOptions
      end
  | (VList _ | VDict _) :: _ => Fail (Py TypeError)
  | _ :: _ => Fail UnknownShippingOptions
  end.

(** Line 643: the mapped options are unzipped into [shipping_sizes] and
    [shipping_packages]; unpacking fails on an empty list. *)
Definition unzip_shipping_options (mapped : list (string * string))
    : outcome (list string * list string) :=
  match mapped with
  | [] => Fail (Py ValueError)
  | _ => Done (mapped.*1, mapped.*2)
  end.

(** The elements of the page that the shipping steps click. *)
Definition pickup_xpath : string :=
  quoted ["//*[contains(@class, "; "ShippingPickupSelector";
          ")]//label[text()[contains(.,"; "Nur Abholung"; ")]]/input[@type="; "radio"; "]"].
Definition shipping_size_xpath (shipping_size : string) : string :=
  quoted ["//*[contains(@class, "; "ShippingOption"; ")]//input[@type="; "radio";
          " and @data-testid="; shipping_size; "]"].
Definition shipping_package_xpath (shipping_package : string) : string :=
  quoted ["//*[contains(@class, "; "CarrierOptionsPopup"; ")]//*[contains(@class, ";
          "CarrierOption"; ")]//input[@type="; "checkbox"; " and @data-testid=";
          shipping_package; "]"].
Definition continue_xpath : string :=
  quoted ["//*[contains(@class, "; "ReactModalPortal";
          ")]//button[.//*[text()[contains(.,"; "Weiter"; ")]]]"].
Definition individual_shipping_xpath : string :=
  quoted ["//*[contains(@class, "; "ShippingOption"; ")]//input[@type="; "radio"; "]"].
Definition individual_price_xpath : string :=
  quoted ["//*[contains(@class, "; "CarrierOptionsPopup"; ")]//*[contains(@class, ";
          "IndividualPriceSection"; ")]//input[@type="; "checkbox"; "]"].
Definition individual_input_xpath : string :=
  quoted ["//*[contains(@class, "; "IndividualShippingInput"; ")]//input[@type=";
          "text"; "]"].
Definition buy_now_slider_xpath : string :=
  quoted ["//*[contains(@class, "; "BuyNowSection"; ")]//span[contains(@class, ";
          "Toggle--Slider"; ")]"].

(** Line 506: the condition under which the ad is to be sold directly. *)
Definition wants_buy_now (ad_cfg : dict) (sell_directly price_type : value)
    : result bool :=
  if truthy sell_directly
  then
    shipping_type ← getitem ad_cfg "shipping_type";
    if eq_str shipping_type "SHIPPING"
    then
      shipping_options ← getitem ad_cfg "shipping_options";
      if truthy shipping_options
      then in_str_set price_type ["FIXED"; "NEGOTIABLE"]
      else mret false
    else mret false
  else mret false.

(** ** Sample definitions and collaborators

    Concrete data at which the properties below are exercised. *)

Module Sample.

Fixpoint repeat_char (c : ascii) (n : nat) : string :=
  match n with
  | O => ""
  | S n' => String c (repeat_char c n')
  end.

(** A resolved definition that passes every check. *)
Definition ad : dict :=
  list_to_map [
    ("active", VBool true); ("type", VStr "OFFER"); ("title", VStr "A fine bicycle");
    ("description", VStr "Hardly used."); ("category", VStr "Fahrräder");
    ("price", VNone); ("price_type", VStr "GIVE_AWAY");
    ("shipping_type", VStr "PICKUP"); ("shipping_costs", VNone);
    ("shipping_options", VList []); ("sell_directly", VBool false);
    ("images", VList []); ("special_attributes", VDict ∅);
    ("contact", VDict (list_to_map [("name", VStr "Bob"); ("zipcode", VStr "10115")]));
    ("republication_interval", VInt 7);
    ("id", VNone); ("created_on", VNone); ("updated_on", VNone)].

(** A wrong type and a description of 4001 characters. *)
Definition ad_bad_type_long_description : dict :=
  <["type" := VStr "SWAP"]> (<["description" := VStr (repeat_char "x" 4001)]> ad).

(** A wrong type and an empty description. *)
Definition ad_bad_type_no_description : dict :=
  <["type" := VStr "SWAP"]> (<["description" := VStr ""]> ad).

(** A title of nine characters, which are ten bytes. *)
Definition ad_umlaut_title : dict := <["title" := VStr "Fahrräder"]> ad.

(** A wrong type and a description of 4000 characters, which are 4001
    bytes. *)
Definition ad_bad_type_umlaut_description : dict :=
  <["type" := VStr "SWAP"]>
    (<["description" := VStr (repeat_char "x" 3999 +:+ "ä")]> ad).

(** To give away, at a price. *)
Definition ad_give_away_priced : dict := <["price" := VInt 5]> ad.

(** A clock reading, and definitions last updated 8 and 7 days before it. *)
Definition now : Z := 1700000000000000.
Definition ad_updated_8_days_ago : dict :=
  <["updated_on" := VDatetime (now - 8 * MICROS_PER_DAY)]> ad.
Definition ad_updated_7_days_ago : dict :=
  <["updated_on" := VDatetime (now - 7 * MICROS_PER_DAY)]> ad.

(** A published definition that carries an [id] but no [created_on], and the
    raw definition it was resolved from. *)
Definition raw_published : dict :=
  list_to_map [
    ("title", VStr "A fine bicycle"); ("description", VStr "Hardly used.");
    ("category", VStr "Fahrräder"); ("price_type", VStr "GIVE_AWAY");
    ("shipping_type", VStr "PICKUP");
    ("contact", VDict (list_to_map [("name", VStr "Bob"); ("zipcode", VStr "10115")]));
    ("id", VInt 5)].
Definition ad_published : dict := <["id" := VInt 5]> ad.

(** A raw definition as a file holds it, with its [id] written as a string. *)
Definition raw_string_id : dict := <["id" := VStr "123"]> raw_published.

(** A parser of timestamps that are stored as datetime objects. *)
Definition parse_datetime (v : value) : result (option Z) :=
  match v with
  | VNone => Ok None
  | VDatetime t => Ok (Some t)
  | VStr _ => Raise ValueError
  | _ => Raise TypeError
  end.

(** [int] on a string of decimal digits. *)
Fixpoint digits (s : string) (acc : Z) : option Z :=
  match s with
  | EmptyString => Some acc
  | String c s' =>
      let n := Z.of_nat (nat_of_ascii c) in
      if ((48 <=? n) && (n <=? 57))%Z then digits s' (10 * acc + (n - 48))%Z else None
  end.
Definition int_of_str (s : string) : option Z :=
  match s with EmptyString => None | _ => digits s 0 end.

(** A file system: one ad file next to the field table, and three images. *)
Definition glob (pattern root_dir : string) : list string :=
  if String.eqb pattern "ads/*.yaml" then ["ads/ad_fields.yaml"; "ads/ad_bike.yaml"]
  else if String.eqb pattern "img/*.jpg" then ["img/c.jpg"; "img/b.jpg"; "img/a.jpg"]
  else if String.eqb pattern "img/b.jpg" then ["img/b.jpg"]
  else [].
(** A glob library that finds nothing for the pattern None and accepts no
    other pattern that is not a string. *)
Definition glob_other (pattern : value) (root_dir : string) : result (list string) :=
  match pattern with VNone => Ok [] | _ => Raise TypeError end.
(** Mappings whose keys were inserted in ascending order. *)
Definition insertion_order (d : dict) : list string := sorted (dom d).
Definition dirname (path : string) : string := "/data".
Definition isabs (path : string) : bool := String.prefix "/" path.
Definition abspath (path relative_to : string) : string :=
  if isabs path then path else "/data/" +:+ path.
Definition splitext_ext (path : string) : string :=
  substring (String.length path - 4) 4 path.
Definition lower (s : string) : string := s.
Definition normalize_shipping_costs (v : value) : result value := Ok v.
Definition store : file_store := {[ "/data/ads/ad_bike.yaml" := raw_string_id ]}.

(** The field table: every field of a definition, without a value. *)
Definition ad_fields : dict :=
  list_to_map [
    ("active", VNone); ("type", VNone); ("title", VNone); ("description", VNone);
    ("category", VNone); ("special_attributes", VDict ∅); ("price", VNone);
    ("price_type", VNone); ("shipping_type", VNone); ("shipping_costs", VNone);
    ("shipping_options", VList []); ("sell_directly", VNone); ("images", VList []);
    ("contact", VDict (list_to_map [("name", VNone); ("street", VNone);
                                    ("zipcode", VNone); ("phone", VNone)]));
    ("republication_interval", VNone);
    ("id", VNone); ("created_on", VNone); ("updated_on", VNone)].

Definition bundled_categories : dict :=
  list_to_map [("Fahrräder", VStr "217/210"); ("Autos", VStr "216")].

Definition cfg : Config := {|
  ad_files := ["ads/*.yaml"];
  ad_defaults :=
    list_to_map [
      ("active", VBool true); ("type", VStr "OFFER");
      ("description", VDict (list_to_map [("prefix", VStr ""); ("suffix", VStr "")]));
      ("price_type", VStr "NEGOTIABLE"); ("shipping_type", VStr "SHIPPING");
      ("sell_directly", VBool false); ("republication_interval", VInt 7)];
  config_categories := list_to_map [("Fahrräder", VStr "217"); ("Boote", VStr "211")];
|}.

Definition bot : KleinanzeigenBot := {|
  config_file_path := "/data/config.yaml";
  config := cfg;
  categories :=
    list_to_map [("Fahrräder", VStr "217"); ("Boote", VStr "211"); ("Autos", VStr "216")];
  ads_selector := "due";
  delete_old_ads := true;
  delete_ads_by_title := false;
|}.

(** The same bot run with [--keep-old]. *)
Definition bot_keep_old : KleinanzeigenBot := {|
  config_file_path := config_file_path bot;
  config := cfg;
  categories := categories bot;
  ads_selector := ads_selector bot;
  delete_old_ads := false;
  delete_ads_by_title := false;
|}.

Definition utcnow (n : nat) : Z := now.
(** The clock of a run one hour later. *)
Definition utcnow_later (n : nat) : Z := (now + 3600000000)%Z.
Definition isoformat (t : Z) : string := "2023-11-14T22:13:20".

(** A browser in which every step succeeds and the published ad gets the
    identifier 456. *)
Definition web_delete (by_title : bool) (ad_cfg : dict) : result unit := Ok tt.
Definition web_free_ad_limit : result unit := Ok tt.
Definition web_submit (ad_file : string) (ad_cfg : dict) : result unit := Ok tt.
Definition web_ad_id (ad_file : string) (ad_cfg : dict) : result Z := Ok 456%Z.
Definition web_await_checking_done : result unit := Ok tt.
Definition web_login : result unit := Ok tt.

(** The same bot under another selector. *)
Definition bot_with_selector (selector : string) : KleinanzeigenBot := {|
  config_file_path := config_file_path bot;
  config := cfg;
  categories := categories bot;
  ads_selector := selector;
  delete_old_ads := true;
  delete_ads_by_title := false;
|}.

(** A parser that also reads the timestamp that [isoformat] writes. *)
Definition parse_iso (v : value) : result (option Z) :=
  match v with
  | VNone => Ok None
  | VDatetime t => Ok (Some t)
  | VStr s =>
      if String.eqb s "2023-11-14T22:13:20" then Ok (Some now) else Raise ValueError
  | _ => Raise TypeError
  end.

(** A second file system: two ad files, which the pattern of the
    configuration finds in descending order; the second one names images. *)
Definition glob_pair (pattern root_dir : string) : list string :=
  if String.eqb pattern "ads/*.yaml" then ["ads/ad_sofa.yaml"; "ads/ad_bike.yaml"]
  else glob pattern root_dir.
Definition raw_sofa : dict :=
  <["images" := VList [VStr "img/*.jpg"; VStr "img/b.jpg"]]>
    (<["title" := VStr "A comfortable sofa"]> (delete "id" raw_published)).
Definition store_pair : file_store :=
  <["/data/ads/ad_sofa.yaml" := raw_sofa]> store.

(** The bot as [__init__] leaves it, next to the sample configuration, and
    a command line parser that knows the options of [parse_args] in their
    [--name=value] form and takes everything else for an argument. *)
Definition cli : Cli := {|
  cli_bot := bot;
  command := "help";
  log_file_path := Some "/data/kleinanzeigen_bot.log";
  log_level_debug := false;
|}.
Definition option_of (arg : string) : option (string * string) :=
  if String.prefix "--ads=" arg then Some ("--ads", substring 6 (String.length arg - 6) arg)
  else if String.eqb arg "--force" then Some ("--force", "")
  else if String.eqb arg "--keep-old" then Some ("--keep-old", "")
  else if String.eqb arg "--help" then Some ("--help", "")
  else None.
Fixpoint gnu_getopt_aux (args : list string) : list (string * string) * list string :=
  match args with
  | [] => ([], [])
  | arg :: rest =>
      let r := gnu_getopt_aux rest in
      match option_of arg with
      | Some o => (o :: r.1, r.2)
      | None => (r.1, arg :: r.2)
      end
  end.
Definition gnu_getopt (args : list string) : option (list (string * string) * list string) :=
  if bool_decide (Exists (λ arg, String.prefix "--" arg = true ∧ option_of arg = None) args)
  then None
  else Some (gnu_getopt_aux args).
Definition strip (s : string) : string := s.
Definition abspath_cwd (path : string) : string := "/data/" +:+ path.

(** A page of the browser: the position of the switch for the direct sale,
    and the elements that were clicked, the last one first.  Every element
    is on the page, and a click on the slider turns the switch over. *)
Record page : Type := {
  buy_now : bool;
  clicked : list string;
  downloaded : list Z;
}.
Definition web_click (selector_type : By) (selector_value : string) (w : page)
    : page * outcome unit :=
  ({| buy_now := if String.eqb selector_value buy_now_slider_xpath
                 then negb (buy_now w) else buy_now w;
      clicked := selector_value :: clicked w;
      downloaded := downloaded w |}, Done tt).
Definition web_input (selector_type : By) (selector_value : string) (text : value) (w : page)
    : page * outcome unit := (w, Done tt).
Definition is_selected (selector_type : By) (selector_value : string) (w : page) : page * outcome bool :=
  (w, Done (buy_now w)).
Definition page_opened : page := {| buy_now := false; clicked := []; downloaded := [] |}.

(** A profile with two ads, 123 and 456; every ad page is found, and a
    download is recorded in the page, the last one first. *)
Definition re_search_ids (s : string) : bool :=
  existsb (λ c, (48 <=? nat_of_ascii c)%nat && (nat_of_ascii c <=? 57)%nat)
    (list_ascii_of_string s).
Definition extract_own_ads_references (w : page) : page * outcome (list string) :=
  (w, Done ["/s-anzeige/fahrrad/123"; "/s-anzeige/sofa/456"]).
Definition extract_ad_id_from_ad_link (ref : string) : outcome Z :=
  if String.eqb ref "/s-anzeige/fahrrad/123" then Done 123%Z
  else if String.eqb ref "/s-anzeige/sofa/456" then Done 456%Z
  else Fail (Py ValueError).
Definition web_navigate (id_ : option Z) (url : option string) (w : page)
    : page * outcome bool := (w, Done true).
Definition download_ad_page (id_ : Z) (w : page) : page * outcome unit :=
  ({| buy_now := buy_now w; clicked := clicked w; downloaded := id_ :: downloaded w |},
   Done tt).

(** An ad that is shipped, with the given shipping options, to be sold
    directly at a fixed price. *)
Definition ad_shipped (shipping_options : list string) : dict :=
  <["shipping_type" := VStr "SHIPPING"]>
    (<["shipping_options" := VList (VStr <$> shipping_options)]>
       (<["sell_directly" := VBool true]>
          (<["price_type" := VStr "FIXED"]> (<["price" := VInt 5]> ad)))).

(** The second file system with the second ad inactive and its title too
    short. *)
Definition raw_sofa_inactive : dict :=
  <["active" := VBool false]> (<["title" := VStr "Sofa"]> raw_sofa).
Definition store_sofa_inactive : file_store :=
  <["/data/ads/ad_sofa.yaml" := raw_sofa_inactive]> store.

(** The date of the sample clock, as [datetime.fromisoformat] reads it. *)
Definition fromisoformat (s : string) : result Z :=
  if String.eqb s "2023-11-14 00:00:00" then Ok now else Raise ValueError.

(** Default settings without credentials, and a configuration file that
    gives a user name and no password. *)
Definition config_defaults : dict :=
  list_to_map [
    ("ad_files", VList [VStr "ads/*.yaml"]);
    ("ad_defaults", VDict (ad_defaults cfg));
    ("categories", VDict ∅);
    ("login", VDict (list_to_map [("username", VStr ""); ("password", VStr "")]))].
Definition update_from_iterable (other : value) (d : dict) : result dict := Raise TypeError.
Definition store_configured : file_store :=
  <["/data/config.yaml" :=
      {[ "login" := VDict (list_to_map [("username", VStr "bob"); ("password", VStr "")]) ]}]>
    store.

(** A file that holds a definition with a title of four characters. *)
Definition store_broken : file_store :=
  <["/data/ads/ad_bike.yaml" := <["title" := VStr "Bike"]> raw_published]> store_pair.

End Sample.

(** ** Loading, selecting and validating ads: [load_ads] *)

Section Engine.

#[local] Set Default Proof Using "Type".

(** [utils.parse_datetime]: [None] is Python's None. *)
Variable parse_datetime : value → result (option Z).
(** [int] on a string. *)
Variable int_of_str : string → option Z.
(** [glob.glob(pattern, root_dir = ..., flags = GLOBSTAR | BRACE | EXTGLOB)] *)
Variable glob : string → string → list string.
(** [utils.abspath(path, relative_to = ...)] *)
Variable abspath : string → string → string.
(** [os.path.dirname], [os.path.isabs], [os.path.splitext(...)[1]], [str.lower] *)
Variable dirname : string → string.
Variable isabs : string → bool.
Variable splitext_ext : string → string.
Variable lower : string → string.
(** [str(round(utils.parse_decimal(v), 2))] *)
Variable normalize_shipping_costs : value → result value.
(** [utils.load_dict_from_module(resources, "ad_fields.yaml")] and
    [utils.load_dict_from_module(resources, "categories.yaml", "categories")] *)
Variable ad_fields : dict.
Variable bundled_categories : dict.
(** [datetime.utcnow()] as read while the n-th ad file is processed, and
    [datetime.isoformat]. *)
Variable utcnow : nat → Z.
Variable isoformat : Z → string.
(** The browser: the requests of [delete_ad] (lines 401-428), the limit check
    of [assert_free_ad_limit_not_reached], the form filling and submission of
    [publish_ad] (lines 451-574), the [adId] of the confirmation URL
    (lines 581-582), the wait of [publish_ads] (line 439), and
    [create_webdriver_session] with [login]. *)
Variable web_delete : bool → dict → result unit.
Variable web_free_ad_limit : result unit.
Variable web_submit : string → dict → result unit.
Variable web_ad_id : string → dict → result Z.
Variable web_await_checking_done : result unit.
Variable web_login : result unit.

(** Lines 332-334 of [load_config]: the bundled table, updated with the
    entries of the configuration. *)
Definition load_categories (cfg : Config) : dict :=
  let categories := bundled_categories in
  if truthy (VDict (config_categories cfg))
  then config_categories cfg ∪ categories
  else categories.

(** Lines 213-218: file discovery. *)
Definition add_ad_file (data_root_dir : string) (ad_files : gset string)
    (ad_file : string) : gset string :=
  if negb (endswith ad_file "ad_fields.yaml")
  then ad_files ∪ {[ abspath ad_file data_root_dir ]}
  else ad_files.

Definition discover_ad_files (self : KleinanzeigenBot) : gset string :=
  let data_root_dir := dirname (config_file_path self) in
  fold_left
    (λ ad_files file_pattern,
       fold_left (add_ad_file data_root_dir) (glob file_pattern data_root_dir) ad_files)
    (ad_files (config self)) ∅.

(** Lines 235-237 *)
Definition skip_inactive (ignore_inactive : bool) (ad_cfg : dict) : result bool :=
  if ignore_inactive
  then active ← getitem ad_cfg "active"; mret (negb (truthy active))
  else mret false.

(** Lines 239-241 *)
Definition skip_not_new (self : KleinanzeigenBot) (check_id : bool) (ad_cfg : dict)
    : result bool :=
  if String.eqb (ads_selector self) "new"
  then id ← getitem ad_cfg "id"; mret (truthy id && check_id)
  else mret false.

(** Lines 244-249 *)
Definition last_updated_on (ad_cfg : dict) : result (option Z) :=
  updated_on ← getitem ad_cfg "updated_on";
  if truthy updated_on then parse_datetime updated_on
  else
    created_on ← getitem ad_cfg "created_on";
    if truthy created_on then parse_datetime created_on
    else mret None.

(** Lines 243-259: [true] when the ad is skipped as not due. *)
Definition skip_not_due (self : KleinanzeigenBot) (now : Z) (ad_cfg : dict)
    : result bool :=
  if String.eqb (ads_selector self) "due"
  then
    last ← last_updated_on ad_cfg;
    match last with
    | Some t =>
        let ad_age_days := age_days now t in
        interval ← getitem ad_cfg "republication_interval";
        py_int_le ad_age_days interval
    | None => mret false
    end
  else mret false.

(** Lines 235-259: the selection gates, in the order of the loop body. *)
Definition select (self : KleinanzeigenBot) (ignore_inactive check_id : bool)
    (now : Z) (ad_cfg : dict) : result selection :=
  inactive ← skip_inactive ignore_inactive ad_cfg;
  if inactive : bool then mret SkippedInactive
  else
    not_new ← skip_not_new self check_id ad_cfg;
    if not_new : bool then mret SkippedNotNew
    else
      not_due ← skip_not_due self now ad_cfg;
      if not_due : bool then mret SkippedNotDue
      else mret Selected.

(** Lines 223-224: [config["ad_defaults"]["description"][part] or ""] *)
Definition description_affix (self : KleinanzeigenBot) (part : string) : result value :=
  d ← getitem (ad_defaults (config self)) "description";
  a ← subscript d part;
  mret (py_or a (VStr "")).

(** Line 261 *)
Definition compose_description (descr_prefix descr_suffix : value) (ad_cfg : dict)
    : result dict :=
  d ← getitem ad_cfg "description";
  s ← py_add descr_prefix (py_or d (VStr ""));
  s ← py_add s descr_suffix;
  mret (<["description" := s]> ad_cfg).

(** Line 262 *)
Definition check_description_length (ad_cfg : dict) : result unit :=
  d ← getitem ad_cfg "description";
  n ← py_len d;
  ensure (n <=? 4000)%nat DescriptionTooLong.

(** Lines 265-272: the three local assertions. *)
Definition assert_one_of (ad_cfg : dict) (path : string) (allowed : list string)
    : result unit :=
  b ← in_str_set (safe_get (VDict ad_cfg) (split_dot path)) allowed;
  ensure b (NotOneOf path).

Definition assert_min_len (ad_cfg : dict) (path : string) (minlen : nat) : result unit :=
  n ← py_len (safe_get (VDict ad_cfg) (split_dot path));
  ensure (minlen <=? n)%nat (TooShort path minlen).

Definition assert_has_value (ad_cfg : dict) (path : string) : result unit :=
  ensure (truthy (safe_get (VDict ad_cfg) (split_dot path))) (NotSpecified path).

(** Lines 279-282 *)
Definition check_price (ad_cfg : dict) : result unit :=
  price_type ← getitem ad_cfg "price_type";
  if eq_str price_type "GIVE_AWAY"
  then ensure (negb (truthy (safe_get (VDict ad_cfg) ["price"]))) PriceForGiveAway
  else if eq_str price_type "FIXED"
  then assert_has_value ad_cfg "price"
  else mret tt.

(** Lines 262-285: the checks made on the definition once the description is
    composed. *)
Definition validate (ad_cfg : dict) : result unit :=
  check_description_length ad_cfg;;
  assert_one_of ad_cfg "type" ["OFFER"; "WANTED"];;
  assert_min_len ad_cfg "title" 10;;
  assert_has_value ad_cfg "description";;
  assert_one_of ad_cfg "price_type" ["FIXED"; "NEGOTIABLE"; "GIVE_AWAY"; "NOT_APPLICABLE"];;
  check_price ad_cfg;;
  assert_one_of ad_cfg "shipping_type" ["PICKUP"; "SHIPPING"; "NOT_APPLICABLE"];;
  assert_has_value ad_cfg "contact.name";;
  assert_has_value ad_cfg "republication_interval".

(** The checks of [validate], one by one and in its order. *)
Definition validation_rules : list (dict → result unit) := [
  check_description_length;
  (λ ad_cfg, assert_one_of ad_cfg "type" ["OFFER"; "WANTED"]);
  (λ ad_cfg, assert_min_len ad_cfg "title" 10);
  (λ ad_cfg, assert_has_value ad_cfg "description");
  (λ ad_cfg, assert_one_of ad_cfg "price_type"
               ["FIXED"; "NEGOTIABLE"; "GIVE_AWAY"; "NOT_APPLICABLE"]);
  check_price;
  (λ ad_cfg, assert_one_of ad_cfg "shipping_type" ["PICKUP"; "SHIPPING"; "NOT_APPLICABLE"]);
  (λ ad_cfg, assert_has_value ad_cfg "contact.name");
  (λ ad_cfg, assert_has_value ad_cfg "republication_interval")
].

(** The checks other than the price rule. *)
Definition other_rules : list (dict → result unit) := delete 5%nat validation_rules.

(** The validator of section 4.3 of the specification, in the specification's
    words: eight rules in the order 1 to 8, rule 3 asking for a description
    that is not empty and has at most 4000 characters. *)
Definition validate_in_spec_order (ad_cfg : dict) : result unit :=
  assert_one_of ad_cfg "type" ["OFFER"; "WANTED"];;
  assert_min_len ad_cfg "title" 10;;
  (assert_has_value ad_cfg "description";; check_description_length ad_cfg);;
  assert_one_of ad_cfg "price_type" ["FIXED"; "NEGOTIABLE"; "GIVE_AWAY"; "NOT_APPLICABLE"];;
  check_price ad_cfg;;
  assert_one_of ad_cfg "shipping_type" ["PICKUP"; "SHIPPING"; "NOT_APPLICABLE"];;
  assert_has_value ad_cfg "contact.name";;
  assert_has_value ad_cfg "republication_interval".

(** Running a list of checks: the first one that raises ends the run. *)
Fixpoint run_rules (rules : list (dict → result unit)) (ad_cfg : dict) : result unit :=
  match rules with
  | [] => mret tt
  | rule :: rest => rule ad_cfg;; run_rules rest ad_cfg
  end.

(** Lines 287-288 *)
Definition normalize_id (ad_cfg : dict) : result dict :=
  id ← getitem ad_cfg "id";
  if truthy id
  then n ← py_int int_of_str id; mret (<["id" := VInt n]> ad_cfg)
  else mret ad_cfg.

(** Line 291: [self.categories.get(name_or_code, name_or_code)] *)
Definition resolve_category (self : KleinanzeigenBot) (name_or_code : value)
    : result value :=
  dict_get (categories self) name_or_code name_or_code.

(** Lines 290-291 *)
Definition set_category (self : KleinanzeigenBot) (ad_cfg : dict) : result dict :=
  category ← getitem ad_cfg "category";
  if truthy category
  then c ← resolve_category self category; mret (<["category" := c]> ad_cfg)
  else mret ad_cfg.

(** Lines 293-294 *)
Definition set_shipping_costs (ad_cfg : dict) : result dict :=
  shipping_costs ← getitem ad_cfg "shipping_costs";
  if truthy shipping_costs
  then c ← normalize_shipping_costs shipping_costs; mret (<["shipping_costs" := c]> ad_cfg)
  else mret ad_cfg.

(** Lines 301-307: the matches of one pattern, collected into a set. *)
Definition image_path (ad_file image_file : string) : string :=
  if isabs image_file then image_file else abspath image_file ad_file.

Definition supported_image (image_file : string) : bool :=
  bool_decide (lower (splitext_ext image_file) ∈ [".gif"; ".jpg"; ".jpeg"; ".png"]).

Fixpoint collect_images (ad_file : string) (image_files : list string)
    (pattern_images : gset string) : result (gset string) :=
  match image_files with
  | [] => mret pattern_images
  | image_file :: rest =>
      ensure (supported_image image_file) (UnsupportedImageType image_file);;
      collect_images ad_file rest (pattern_images ∪ {[ image_path ad_file image_file ]})
  end.

(** Line 301: [glob.glob(image_pattern, root_dir = ad_dir, ...)].  The code
    hands over whatever the iteration yields; what the glob library makes of
    a pattern that is not a string is the parameter [glob_other]. *)
Variable glob_other : value → string → result (list string).

Definition glob_value (image_pattern : value) (root_dir : string)
    : result (list string) :=
  match image_pattern with
  | VStr pattern => Ok (glob pattern root_dir)
  | _ => glob_other image_pattern root_dir
  end.

(** Lines 298-308: the loop over the patterns. *)
Fixpoint expand_patterns (ad_file : string) (patterns : list value)
    (images : list string) : result (list string) :=
  match patterns with
  | [] => mret images
  | image_pattern :: rest =>
      let ad_dir := dirname ad_file in
      image_files ← glob_value image_pattern ad_dir;
      pattern_images ← collect_images ad_file image_files ∅;
      expand_patterns ad_file rest (images ++ sorted pattern_images)
  end.

(** Lines 297-310, for the patterns that [ad_cfg["images"]] iterates over. *)
Definition resolve_images (ad_file : string) (patterns : list value)
    : result (list string) :=
  images ← expand_patterns ad_file patterns [];
  ensure (bool_decide (images ≠ []) || negb (truthy (VList patterns))) NoImagesFound;;
  mret (fromkeys images).

(** A finite map does not keep the order in which its keys were inserted:
    the keys of a mapping in that order are a parameter. *)
Variable insertion_order : dict → list string.

(** What [for image_pattern in v] iterates over: the items of a list, the
    characters of a string, the keys of a mapping. *)
Definition iterate (v : value) : result (list value) :=
  match v with
  | VList l => Ok l
  | VStr s => Ok (VStr <$> characters s)
  | VDict d => Ok (VStr <$> insertion_order d)
  | _ => Raise TypeError
  end.

(** Lines 296-310 *)
Definition set_images (ad_file : string) (ad_cfg : dict) : result dict :=
  images ← getitem ad_cfg "images";
  if truthy images
  then
    patterns ← iterate images;
    l ← resolve_images ad_file patterns;
    mret (<["images" := VList (VStr <$> l)]> ad_cfg)
  else mret ad_cfg.

(** Lines 230-316: the body of the loop over the ad files.  [None] is an ad
    that was skipped. *)
Definition load_ad (self : KleinanzeigenBot) (ignore_inactive check_id : bool)
    (now : Z) (descr_prefix descr_suffix : value)
    (ad_file : string) (ad_cfg_orig : dict) : result (option ad_entry) :=
  let ad_cfg := merge_defaults (ad_defaults (config self)) ad_fields ad_cfg_orig in
  s ← select self ignore_inactive check_id now ad_cfg;
  match s with
  | Selected =>
      ad_cfg ← compose_description descr_prefix descr_suffix ad_cfg;
      validate ad_cfg;;
      ad_cfg ← normalize_id ad_cfg;
      ad_cfg ← set_category self ad_cfg;
      ad_cfg ← set_shipping_costs ad_cfg;
      ad_cfg ← set_images ad_file ad_cfg;
      mret (Some (ad_file, ad_cfg, ad_cfg_orig))
  | _ => mret None
  end.

(** Lines 228-316: the loop. *)
Fixpoint load_each (self : KleinanzeigenBot) (store : file_store)
    (ignore_inactive check_id : bool)
    (descr_prefix descr_suffix : value) (files : list string) (n : nat)
    (ads : list ad_entry) : result (list ad_entry) :=
  match files with
  | [] => mret ads
  | ad_file :: rest =>
      ad_cfg_orig ← load_dict store ad_file;
      r ← load_ad self ignore_inactive check_id (utcnow n)
            descr_prefix descr_suffix ad_file ad_cfg_orig;
      load_each self store ignore_inactive check_id descr_prefix descr_suffix rest (S n)
        (match r with Some entry => ads ++ [entry] | None => ads end)
  end.

(** Lines 210-319 *)
Definition load_ads (self : KleinanzeigenBot) (store : file_store)
    (ignore_inactive check_id : bool) : result (list ad_entry) :=
  let ad_files := discover_ad_files self in
  if bool_decide (ad_files = ∅) then mret []
  else
    descr_prefix ← description_affix self "prefix";
    descr_suffix ← description_affix self "suffix";
    load_each self store ignore_inactive check_id descr_prefix descr_suffix
      (sorted ad_files) 0 [].

(** ** Deleting and publishing: [delete_ad], [delete_ads], [publish_ad] *)

(** Lines 400-430.  The dictionary passed in is mutated; the mutated
    dictionary is returned next to the return value. *)
Definition delete_ad (self : KleinanzeigenBot) (ad_cfg : dict) : result (dict * bool) :=
  _ ← getitem ad_cfg "title";
  web_delete (delete_ads_by_title self) ad_cfg;;
  let ad_cfg := <["id" := VNone]> ad_cfg in
  mret (ad_cfg, true).

(** Lines 387-398.  Each entry is [(ad_file, ad_cfg, _)]: the third component
    is not used.  The entries are returned as the loop leaves them. *)
Fixpoint delete_ads (self : KleinanzeigenBot) (ad_cfgs : list ad_entry)
    : result (list ad_entry) :=
  match ad_cfgs with
  | [] => mret []
  | (ad_file, ad_cfg, ad_cfg_orig) :: rest =>
      _ ← getitem ad_cfg "title";
      r ← delete_ad self ad_cfg;
      rest' ← delete_ads self rest;
      mret ((ad_file, r.1, ad_cfg_orig) :: rest')
  end.

(** Lines 445-587.  [ad_cfg] and [ad_cfg_orig] are distinct objects
    ([ad_cfg] is a deep copy made by [load_ads]); both are returned as the
    call leaves them, with the file store. *)
Definition publish_ad (self : KleinanzeigenBot) (now : Z) (store : file_store)
    (ad_file : string) (ad_cfg ad_cfg_orig : dict)
    : result (dict * dict * file_store) :=
  web_free_ad_limit;;
  ad_cfg ← (if delete_old_ads self
            then r ← delete_ad self ad_cfg; mret r.1
            else mret ad_cfg);
  _ ← getitem ad_cfg "title";
  web_submit ad_file ad_cfg;;
  let ad_cfg_orig := <["updated_on" := VStr (isoformat now)]> ad_cfg_orig in
  created_on ← getitem ad_cfg "created_on";
  first_publication ←
    (if negb (truthy created_on)
     then id ← getitem ad_cfg "id"; mret (negb (truthy id))
     else mret false);
  updated_on ← getitem ad_cfg_orig "updated_on";
  let ad_cfg_orig :=
    if first_publication : bool
    then <["created_on" := updated_on]> ad_cfg_orig
    else ad_cfg_orig in
  ad_id ← web_ad_id ad_file ad_cfg;
  let ad_cfg_orig := <["id" := VInt ad_id]> ad_cfg_orig in
  let store := save_dict ad_file ad_cfg_orig store in
  mret (ad_cfg, ad_cfg_orig, store).

(** Lines 432-443: the entries and the file store as the loop leaves them. *)
Fixpoint publish_ads (self : KleinanzeigenBot) (n : nat) (store : file_store)
    (ad_cfgs : list ad_entry) : result (list ad_entry * file_store) :=
  match ad_cfgs with
  | [] => mret ([], store)
  | (ad_file, ad_cfg, ad_cfg_orig) :: rest =>
      _ ← getitem ad_cfg "title";
      r ← publish_ad self (utcnow n) store ad_file ad_cfg ad_cfg_orig;
      web_await_checking_done;;
      r' ← publish_ads self (S n) r.2 rest;
      mret ((ad_file, r.1.1, r.1.2) :: r'.1, r'.2)
  end.

(** Lines 74-84 of [run], for a configured bot: the command [publish]. *)
Definition run_publish (self : KleinanzeigenBot) (store : file_store)
    : result file_store :=
  ads ← load_ads self store true true;
  match ads with
  | [] => mret store
  | _ =>
      web_login;;
      r ← publish_ads self 0 store ads;
      mret r.2
  end.

(** Lines 85-95 of [run], for a configured bot: the command [delete]. *)
Definition run_delete (self : KleinanzeigenBot) (store : file_store)
    : result (list ad_entry * file_store) :=
  ads ← load_ads self store true true;
  match ads with
  | [] => mret ([], store)
  | _ =>
      web_login;;
      ads' ← delete_ads self ads;
      mret (ads', store)
  end.

(** ** The command line: [parse_args] *)

(** [getopt.gnu_getopt(args, "hv", [...])] with the options of line 152: the
    options as pairs of name and value and the remaining arguments, or
    [None] for a [getopt.error]; [str.strip]; and [abspath] of one
    argument. *)
Variable gnu_getopt : list string → option (list (string * string) * list string).
Variable strip : string → string.
Variable abspath_cwd : string → string.

(** Lines 167-185: one turn of the loop over the options. *)
Definition parse_option (self : Cli) (option value : string) : exit_or Cli :=
  if String.eqb option "-h" || String.eqb option "--help" then SystemExit 0
  else if String.eqb option "--config"
  then Continue (set_config_file_path (abspath_cwd value) self)
  else if String.eqb option "--logfile"
  then Continue (set_log_file_path
                   (if truthy (VStr value) then Some (abspath_cwd value) else None) self)
  else if String.eqb option "--ads"
  then Continue (set_ads_selector (lower (strip value)) self)
  else if String.eqb option "--force" then Continue (set_ads_selector "all" self)
  else if String.eqb option "--keep-old" then Continue (set_delete_old_ads false self)
  else if String.eqb option "-v" || String.eqb option "--verbose"
  then Continue (set_log_level_debug self)
  else Continue self.

(** Lines 166-185 *)
Fixpoint parse_options (self : Cli) (options : list (string * string)) : exit_or Cli :=
  match options with
  | [] => Continue self
  | (option, value) :: rest =>
      match parse_option self option value with
      | Continue self => parse_options self rest
      | SystemExit code => SystemExit code
      end
  end.

(** Lines 150-194 *)
Definition parse_args (self : Cli) (args : list string) : exit_or Cli :=
  match gnu_getopt (drop 1 args) with
  | None => SystemExit 2
  | Some (options, arguments) =>
      match parse_options self options with
      | SystemExit code => SystemExit code
      | Continue self =>
          match arguments with
          | [] => Continue (set_command "help" self)
          | [argument] => Continue (set_command argument self)
          | _ => SystemExit 2
          end
      end
  end.

(** ** Filling in the form: shipping and direct sale *)

(** The browser and everything else outside the program is a state that the
    steps pass on; a step returns or raises. *)
Variable World : Type.

Definition web (A : Type) : Type := World → World * outcome A.

#[local] Instance web_ret : MRet web := λ A a w, (w, Done a).
#[local] Instance web_bind : MBind web := λ A B f m w,
  match m w with
  | (w', Done a) => f a w'
  | (w', Fail e) => (w', Fail e)
  end.

Definition raise {A} (e : error) : web A := λ w, (w, Fail e).

(** A computation that does not touch the browser. *)
Definition pure {A} (o : outcome A) : web A := λ w, (w, o).

(** [try: ... except NoSuchElementException: ...] around steps whose handler
    only logs. *)
Definition ignore_no_such_element (steps : web unit) : web unit := λ w,
  match steps w with
  | (w', Fail NoSuchElementException) => (w', Done tt)
  | r => r
  end.

(** [self.web_click(by, value)], [self.web_input(by, value, text)] and
    [self.webdriver.find_element(by, value).is_selected()] *)
Variable web_click : By → string → web unit.
Variable web_input : By → string → value → web unit.
Variable is_selected : By → string → web bool.

(** Lines 654-660 *)
Fixpoint click_shipping_packages (shipping_packages : list string) : web unit :=
  match shipping_packages with
  | [] => mret tt
  | shipping_package :: rest =>
      web_click XPATH (shipping_package_xpath shipping_package);;
      click_shipping_packages rest
  end.

(** Lines 629-664 *)
Definition set_shipping_options (ad_cfg : dict) : web unit :=
  ignore_no_such_element (
    shipping_options ← pure (outcome_of (getitem ad_cfg "shipping_options"));
    options ← pure (outcome_of (iterate shipping_options));
    mapped_shipping_options ← pure (mapped_shipping_options options);
    unzipped ← pure (unzip_shipping_options mapped_shipping_options);
    let unique_shipping_sizes : gset string := list_to_set unzipped.1 in
    if (1 <? size unique_shipping_sizes)%nat
    then raise (Py ValueError)
    else
      match elements unique_shipping_sizes with
      | [shipping_size] =>
          web_click XPATH (shipping_size_xpath shipping_size);;
          click_shipping_packages unzipped.2;;
          web_click XPATH continue_xpath
      | _ => raise (Py ValueError)
      end).

(** Lines 475-490 *)
Definition set_shipping (ad_cfg : dict) : web unit :=
  shipping_type ← pure (outcome_of (getitem ad_cfg "shipping_type"));
  if eq_str shipping_type "PICKUP"
  then ignore_no_such_element (web_click XPATH pickup_xpath)
  else
    shipping_options ← pure (outcome_of (getitem ad_cfg "shipping_options"));
    if truthy shipping_options
    then set_shipping_options ad_cfg
    else
      shipping_costs ← pure (outcome_of (getitem ad_cfg "shipping_costs"));
      if truthy shipping_costs
      then
        ignore_no_such_element (
          web_click XPATH individual_shipping_xpath;;
          web_click XPATH individual_price_xpath;;
          costs ← pure (outcome_of (shipping_costs ← getitem ad_cfg "shipping_costs";
                                    str_replace_dot shipping_costs));
          web_input XPATH individual_input_xpath costs;;
          web_click XPATH continue_xpath)
      else mret tt.

(** Lines 504-512, with the [price_type] read at line 495. *)
Definition set_sell_directly (ad_cfg : dict) (price_type : value) : web unit :=
  sell_directly ← pure (outcome_of (getitem ad_cfg "sell_directly"));
  ignore_no_such_element (
    wanted ← pure (outcome_of (wants_buy_now ad_cfg sell_directly price_type));
    selected ← is_selected ID "buy-now-toggle";
    if wanted : bool
    then (if negb selected then web_click XPATH buy_now_slider_xpath else mret tt)
    else (if selected : bool then web_click XPATH buy_now_slider_xpath else mret tt)).

(** ** Downloading ads: [start_download_routine] *)

(** [re.compile(r'\d+[,\d+]*').search(s)] finds a match;
    [extract.AdExtractor(self.webdriver).extract_own_ads_references()];
    [utils.extract_ad_id_from_ad_link]; lines 722-750 of
    [navigate_to_ad_page]; and [download_ad_page] (lines 878-903). *)
Variable re_search_ids : string → bool.
Variable extract_own_ads_references : web (list string).
Variable extract_ad_id_from_ad_link : string → outcome Z.
Variable web_navigate : option Z → option string → web bool.
Variable download_ad_page : Z → web unit.

(** Lines 712-750.  [None] is an argument that is not given. *)
Definition navigate_to_ad_page (id_ : option Z) (url : option string) : web bool :=
  let given :=
    match id_ with Some n => truthy (VInt n) | None => false end
    || match url with Some u => truthy (VStr u) | None => false end in
  if negb given then raise UserWarning else web_navigate id_ url.

(** Lines 923-927 *)
Fixpoint download_all (refs : list string) : web unit :=
  match refs with
  | [] => mret tt
  | ref :: rest =>
      ref_ad_id ← pure (extract_ad_id_from_ad_link ref);
      found ← navigate_to_ad_page None (Some ref);
      (if found : bool then download_ad_page ref_ad_id else mret tt);;
      download_all rest
  end.

(** Line 932 *)
Fixpoint ref_ad_ids (refs : list string) : outcome (list Z) :=
  match refs with
  | [] => Done []
  | r :: rest =>
      match extract_ad_id_from_ad_link r with
      | Done id_ =>
          match ref_ad_ids rest with
          | Done ids => Done (id_ :: ids)
          | Fail e => Fail e
          end
      | Fail e => Fail e
      end
  end.

(** Lines 936-940: [int(ad_[2]['id'])] for every loaded ad; the third
    component of an entry is the raw definition. *)
Fixpoint saved_ad_ids (ads : list ad_entry) : result (list Z) :=
  match ads with
  | [] => mret []
  | ad_ :: rest =>
      id ← getitem ad_.2 "id";
      ad_id ← py_int int_of_str id;
      ids ← saved_ad_ids rest;
      mret (ad_id :: ids)
  end.

(** Lines 944-953 *)
Fixpoint download_new (ref_pairs : list (string * Z)) (saved_ad_ids : list Z) : web unit :=
  match ref_pairs with
  | [] => mret tt
  | ref_pair :: rest =>
      let id_ := ref_pair.2 in
      if bool_decide (id_ ∈ saved_ad_ids) then download_new rest saved_ad_ids
      else
        found ← navigate_to_ad_page None (Some ref_pair.1);
        (if found : bool then download_ad_page id_ else mret tt);;
        download_new rest saved_ad_ids
  end.

(** Line 957: [[int(n) for n in self.ads_selector.split(',')]] *)
Fixpoint parse_ids (pieces : list string) : result (list Z) :=
  match pieces with
  | [] => mret []
  | n :: rest =>
      id_ ← py_int int_of_str (VStr n);
      ids ← parse_ids rest;
      mret (id_ :: ids)
  end.

(** Lines 961-967 *)
Fixpoint download_ids (ids : list Z) : web unit :=
  match ids with
  | [] => mret tt
  | id_ :: rest =>
      exists_ ← navigate_to_ad_page (Some id_) None;
      (if exists_ : bool then download_ad_page id_ else mret tt);;
      download_ids rest
  end.

(** Lines 905-967.  [store] is what the ad files hold when [load_ads] is
    called. *)
Definition start_download_routine (self : KleinanzeigenBot) (store : file_store)
    : web unit :=
  if bool_decide (ads_selector self ∈ ["all"; "new"])
  then
    refs ← extract_own_ads_references;
    if String.eqb (ads_selector self) "all" then download_all refs
    else if String.eqb (ads_selector self) "new"
    then
      ref_ad_ids ← pure (ref_ad_ids refs);
      let ref_pairs := zip refs ref_ad_ids in
      ads ← pure (outcome_of (load_ads self store false false));
      saved_ad_ids ← pure (outcome_of (saved_ad_ids ads));
      download_new ref_pairs saved_ad_ids
    else mret tt
  else if re_search_ids (ads_selector self)
  then
    ids ← pure (outcome_of (parse_ids (split_on "," (ads_selector self))));
    download_ids ids
  else mret tt.

(** ** The creation date of a downloaded ad *)

(** [datetime.fromisoformat] *)
Variable fromisoformat : string → result Z.

(** Lines 870-873 of [extract_ad_page_info]: the date of the page, written
    as day.month.year, becomes the [created_on] of the downloaded ad. *)
Definition convert_creation_date (creation_date : string) : outcome string :=
  let created_parts := split_on "." creation_date in
  match created_parts with
  | day :: month :: year :: _ =>
      let creation_date := year +:+ "-" +:+ month +:+ "-" +:+ day +:+ " 00:00:00" in
      outcome_of (isoformat <$> fromisoformat creation_date)
  | _ => Fail IndexError
  end.

(** ** The configuration: [load_config] *)

(** [utils.load_dict_from_module(resources, "config_defaults.yaml")], and
    [dict.update] with an argument that is not a mapping: the argument, the
    dictionary that is updated, and the dictionary after the update. *)
Variable config_defaults : dict.
Variable update_from_iterable : value → dict → result dict.

(** Lines 332-334, for the value that the configuration holds. *)
Definition update_categories (config_categories : value) : result dict :=
  let categories := bundled_categories in
  if truthy config_categories
  then match config_categories with
       | VDict d => Ok (d ∪ categories)
       | other => update_from_iterable other categories
       end
  else Ok categories.

(** Lines 321-338: the configuration, the categories and the check of the
    credentials, with what the file store holds afterwards.  The browser
    settings of lines 340-346 are read after them. *)
Definition load_config (self : KleinanzeigenBot) (store : file_store)
    : file_store * result (dict * dict) :=
  let loaded :=
    match load_dict_if_exists store (config_file_path self) with
    | None => (save_dict (config_file_path self) config_defaults store, ∅)
    | Some config => (store, config)
    end in
  let config := apply_defaults loaded.2 config_defaults never never in
  (loaded.1,
   config_categories ← getitem config "categories";
   categories ← update_categories config_categories;
   login ← getitem config "login";
   username ← subscript login "username";
   ensure (truthy username) (NotSpecified "login.username");;
   login ← getitem config "login";
   password ← subscript login "password";
   ensure (truthy password) (NotSpecified "login.password");;
   mret (config, categories)).

(** ** Notions used in the statements *)

(** A string without the character [sep]. *)
Definition free_of (sep : ascii) (s : string) : Prop :=
  sep ∉ list_ascii_of_string s.

(** The pairs of [download_new] whose ad is not saved. *)
Definition unsaved (saved_ad_ids : list Z) (ref_pairs : list (string * Z))
    : list (string * Z) :=
  filter (λ ref_pair, ref_pair.2 ∉ saved_ad_ids) ref_pairs.

(** The package size of a shipping option, and the packages of a list of
    options. *)
Definition shipping_size (name : string) : option string :=
  fst <$> shipping_option_mapping name.
Definition shipping_packages_of (names : list string) : list string :=
  omap (λ name, snd <$> shipping_option_mapping name) names.

(** The options that ask for the help text, that set the selector, and
    that keep old ads. *)
Definition is_help (o : string * string) : bool :=
  String.eqb o.1 "-h" || String.eqb o.1 "--help".
Definition sets_selector (o : string * string) : bool :=
  String.eqb o.1 "--ads" || String.eqb o.1 "--force".
Definition is_keep_old (o : string * string) : bool := String.eqb o.1 "--keep-old".

(** The image list in the words of the specification: per pattern, the
    absolute paths of its matches as a set, sorted. *)
Definition pattern_matches (ad_file image_pattern : string) : list string :=
  image_path ad_file <$> glob image_pattern (dirname ad_file).

Definition sorted_matches (ad_file image_pattern : string) : list string :=
  sorted (list_to_set (pattern_matches ad_file image_pattern)).

(** The position of the first of the blocks that holds [x]. *)
Fixpoint first_block (blocks : list (list string)) (x : string) : nat :=
  match blocks with
  | [] => 0
  | block :: rest => if bool_decide (x ∈ block) then 0 else S (first_block rest x)
  end.

Definition str_lt (s t : string) : Prop := String.ltb s t = true.

(** [x] comes before [y]: its first block is the earlier one or, in the same
    block, it is the smaller string. *)
Definition image_order (blocks : list (list string)) (x y : string) : Prop :=
  (first_block blocks x < first_block blocks y)%nat
  ∨ (first_block blocks x = first_block blocks y ∧ str_lt x y).

(** The [id] of a loaded definition against the [id] of the merged raw
    definition: the same value when that is falsy, its integer when not. *)
Definition id_normalized (self : KleinanzeigenBot) (raw ad_cfg : dict) : Prop :=
  ∃ merged_id id,
    merge_defaults (ad_defaults (config self)) ad_fields raw !! "id" = Some merged_id
    ∧ ad_cfg !! "id" = Some id
    ∧ if truthy merged_id
      then ∃ n, py_int int_of_str merged_id = Ok n ∧ id = VInt n
      else id = merged_id.

(** What [apply_defaults] leaves under a key. *)
Definition merged_field (ignore override : string → value → bool) (key : string)
    (target_field default_field : option value) : option value :=
  match default_field with
  | None => target_field
  | Some default_value =>
      if ignore key default_value then target_field
      else match target_field with
           | None => Some default_value
           | Some v => if override key v then Some default_value else Some v
           end
  end.

(** Lines 230-316 on the n-th file of the sorted list: the file is read and
    the body of the loop is run on what it holds. *)
Definition load_file (self : KleinanzeigenBot) (store : file_store)
    (ignore_inactive check_id : bool) (descr_prefix descr_suffix : value)
    (n : nat) (ad_file : string) : result (option ad_entry) :=
  ad_cfg_orig ← load_dict store ad_file;
  load_ad self ignore_inactive check_id (utcnow n) descr_prefix descr_suffix
    ad_file ad_cfg_orig.

(** The block of a pattern in the image list: the paths of its matches,
    without repetition and in ascending order. *)
Definition image_block (ad_file : string) (image_files : list string) : list string :=
  sorted (list_to_set (image_path ad_file <$> image_files)).

(** The glob library accepts the pattern and returns [image_files], all of
    them with a supported extension. *)
Definition matched_by (ad_file : string) (image_pattern : value)
    (image_files : list string) : Prop :=
  glob_value image_pattern (dirname ad_file) = Ok image_files
  ∧ Forall (λ f, supported_image f = true) image_files.

(** The field [key] holds one of the strings [allowed]. *)
Definition one_of (ad_cfg : dict) (key : string) (allowed : list string) : Prop :=
  ∃ s, ad_cfg !! key = Some (VStr s) ∧ s ∈ allowed.

(** What the checks of lines 262-285 ask of a definition, field by field. *)
Definition valid_ad (ad_cfg : dict) : Prop :=
  (∃ d (n : nat), ad_cfg !! "description" = Some d ∧ py_len d = Ok n
                  ∧ (n ≤ 4000)%nat ∧ truthy d = true)
  ∧ one_of ad_cfg "type" ["OFFER"; "WANTED"]
  ∧ (∃ title (n : nat), ad_cfg !! "title" = Some title ∧ py_len title = Ok n
                        ∧ (10 ≤ n)%nat)
  ∧ one_of ad_cfg "price_type" ["FIXED"; "NEGOTIABLE"; "GIVE_AWAY"; "NOT_APPLICABLE"]
  ∧ (ad_cfg !! "price_type" = Some (VStr "GIVE_AWAY") →
     truthy (safe_get (VDict ad_cfg) ["price"]) = false)
  ∧ (ad_cfg !! "price_type" = Some (VStr "FIXED") →
     truthy (safe_get (VDict ad_cfg) ["price"]) = true)
  ∧ one_of ad_cfg "shipping_type" ["PICKUP"; "SHIPPING"; "NOT_APPLICABLE"]
  ∧ truthy (safe_get (VDict ad_cfg) ["contact"; "name"]) = true
  ∧ truthy (safe_get (VDict ad_cfg) ["republication_interval"]) = true.

(** The file names of a list of entries. *)
Definition files_of (entries : list ad_entry) : list string :=
  (λ entry : ad_entry, entry.1.1) <$> entries.

(** The republication interval that a readable ad file resolves to is an
    integer that is not negative; so for all the discovered ad files. *)
Definition interval_set (self : KleinanzeigenBot) (store : file_store)
    (ad_file : string) : bool :=
  match store !! ad_file with
  | Some raw =>
      match merge_defaults (ad_defaults (config self)) ad_fields raw
              !! "republication_interval" with
      | Some (VInt interval) => (0 <=? interval)%Z
      | _ => false
      end
  | None => true
  end.

Definition intervals_set (self : KleinanzeigenBot) (store : file_store) : bool :=
  forallb (interval_set self store) (sorted (discover_ad_files self)).

(** The keys of a raw definition that [publish_ad] writes. *)
Definition managed_key (key : string) : bool :=
  bool_decide (key ∈ ["id"; "created_on"; "updated_on"]).

(** Lines 436-439 on one entry: the body of the loop of [publish_ads]. *)
Definition publish_entry (self : KleinanzeigenBot) (n : nat) (store : file_store)
    (entry : ad_entry) : result (ad_entry * file_store) :=
  _ ← getitem entry.1.2 "title";
  r ← publish_ad self (utcnow n) store entry.1.1 entry.1.2 entry.2;
  web_await_checking_done;;
  mret ((entry.1.1, r.1.1, r.1.2), r.2).

(** Lines 391-394 on one entry: the body of the loop of [delete_ads]. *)
Definition delete_entry (self : KleinanzeigenBot) (entry : ad_entry) : result ad_entry :=
  _ ← getitem entry.1.2 "title";
  r ← delete_ad self entry.1.2;
  mret (entry.1.1, r.1, entry.2).

(** * Properties *)

(** ** The defaults merge *)

Lemma apply_defaults_lookup (target defaults : dict) ignore override (key : string) :
  apply_defaults target defaults ignore override !! key
  = merged_field ignore override key (target !! key) (defaults !! key).
Proof.
  unfold apply_defaults.
  apply (map_fold_weak_ind
    (λ (r : dict) (m : dict), r !! key = merged_field ignore override key (target !! key) (m !! key))).
  - by rewrite lookup_empty.
  - intros i x m r Hi IH. unfold apply_defaults_step.
    destruct (decide (i = key)) as [->|Hne].
    + rewrite lookup_insert_eq. rewrite Hi in IH. simpl in IH. simpl.
      destruct (ignore key x); [done|]. rewrite IH.
      destruct (target !! key) as [v|]; [|by rewrite lookup_insert_eq].
      destruct (override key v); [by rewrite lookup_insert_eq|done].
    + rewrite lookup_insert_ne by done. rewrite <- IH.
      destruct (ignore i x); [done|].
      destruct (r !! i) as [v|]; [|by rewrite lookup_insert_ne].
      destruct (override i v); [by rewrite lookup_insert_ne|done].
Qed.

Lemma merge_defaults_lookup (ad_defaults0 ad_fields0 raw : dict) (key : string) :
  merge_defaults ad_defaults0 ad_fields0 raw !! key
  = merged_field never never key
      (merged_field ignore_description override_empty key (raw !! key) (ad_defaults0 !! key))
      (ad_fields0 !! key).
Proof. unfold merge_defaults. by rewrite !apply_defaults_lookup. Qed.

(** C6: merging the merged definition again, against the same two layers with
    the same predicates, gives the merged definition.  This holds for every
    raw definition, every table of ad defaults and every table of field
    defaults. *)
Theorem merge_defaults_idempotent (ad_defaults0 ad_fields0 raw : dict) :
  merge_defaults ad_defaults0 ad_fields0 (merge_defaults ad_defaults0 ad_fields0 raw)
  = merge_defaults ad_defaults0 ad_fields0 raw.
Proof.
  apply map_eq. intros key. rewrite !merge_defaults_lookup.
  unfold merged_field, never, ignore_description, override_empty.
  destruct (ad_fields0 !! key) as [f|], (ad_defaults0 !! key) as [d|],
    (raw !! key) as [v|]; simpl; try done;
    destruct (String.eqb key "description"); simpl; try done;
    repeat match goal with
           | |- context [eq_str ?x ""] => destruct (eq_str x "") eqn:?; simpl; try done
           end; try congruence.
Qed.

(** A single layer is idempotent whatever its predicates are. *)
Lemma apply_defaults_idempotent (target defaults : dict) ignore override :
  apply_defaults (apply_defaults target defaults ignore override) defaults ignore override
  = apply_defaults target defaults ignore override.
Proof.
  apply map_eq. intros key. rewrite !apply_defaults_lookup. unfold merged_field.
  destruct (defaults !! key) as [d|]; [|done].
  destruct (ignore key d); [done|].
  destruct (target !! key) as [v|]; [|by destruct (override key d)].
  destruct (override key v) eqn:Hv; [by destruct (override key d)|by rewrite Hv].
Qed.

(** ** Selection *)

Lemma age_days_whole (now days : Z) :
  age_days now (now - days * MICROS_PER_DAY) = days.
Proof.
  unfold age_days. replace (now - (now - days * MICROS_PER_DAY))%Z
    with (days * MICROS_PER_DAY)%Z by lia.
  apply Z.div_mul. unfold MICROS_PER_DAY. lia.
Qed.

Lemma skip_not_new_due (self : KleinanzeigenBot) check_id ad_cfg :
  ads_selector self = "due" → skip_not_new self check_id ad_cfg = Ok false.
Proof. intros Hsel. unfold skip_not_new. by rewrite Hsel. Qed.

Lemma skip_not_due_never_published (self : KleinanzeigenBot) now ad_cfg updated_on created_on :
  ad_cfg !! "updated_on" = Some updated_on →
  ad_cfg !! "created_on" = Some created_on →
  truthy updated_on = false → truthy created_on = false →
  skip_not_due self now ad_cfg = Ok false.
Proof.
  intros Hu Hc Htu Htc. unfold skip_not_due, last_updated_on, getitem.
  destruct (String.eqb (ads_selector self) "due"); [|done].
  rewrite Hu. simpl. rewrite Htu, Hc. simpl. by rewrite Htc.
Qed.

Lemma skip_not_due_published (self : KleinanzeigenBot) now ad_cfg updated_on created_on
    last_updated interval :
  ads_selector self = "due" →
  ad_cfg !! "updated_on" = Some updated_on →
  ad_cfg !! "created_on" = Some created_on →
  truthy updated_on || truthy created_on = true →
  parse_datetime (if truthy updated_on then updated_on else created_on)
    = Ok (Some last_updated) →
  ad_cfg !! "republication_interval" = Some (VInt interval) →
  skip_not_due self now ad_cfg = Ok (age_days now last_updated <=? interval)%Z.
Proof.
  intros Hsel Hu Hc Hset Hparse Hi. unfold skip_not_due, last_updated_on, getitem.
  rewrite Hsel, Hu. simpl.
  destruct (truthy updated_on); simpl in *.
  - rewrite Hparse. simpl. by rewrite Hi.
  - rewrite Hc. simpl. rewrite Hset, Hparse. simpl. by rewrite Hi.
Qed.

(** C1: selection under the selector [due].  With neither [updated_on] nor
    [created_on] set, the ad is not skipped.  Otherwise, with the last update
    read from [updated_on] if it is set and from [created_on] if not, the ad
    is skipped exactly when its age in whole days is at most
    [republication_interval], that is, it is included exactly when the age
    exceeds the interval.  For an ad that passes the filter on [active] this
    is the outcome of the whole selection: with an interval of 7 days an ad
    updated 8 days ago is selected and one updated 7 days ago is skipped. *)
Theorem due_selection (self : KleinanzeigenBot) now (ad_cfg : dict) updated_on created_on :
  ads_selector self = "due" →
  ad_cfg !! "updated_on" = Some updated_on →
  ad_cfg !! "created_on" = Some created_on →
  (truthy updated_on = false → truthy created_on = false →
   skip_not_due self now ad_cfg = Ok false
   ∧ ∀ ignore_inactive check_id,
       skip_inactive ignore_inactive ad_cfg = Ok false →
       select self ignore_inactive check_id now ad_cfg = Ok Selected)
  ∧ (∀ last_updated interval,
       truthy updated_on || truthy created_on = true →
       parse_datetime (if truthy updated_on then updated_on else created_on)
         = Ok (Some last_updated) →
       ad_cfg !! "republication_interval" = Some (VInt interval) →
       skip_not_due self now ad_cfg = Ok (age_days now last_updated <=? interval)%Z
       ∧ (skip_not_due self now ad_cfg = Ok false
          ↔ (age_days now last_updated > interval)%Z)
       ∧ ∀ ignore_inactive check_id,
           skip_inactive ignore_inactive ad_cfg = Ok false →
           select self ignore_inactive check_id now ad_cfg
             = Ok (if (interval <? age_days now last_updated)%Z
                   then Selected else SkippedNotDue)
           ∧ (select self ignore_inactive check_id now ad_cfg = Ok Selected
              ↔ (age_days now last_updated > interval)%Z)
           ∧ (interval = 7%Z → last_updated = (now - 8 * MICROS_PER_DAY)%Z →
              select self ignore_inactive check_id now ad_cfg = Ok Selected)
           ∧ (interval = 7%Z → last_updated = (now - 7 * MICROS_PER_DAY)%Z →
              select self ignore_inactive check_id now ad_cfg = Ok SkippedNotDue)).
Proof.
  intros Hsel Hu Hc.
  assert (Hselect : ∀ ignore_inactive check_id b,
            skip_inactive ignore_inactive ad_cfg = Ok false →
            skip_not_due self now ad_cfg = Ok b →
            select self ignore_inactive check_id now ad_cfg
            = Ok (if b then SkippedNotDue else Selected)).
  { intros ignore_inactive check_id b Hact Hb. unfold select. rewrite Hact. simpl.
    rewrite (skip_not_new_due _ _ _ Hsel). simpl. rewrite Hb. simpl.
    by destruct b. }
  split.
  - intros Htu Htc.
    pose proof (skip_not_due_never_published self now ad_cfg updated_on created_on
                  Hu Hc Htu Htc) as Hdue.
    split; [done|]. intros ignore_inactive check_id Hact.
    by apply (Hselect ignore_inactive check_id false).
  - intros last_updated interval Hset Hparse Hi.
    pose proof (skip_not_due_published self now ad_cfg updated_on created_on
                  last_updated interval Hsel Hu Hc Hset Hparse Hi) as Hdue.
    split; [exact Hdue|]. split.
    { rewrite Hdue. destruct (Z.leb_spec (age_days now last_updated) interval).
      - split; [discriminate|lia].
      - split; [lia|done]. }
    intros ignore_inactive check_id Hact.
    assert (Heq : select self ignore_inactive check_id now ad_cfg
                  = Ok (if (interval <? age_days now last_updated)%Z
                        then Selected else SkippedNotDue)).
    { rewrite (Hselect _ _ _ Hact Hdue). rewrite Z.leb_antisym.
      by destruct (interval <? _)%Z. }
    split; [exact Heq|]. split; [|split].
    + rewrite Heq. destruct (Z.ltb_spec interval (age_days now last_updated)).
      * split; [lia|done].
      * split; [discriminate|lia].
    + intros -> ->. rewrite Heq, age_days_whole. done.
    + intros -> ->. rewrite Heq, age_days_whole. done.
Qed.

(** ** Validation *)

(** [len(s)] is the number of items that iterating over [s] yields. *)
Lemma characters_length (s : string) : length (characters s) = str_len s.
Proof.
  unfold characters. induction s as [|c s IH]; simpl; [done|].
  destruct (continuation_byte c); simpl; by rewrite ?IH.
Qed.

Lemma run_rules_ok rules (ad_cfg : dict) :
  run_rules rules ad_cfg = Ok tt ↔ Forall (λ rule, rule ad_cfg = Ok tt) rules.
Proof.
  induction rules as [|rule rest IH]; simpl.
  - split; [constructor|done].
  - rewrite Forall_cons, <- IH.
    destruct (rule ad_cfg) as [[]|e]; simpl.
    + split; [by intros ?|by intros [_ ?]].
    + split; [discriminate|intros [? _]; discriminate].
Qed.

Lemma run_rules_first_broken rules (ad_cfg : dict) (i : nat) rule e :
  rules !! i = Some rule →
  rule ad_cfg = Raise e →
  (∀ (j : nat) rule', (j < i)%nat → rules !! j = Some rule' → rule' ad_cfg = Ok tt) →
  run_rules rules ad_cfg = Raise e.
Proof.
  revert i. induction rules as [|r rest IH]; intros i Hi He Hbefore; [done|].
  destruct i as [|i]; simpl in *.
  - injection Hi as ->. by rewrite He.
  - rewrite (Hbefore 0%nat r) by (lia || done). simpl.
    apply (IH i); [done..|].
    intros j rule' Hj Hr. apply (Hbefore (S j)); [lia|done].
Qed.

Lemma run_rules_cases rules (ad_cfg : dict) :
  run_rules rules ad_cfg = Ok tt
  ∨ ∃ (i : nat) rule e,
      rules !! i = Some rule ∧ rule ad_cfg = Raise e
      ∧ (∀ (j : nat) rule', (j < i)%nat → rules !! j = Some rule' → rule' ad_cfg = Ok tt)
      ∧ run_rules rules ad_cfg = Raise e.
Proof.
  induction rules as [|r rest IH]; simpl; [by left|].
  destruct (r ad_cfg) as [[]|e] eqn:Hr; simpl.
  - destruct IH as [IH|(i & rule & e & Hi & He & Hbefore & Hrun)]; [by left|].
    right. exists (S i), rule, e. repeat split; [done..| |done].
    intros [|j] rule' Hj Hl; simpl in Hl; [by injection Hl as <-|].
    apply (Hbefore j); [lia|done].
  - right. exists 0%nat, r, e. repeat split; [done..|]. intros; lia.
Qed.

Lemma validate_run_rules (ad_cfg : dict) :
  validate ad_cfg = run_rules validation_rules ad_cfg.
Proof.
  unfold validate, validation_rules, run_rules.
  repeat match goal with
         | |- context [mbind _ ?c] =>
             lazymatch c with
             | mbind _ _ => fail
             | _ => destruct c as [[]|]; simpl; try reflexivity
             end
         end.
Qed.

(** C2, as the code has it: validation raises what the first broken check
    raises, and the checks are made in this order: the composed description
    has at most 4000 characters; [type]; [title] has at least 10 characters;
    the composed description is not empty; [price_type]; the price rule;
    [shipping_type]; [contact.name]; [republication_interval].  Validation
    succeeds exactly when every check does.  So an ad with a wrong type and a
    description that is too long reports the description, and an ad with a
    wrong type and no description reports the type. *)
Theorem validate_first_broken_check (ad_cfg : dict) :
  (validate ad_cfg = Ok tt ↔ Forall (λ rule, rule ad_cfg = Ok tt) validation_rules)
  ∧ (∀ (i : nat) rule e,
       validation_rules !! i = Some rule →
       rule ad_cfg = Raise e →
       (∀ (j : nat) rule', (j < i)%nat → validation_rules !! j = Some rule' →
                           rule' ad_cfg = Ok tt) →
       validate ad_cfg = Raise e)
  ∧ (validate ad_cfg = Ok tt
     ∨ ∃ (i : nat) rule e,
         validation_rules !! i = Some rule ∧ rule ad_cfg = Raise e
         ∧ (∀ (j : nat) rule', (j < i)%nat → validation_rules !! j = Some rule' →
                               rule' ad_cfg = Ok tt)
         ∧ validate ad_cfg = Raise e)
  ∧ validate Sample.ad_bad_type_long_description
    = Raise (ValidationError DescriptionTooLong)
  ∧ validate Sample.ad_bad_type_no_description
    = Raise (ValidationError (NotOneOf "type")).
Proof.
  rewrite validate_run_rules. split; [apply run_rules_ok|].
  split; [apply run_rules_first_broken|].
  split; [apply run_rules_cases|].
  split; vm_compute; reflexivity.
Qed.

Lemma validation_rules_split (ad_cfg : dict) :
  Forall (λ rule, rule ad_cfg = Ok tt) validation_rules
  ↔ check_price ad_cfg = Ok tt ∧ Forall (λ rule, rule ad_cfg = Ok tt) other_rules.
Proof.
  unfold other_rules, validation_rules. simpl. rewrite !Forall_cons.
  split.
  - intros (H0 & H1 & H2 & H3 & H4 & H5 & H6 & H7 & H8 & H9). by repeat split.
  - intros (H5 & H0 & H1 & H2 & H3 & H4 & H6 & H7 & H8 & H9). by repeat split.
Qed.

Lemma validate_fails_iff (ad_cfg : dict) :
  is_ok (validate ad_cfg) = false
  ↔ ¬ Forall (λ rule, rule ad_cfg = Ok tt) validation_rules.
Proof.
  rewrite validate_run_rules, <- run_rules_ok.
  destruct (run_rules validation_rules ad_cfg) as [[]|e]; simpl.
  - split; [discriminate|]. intros H. by destruct H.
  - split; [|done]. intros _. discriminate.
Qed.

Lemma check_price_give_away (ad_cfg : dict) :
  ad_cfg !! "price_type" = Some (VStr "GIVE_AWAY") →
  check_price ad_cfg
  = ensure (negb (truthy (safe_get (VDict ad_cfg) ["price"]))) PriceForGiveAway.
Proof. intros H. unfold check_price, getitem. by rewrite H. Qed.

Lemma check_price_fixed (ad_cfg : dict) :
  ad_cfg !! "price_type" = Some (VStr "FIXED") →
  check_price ad_cfg
  = ensure (truthy (safe_get (VDict ad_cfg) ["price"])) (NotSpecified "price").
Proof. intros H. unfold check_price, getitem. by rewrite H. Qed.

(** C7: the price rule of a validator that reports the first broken check.
    For an ad to give away, the price rule is broken exactly when [price] is
    not empty; validation then fails; and for an ad that passes the other
    checks, validation fails exactly when [price] is not empty.  For an ad
    at a fixed price, validation fails when [price] is absent or empty. *)
Theorem price_rule (ad_cfg : dict) (price_type : string) :
  ad_cfg !! "price_type" = Some (VStr price_type) →
  (price_type = "GIVE_AWAY" →
     (check_price ad_cfg = Raise (ValidationError PriceForGiveAway)
      ↔ truthy (safe_get (VDict ad_cfg) ["price"]) = true)
     ∧ (check_price ad_cfg = Ok tt
        ↔ truthy (safe_get (VDict ad_cfg) ["price"]) = false)
     ∧ (truthy (safe_get (VDict ad_cfg) ["price"]) = true →
        is_ok (validate ad_cfg) = false)
     ∧ (Forall (λ rule, rule ad_cfg = Ok tt) other_rules →
        (is_ok (validate ad_cfg) = false
         ↔ truthy (safe_get (VDict ad_cfg) ["price"]) = true)))
  ∧ (price_type = "FIXED" →
     truthy (safe_get (VDict ad_cfg) ["price"]) = false →
     check_price ad_cfg = Raise (ValidationError (NotSpecified "price"))
     ∧ is_ok (validate ad_cfg) = false).
Proof.
  intros Hpt. split.
  - intros ->. rewrite validate_fails_iff, validation_rules_split.
    rewrite (check_price_give_away _ Hpt).
    destruct (truthy (safe_get (VDict ad_cfg) ["price"])); simpl.
    + split; [done|]. split; [done|]. split; [|intros _; split; [done|]].
      * intros _ [? _]; discriminate.
      * intros _ [? _]; discriminate.
    + split; [done|]. split; [done|]. split; [done|].
      intros Hother. split; [|done]. intros H. by destruct H.
  - intros -> Hprice. rewrite validate_fails_iff, validation_rules_split.
    rewrite (check_price_fixed _ Hpt), Hprice. simpl.
    split; [done|]. intros [? _]; discriminate.
Qed.

(** ** The category resolver *)

Lemma load_categories_lookup (cfg : Config) (key : string) :
  load_categories cfg !! key
  = match config_categories cfg !! key with
    | Some code => Some code
    | None => bundled_categories !! key
    end.
Proof.
  unfold load_categories. simpl. case_bool_decide as Hempty; simpl.
  - by rewrite Hempty, lookup_empty.
  - rewrite lookup_union. by destruct (config_categories cfg !! key), (bundled_categories !! key).
Qed.

(** C8: the resolver on a name or code, that is a hashable value.  The table
    is the bundled one overlaid with the entries of the configuration, which
    win on a common key.  A key of the table resolves to its code; anything
    else is returned as it is; nothing is raised. *)
Theorem category_resolution (self : KleinanzeigenBot) (cfg : Config) (name_or_code : value) :
  categories self = load_categories cfg →
  hashable name_or_code = true →
  (∀ key code, name_or_code = VStr key → load_categories cfg !! key = Some code →
     resolve_category self name_or_code = Ok code)
  ∧ ((∀ key, name_or_code = VStr key → load_categories cfg !! key = None) →
     resolve_category self name_or_code = Ok name_or_code)
  ∧ is_ok (resolve_category self name_or_code) = true
  ∧ (∀ key, load_categories cfg !! key
            = match config_categories cfg !! key with
              | Some code => Some code
              | None => bundled_categories !! key
              end).
Proof.
  intros Hcat Hhash. unfold resolve_category, dict_get. rewrite Hcat.
  repeat split.
  - intros key code -> Hkey. by rewrite Hkey.
  - intros Hnone. destruct name_or_code; try done.
    by rewrite (Hnone s eq_refl).
  - by destruct name_or_code.
  - apply load_categories_lookup.
Qed.

(** ** File discovery *)

Lemma elem_of_add_ad_files (data_root_dir : string) (files : list string)
    (acc : gset string) (f : string) :
  f ∈ fold_left (add_ad_file data_root_dir) files acc
  ↔ f ∈ acc
    ∨ ∃ ad_file, ad_file ∈ files ∧ endswith ad_file "ad_fields.yaml" = false
                 ∧ f = abspath ad_file data_root_dir.
Proof.
  revert acc. induction files as [|g files IH]; intros acc; simpl.
  - split; [by left|]. intros [?|(? & Hin & _)]; [done|]. by apply elem_of_nil in Hin.
  - rewrite IH. unfold add_ad_file.
    destruct (endswith g "ad_fields.yaml") eqn:Hg; simpl.
    + split.
      * intros [?|(a & Ha & ? & ?)]; [by left|]. right. exists a. by rewrite elem_of_cons; auto.
      * intros [?|(a & Ha & Hs & ?)]; [by left|]. right. exists a.
        apply elem_of_cons in Ha as [->|Ha]; [congruence|done].
    + rewrite elem_of_union, elem_of_singleton. split.
      * intros [[?| ->]|(a & Ha & ? & ?)]; [by left| |].
        -- right. exists g. by rewrite elem_of_cons; auto.
        -- right. exists a. by rewrite elem_of_cons; auto.
      * intros [?|(a & Ha & Hs & ->)]; [by left; left|].
        apply elem_of_cons in Ha as [->|Ha]; [by left; right|].
        right. by exists a.
Qed.

Lemma elem_of_discover_ad_files (self : KleinanzeigenBot) (f : string) :
  f ∈ discover_ad_files self
  ↔ ∃ file_pattern ad_file,
      file_pattern ∈ ad_files (config self)
      ∧ ad_file ∈ glob file_pattern (dirname (config_file_path self))
      ∧ endswith ad_file "ad_fields.yaml" = false
      ∧ f = abspath ad_file (dirname (config_file_path self)).
Proof.
  unfold discover_ad_files.
  generalize (dirname (config_file_path self)) as root. intros root.
  assert (H : ∀ patterns (acc : gset string),
    f ∈ fold_left (λ ad_files file_pattern,
           fold_left (add_ad_file root) (glob file_pattern root) ad_files) patterns acc
    ↔ f ∈ acc ∨ ∃ file_pattern ad_file,
        file_pattern ∈ patterns ∧ ad_file ∈ glob file_pattern root
        ∧ endswith ad_file "ad_fields.yaml" = false ∧ f = abspath ad_file root).
  { induction patterns as [|pat patterns IH]; intros acc; simpl.
    - split; [by left|]. intros [?|(? & ? & Hin & _)]; [done|]. by apply elem_of_nil in Hin.
    - rewrite IH, elem_of_add_ad_files. split.
      + intros [[?|(a & ? & ? & ?)]|(q & a & ? & ? & ? & ?)]; [by left| |].
        * right. exists pat, a. by rewrite elem_of_cons; auto.
        * right. exists q, a. by rewrite elem_of_cons; auto.
      + intros [?|(q & a & Hq & ? & ? & ?)]; [by left; left|].
        apply elem_of_cons in Hq as [->|Hq].
        * left; right. by exists a.
        * right. by exists q, a. }
  rewrite H. split; [|by right]. intros [Hin|?]; [|done]. by apply not_elem_of_empty in Hin.
Qed.

(** C10: the discovered files are the absolute paths of the matches of the
    configured patterns that do not end in [ad_fields.yaml]; a match with that
    suffix adds nothing.  Where making the path of such a match absolute does
    not give it that suffix, no discovered file ends in [ad_fields.yaml]. *)
Theorem discovery_excludes_ad_fields (self : KleinanzeigenBot) :
  Forall (λ file_pattern,
            Forall (λ ad_file,
                      endswith ad_file "ad_fields.yaml" = false →
                      endswith (abspath ad_file (dirname (config_file_path self)))
                        "ad_fields.yaml" = false)
                   (glob file_pattern (dirname (config_file_path self))))
         (ad_files (config self)) →
  (∀ f, f ∈ discover_ad_files self → endswith f "ad_fields.yaml" = false)
  ∧ (∀ f, f ∈ discover_ad_files self
          ↔ ∃ file_pattern ad_file,
              file_pattern ∈ ad_files (config self)
              ∧ ad_file ∈ glob file_pattern (dirname (config_file_path self))
              ∧ endswith ad_file "ad_fields.yaml" = false
              ∧ f = abspath ad_file (dirname (config_file_path self))).
Proof.
  intros Habs. split; [|apply elem_of_discover_ad_files].
  intros f (pat & a & Hpat & Ha & Hs & ->)%elem_of_discover_ad_files.
  rewrite Forall_forall in Habs. specialize (Habs pat Hpat).
  rewrite Forall_forall in Habs. by apply Habs.
Qed.

(** ** The identifier of a loaded definition *)

Lemma bind_ok {A B} (m : result A) (f : A → result B) (b : B) :
  m ≫= f = Ok b → ∃ a, m = Ok a ∧ f a = Ok b.
Proof. destruct m as [a|e]; simpl; [eauto|discriminate]. Qed.

Tactic Notation "inv_bind" hyp(H) :=
  let a := fresh "a" in
  let Ha := fresh "H" a in
  apply bind_ok in H as (a & Ha & H).

Tactic Notation "inv_bind" hyp(H) "as" ident(a) ident(Ha) :=
  apply bind_ok in H as (a & Ha & H).

Lemma getitem_ok (d : dict) (key : string) (v : value) :
  getitem d key = Ok v → d !! key = Some v.
Proof. unfold getitem. destruct (d !! key); [congruence|discriminate]. Qed.

Lemma compose_description_lookup_ne descr_prefix descr_suffix (ad_cfg ad_cfg' : dict) key :
  compose_description descr_prefix descr_suffix ad_cfg = Ok ad_cfg' →
  key ≠ "description" → ad_cfg' !! key = ad_cfg !! key.
Proof.
  unfold compose_description. intros H Hne.
  inv_bind H. inv_bind H. inv_bind H. injection H as <-. by rewrite lookup_insert_ne.
Qed.

Lemma set_category_lookup_ne (self : KleinanzeigenBot) (ad_cfg ad_cfg' : dict) key :
  set_category self ad_cfg = Ok ad_cfg' →
  key ≠ "category" → ad_cfg' !! key = ad_cfg !! key.
Proof.
  unfold set_category. intros H Hne. inv_bind H.
  destruct (truthy a); [|by injection H as <-].
  inv_bind H. injection H as <-. by rewrite lookup_insert_ne.
Qed.

Lemma set_shipping_costs_lookup_ne (ad_cfg ad_cfg' : dict) key :
  set_shipping_costs ad_cfg = Ok ad_cfg' →
  key ≠ "shipping_costs" → ad_cfg' !! key = ad_cfg !! key.
Proof.
  unfold set_shipping_costs. intros H Hne. inv_bind H.
  destruct (truthy a); [|by injection H as <-].
  inv_bind H. injection H as <-. by rewrite lookup_insert_ne.
Qed.

Lemma set_images_lookup_ne ad_file (ad_cfg ad_cfg' : dict) key :
  set_images ad_file ad_cfg = Ok ad_cfg' →
  key ≠ "images" → ad_cfg' !! key = ad_cfg !! key.
Proof.
  unfold set_images. intros H Hne. inv_bind H.
  destruct (truthy a); [|by injection H as <-].
  inv_bind H. inv_bind H. injection H as <-. by rewrite lookup_insert_ne.
Qed.

Lemma normalize_id_ok (ad_cfg ad_cfg' : dict) :
  normalize_id ad_cfg = Ok ad_cfg' →
  ∃ merged_id id,
    ad_cfg !! "id" = Some merged_id ∧ ad_cfg' !! "id" = Some id
    ∧ if truthy merged_id
      then ∃ n, py_int int_of_str merged_id = Ok n ∧ id = VInt n
      else id = merged_id.
Proof.
  unfold normalize_id. intros H. inv_bind H. apply getitem_ok in Ha.
  destruct (truthy a) eqn:Ht.
  - inv_bind H. injection H as <-. exists a, (VInt a0).
    rewrite lookup_insert_eq, Ht. eauto.
  - injection H as <-. exists a, a. by rewrite Ht.
Qed.

Lemma load_ad_id (self : KleinanzeigenBot) ignore_inactive check_id now
    descr_prefix descr_suffix ad_file (raw : dict) (entry : ad_entry) :
  load_ad self ignore_inactive check_id now descr_prefix descr_suffix ad_file raw
    = Ok (Some entry) →
  entry.1.1 = ad_file ∧ entry.2 = raw ∧ id_normalized self raw entry.1.2.
Proof.
  unfold load_ad. intros H. inv_bind H.
  destruct a; try discriminate.
  inv_bind H as composed Hcomposed. inv_bind H as u Hvalid.
  inv_bind H as with_id Hwith_id. inv_bind H as with_category Hcategory.
  inv_bind H as with_costs Hcosts. inv_bind H as with_images Himages.
  injection H as <-. simpl.
  split; [done|]. split; [done|].
  apply normalize_id_ok in Hwith_id as (merged_id & id & Hm & Hid & Hrel).
  exists merged_id, id. split; [|split; [|done]].
  - rewrite <- Hm. symmetry. by eapply compose_description_lookup_ne.
  - rewrite (set_images_lookup_ne _ _ _ _ Himages) by done.
    rewrite (set_shipping_costs_lookup_ne _ _ _ Hcosts) by done.
    by rewrite (set_category_lookup_ne _ _ _ _ Hcategory).
Qed.

Lemma load_each_invariant (P : ad_entry → Prop) (self : KleinanzeigenBot)
    (store : file_store)
    ignore_inactive check_id descr_prefix descr_suffix files n ads entries :
  (∀ now ad_file raw entry,
     load_dict store ad_file = Ok raw →
     load_ad self ignore_inactive check_id now descr_prefix descr_suffix ad_file raw
       = Ok (Some entry) →
     P entry) →
  Forall P ads →
  load_each self store ignore_inactive check_id descr_prefix descr_suffix files n ads
    = Ok entries →
  Forall P entries.
Proof.
  intros Hstep. revert n ads. induction files as [|ad_file rest IH]; intros n ads Hads H.
  - simpl in H. by injection H as <-.
  - simpl in H. inv_bind H. inv_bind H. apply IH in H; [done|].
    destruct a0 as [entry|]; [|done].
    apply Forall_app. split; [done|]. constructor; [|constructor].
    by eapply Hstep.
Qed.

Lemma merged_id_of_raw (ad_defaults0 ad_fields0 raw : dict) (v : value) :
  raw !! "id" = Some v → truthy v = true →
  merge_defaults ad_defaults0 ad_fields0 raw !! "id" = Some v.
Proof.
  intros Hraw Hv. rewrite merge_defaults_lookup, Hraw.
  assert (eq_str v "" = false) as Hne.
  { destruct v; try done. simpl in *. by destruct (String.eqb s ""). }
  unfold merged_field, never, ignore_description, override_empty. simpl.
  destruct (ad_defaults0 !! "id"); simpl; rewrite ?Hne; by destruct (ad_fields0 !! "id").
Qed.

(** C9: in every entry that [load_ads] returns, the [id] of the resolved
    definition is falsy or an integer: it is the [id] of the merged
    definition when that is falsy, and its [int] when not.  The raw
    definition of the entry is the one loaded from the entry's file; an [id]
    in it that is not empty is replaced by its [int] in the resolved
    definition, and so a string by the integer it denotes. *)
Theorem loaded_id_is_integer (self : KleinanzeigenBot) (store : file_store)
    ignore_inactive check_id (entries : list ad_entry) :
  load_ads self store ignore_inactive check_id = Ok entries →
  ∀ ad_file ad_cfg ad_cfg_orig,
    (ad_file, ad_cfg, ad_cfg_orig) ∈ entries →
    (∃ id, ad_cfg !! "id" = Some id ∧ (truthy id = false ∨ ∃ n, id = VInt n))
    ∧ id_normalized self ad_cfg_orig ad_cfg
    ∧ load_dict store ad_file = Ok ad_cfg_orig
    ∧ (∀ v, ad_cfg_orig !! "id" = Some v → truthy v = true →
            ∃ n, py_int int_of_str v = Ok n ∧ ad_cfg !! "id" = Some (VInt n))
    ∧ (∀ s, ad_cfg_orig !! "id" = Some (VStr s) → s ≠ "" →
            ∃ n, int_of_str s = Some n ∧ ad_cfg !! "id" = Some (VInt n)).
Proof.
  unfold load_ads. intros H ad_file ad_cfg ad_cfg_orig Hin.
  case_bool_decide; [injection H as <-; by apply elem_of_nil in Hin|].
  inv_bind H. inv_bind H.
  apply (load_each_invariant
           (λ entry, load_dict store entry.1.1 = Ok entry.2
                     ∧ id_normalized self entry.2 entry.1.2)) in H.
  - rewrite Forall_forall in H. destruct (H _ Hin) as [Hload Hid]. simpl in *.
    assert (Hraw : ∀ v, ad_cfg_orig !! "id" = Some v → truthy v = true →
              ∃ n, py_int int_of_str v = Ok n ∧ ad_cfg !! "id" = Some (VInt n)).
    { intros v Hv Ht. destruct Hid as (merged_id & id & Hm & Hid & Hrel).
      rewrite (merged_id_of_raw _ _ _ _ Hv Ht) in Hm. injection Hm as <-.
      rewrite Ht in Hrel. destruct Hrel as (n & Hn & ->). by exists n. }
    split; [|split; [done|split; [done|split; [done|]]]].
    + destruct Hid as (merged_id & id & _ & Hid & Hrel). exists id. split; [done|].
      destruct (truthy merged_id) eqn:Ht.
      * destruct Hrel as (n & _ & ->). eauto.
      * subst. by left.
    + intros s Hs Hne. destruct (Hraw (VStr s) Hs) as (n & Hn & Hid').
      { simpl. apply String.eqb_neq in Hne. by rewrite Hne. }
      exists n. split; [|done]. simpl in Hn.
      destruct (int_of_str s); [by injection Hn as ->|discriminate].
  - intros now f raw entry Hload Hentry.
    apply load_ad_id in Hentry as (-> & -> & Hid). done.
  - constructor.
Qed.

(** ** Deleting and publishing *)

Lemma delete_ad_ok (self : KleinanzeigenBot) (ad_cfg ad_cfg' : dict) (b : bool) :
  delete_ad self ad_cfg = Ok (ad_cfg', b) →
  ad_cfg' = <["id" := VNone]> ad_cfg ∧ b = true.
Proof.
  unfold delete_ad. intros H. inv_bind H. inv_bind H. by injection H as <- <-.
Qed.

Lemma delete_ad_returns (self : KleinanzeigenBot) (ad_cfg : dict) :
  is_Some (ad_cfg !! "title") →
  web_delete (delete_ads_by_title self) ad_cfg = Ok tt →
  delete_ad self ad_cfg = Ok (<["id" := VNone]> ad_cfg, true).
Proof.
  intros [t Ht] Hweb. unfold delete_ad, getitem. rewrite Ht. simpl. by rewrite Hweb.
Qed.

(** C4, as the code has it: a successful run of [delete_ads] clears the [id]
    of the resolved definition of every entry, and leaves the file name and
    the raw definition of every entry as they were.  The run succeeds when
    every definition has a title and the browser requests succeed.  The
    command [delete] leaves the file store as it was. *)
Theorem delete_clears_resolved_id (self : KleinanzeigenBot) (ad_cfgs : list ad_entry) :
  (∀ ad_cfgs', delete_ads self ad_cfgs = Ok ad_cfgs' →
     ad_cfgs' = deleted_entry <$> ad_cfgs
     ∧ ∀ (i : nat) ad_file ad_cfg ad_cfg_orig,
         ad_cfgs' !! i = Some (ad_file, ad_cfg, ad_cfg_orig) →
         ad_cfg !! "id" = Some VNone
         ∧ ∃ before, ad_cfgs !! i = Some (ad_file, before, ad_cfg_orig))
  ∧ (Forall (λ entry : ad_entry,
               is_Some (entry.1.2 !! "title")
               ∧ web_delete (delete_ads_by_title self) entry.1.2 = Ok tt) ad_cfgs →
     delete_ads self ad_cfgs = Ok (deleted_entry <$> ad_cfgs))
  ∧ (∀ (store store' : file_store) ad_cfgs',
       run_delete self store = Ok (ad_cfgs', store') → store' = store).
Proof.
  assert (Heq : ∀ ad_cfgs', delete_ads self ad_cfgs = Ok ad_cfgs' →
                            ad_cfgs' = deleted_entry <$> ad_cfgs).
  { induction ad_cfgs as [|[[ad_file ad_cfg] ad_cfg_orig] rest IH]; intros res H; simpl in H.
    - by injection H as <-.
    - inv_bind H as t Ht. inv_bind H as r Hr. inv_bind H as rest' Hrest.
      injection H as <-. destruct r as [ad_cfg' b].
      apply delete_ad_ok in Hr as [-> _]. by rewrite (IH _ Hrest). }
  split; [|split].
  - intros res H. apply Heq in H as ->. split; [done|].
    intros i ad_file ad_cfg ad_cfg_orig Hi.
    rewrite list_lookup_fmap in Hi.
    destruct (ad_cfgs !! i) as [[[f c] o]|]; [|done].
    injection Hi as <- <- <-. split; [by rewrite lookup_insert_eq|by exists c].
  - clear Heq.
    induction 1 as [|[[ad_file ad_cfg] ad_cfg_orig] rest [[t Ht] Hweb] _ IH]; [done|].
    simpl in *. unfold getitem at 1. rewrite Ht. simpl.
    rewrite (delete_ad_returns self ad_cfg (ex_intro _ t Ht) Hweb). simpl.
    by rewrite IH.
  - intros store store' res H. unfold run_delete in H. inv_bind H as ads Hads.
    destruct ads; [by injection H as _ <-|].
    inv_bind H as u Hu. inv_bind H as ads' Hads'. by injection H as _ <-.
Qed.

(** A successful [publish_ad]: what it leaves of the two definitions and of
    the file store. *)
Lemma publish_ad_ok (self : KleinanzeigenBot) now (store store' : file_store)
    ad_file (ad_cfg ad_cfg_orig ad_cfg' ad_cfg_orig' : dict) :
  publish_ad self now store ad_file ad_cfg ad_cfg_orig
    = Ok (ad_cfg', ad_cfg_orig', store') →
  ∃ ad_id created_on (first_publication : bool),
    ad_cfg' = (if delete_old_ads self then <["id" := VNone]> ad_cfg else ad_cfg)
    ∧ ad_cfg' !! "created_on" = Some created_on
    ∧ (first_publication = true
       ↔ truthy created_on = false
         ∧ ∃ id, ad_cfg' !! "id" = Some id ∧ truthy id = false)
    ∧ ad_cfg_orig'
      = <["id" := VInt ad_id]>
          (if first_publication
           then <["created_on" := VStr (isoformat now)]>
                  (<["updated_on" := VStr (isoformat now)]> ad_cfg_orig)
           else <["updated_on" := VStr (isoformat now)]> ad_cfg_orig)
    ∧ web_ad_id ad_file ad_cfg' = Ok ad_id
    ∧ store' = <[ad_file := ad_cfg_orig']> store.
Proof.
  unfold publish_ad, save_dict. intros H.
  inv_bind H as u Hlimit. inv_bind H as cfg Hcfg. inv_bind H as t Ht.
  inv_bind H as u' Hsubmit. inv_bind H as created_on Hcreated.
  inv_bind H as first Hfirst. inv_bind H as updated_on Hupdated.
  inv_bind H as ad_id Hid. injection H as <- <- <-.
  apply getitem_ok in Hcreated, Hupdated.
  rewrite lookup_insert_eq in Hupdated. injection Hupdated as <-.
  exists ad_id, created_on, first.
  split.
  { destruct (delete_old_ads self).
    - inv_bind Hcfg as r Hr. destruct r as [c b]. apply delete_ad_ok in Hr as [-> _].
      by injection Hcfg as <-.
    - by injection Hcfg as <-. }
  split; [done|]. split; [|done].
  destruct (truthy created_on); simpl in Hfirst.
  - injection Hfirst as <-. split; [discriminate|]. intros [? _]; discriminate.
  - inv_bind Hfirst as id Hi. apply getitem_ok in Hi. injection Hfirst as <-.
    split.
    + intros Hf. split; [done|]. exists id. split; [done|]. by destruct (truthy id).
    + intros [_ (id' & Hi' & Ht')]. rewrite Hi in Hi'. injection Hi' as <-.
      by rewrite Ht'.
Qed.

(** A successful [publish_ad] changes the raw definition under the keys
    [id], [created_on] and [updated_on] only, and saves exactly the raw
    definition. *)
Lemma publish_ad_frame (self : KleinanzeigenBot) now (store store' : file_store)
    ad_file (ad_cfg ad_cfg_orig ad_cfg' ad_cfg_orig' : dict) :
  publish_ad self now store ad_file ad_cfg ad_cfg_orig
    = Ok (ad_cfg', ad_cfg_orig', store') →
  ad_cfg_orig' !! "updated_on" = Some (VStr (isoformat now))
  ∧ (∃ ad_id, ad_cfg_orig' !! "id" = Some (VInt ad_id))
  ∧ (∀ key, key ≠ "id" → key ≠ "created_on" → key ≠ "updated_on" →
            ad_cfg_orig' !! key = ad_cfg_orig !! key)
  ∧ store' !! ad_file = Some ad_cfg_orig'.
Proof.
  intros H. apply publish_ad_ok in H
    as (ad_id & created_on & first & _ & _ & _ & -> & _ & ->).
  repeat split.
  - rewrite lookup_insert_ne by done. destruct first.
    + rewrite lookup_insert_ne by done. by rewrite lookup_insert_eq.
    + by rewrite lookup_insert_eq.
  - exists ad_id. by rewrite lookup_insert_eq.
  - intros key H1 H2 H3. rewrite lookup_insert_ne by done.
    destruct first; by rewrite ?lookup_insert_ne.
  - by rewrite lookup_insert_eq.
Qed.

(** When old ads are kept ([--keep-old]) the first-publication test reads the
    [id] the resolved definition came with. *)
Lemma publish_ad_keep_old (self : KleinanzeigenBot) now (store store' : file_store)
    ad_file (ad_cfg ad_cfg_orig ad_cfg' ad_cfg_orig' : dict) id created_on :
  delete_old_ads self = false →
  ad_cfg !! "id" = Some id →
  ad_cfg !! "created_on" = Some created_on →
  publish_ad self now store ad_file ad_cfg ad_cfg_orig
    = Ok (ad_cfg', ad_cfg_orig', store') →
  truthy created_on || truthy id = true →
  ad_cfg_orig' !! "created_on" = ad_cfg_orig !! "created_on".
Proof.
  intros Hkeep Hid Hc H Hset. apply publish_ad_ok in H
    as (ad_id & created_on' & first & -> & Hc' & Hfirst & -> & _ & _).
  rewrite Hkeep in *. rewrite Hc in Hc'. injection Hc' as <-.
  destruct first.
  - destruct Hfirst as [Hf _]. destruct (Hf eq_refl) as [Hc0 (id' & Hid' & Ht)].
    rewrite Hid in Hid'. injection Hid' as <-. rewrite Hc0, Ht in Hset. discriminate.
  - by rewrite !lookup_insert_ne.
Qed.

(** When the old ad is deleted first (the default) the [id] of the resolved
    definition is cleared before the first-publication test reads it: the raw
    definition gets a [created_on] whenever the resolved one has none,
    whatever [id] the ad came with. *)
Lemma publish_ad_delete_old (self : KleinanzeigenBot) now (store store' : file_store)
    ad_file (ad_cfg ad_cfg_orig ad_cfg' ad_cfg_orig' : dict) created_on :
  delete_old_ads self = true →
  ad_cfg !! "created_on" = Some created_on →
  truthy created_on = false →
  publish_ad self now store ad_file ad_cfg ad_cfg_orig
    = Ok (ad_cfg', ad_cfg_orig', store') →
  ad_cfg_orig' !! "created_on" = Some (VStr (isoformat now)).
Proof.
  intros Hdel Hc Ht H. apply publish_ad_ok in H
    as (ad_id & created_on' & first & -> & Hc' & Hfirst & -> & _ & _).
  rewrite Hdel in *. rewrite lookup_insert_ne, Hc in Hc' by done.
  injection Hc' as <-.
  assert (first = true) as ->.
  { apply Hfirst. split; [done|]. exists VNone. by rewrite lookup_insert_eq. }
  rewrite lookup_insert_ne by done. by rewrite lookup_insert_eq.
Qed.

(** ** Images *)

(** *** The order of strings *)

Lemma ascii_compare_lt_trans (x y z : ascii) :
  Ascii.compare x y = Lt → Ascii.compare y z = Lt → Ascii.compare x z = Lt.
Proof. unfold Ascii.compare. rewrite !N.compare_lt_iff. lia. Qed.

Lemma string_compare_trans (a b c : string) :
  String.compare a b ≠ Gt → String.compare b c ≠ Gt → String.compare a c ≠ Gt.
Proof.
  revert b c. induction a as [|x a IH]; intros [|y b] [|z c]; simpl; try done.
  destruct (Ascii.compare x y) eqn:Hxy; [| |done].
  - apply Ascii.compare_eq_iff in Hxy as ->.
    destruct (Ascii.compare y z); [apply IH|done..].
  - destruct (Ascii.compare y z) eqn:Hyz; [| |done].
    + apply Ascii.compare_eq_iff in Hyz as ->. by rewrite Hxy.
    + by rewrite (ascii_compare_lt_trans x y z).
Qed.

Lemma str_le_compare s t : str_le s t ↔ String.compare s t ≠ Gt.
Proof. unfold str_le, String.leb. by destruct (String.compare s t). Qed.

Lemma str_lt_compare s t : str_lt s t ↔ String.compare s t = Lt.
Proof. unfold str_lt, String.ltb. by destruct (String.compare s t). Qed.

#[local] Instance str_le_trans : Transitive str_le.
Proof. intros a b c. rewrite !str_le_compare. apply string_compare_trans. Qed.
#[local] Instance str_le_total : Total str_le.
Proof. intros a b. apply String.leb_total. Qed.
#[local] Instance str_le_antisym : AntiSymm (=) str_le.
Proof. intros a b. apply String.leb_antisym. Qed.

Lemma str_le_lt s t : str_le s t → s ≠ t → str_lt s t.
Proof.
  rewrite str_le_compare, str_lt_compare. intros Hle Hne.
  destruct (String.compare s t) eqn:Hc; [|done..].
  by apply String.compare_eq_iff in Hc.
Qed.

Lemma str_lt_irrefl s : ¬ str_lt s s.
Proof.
  rewrite str_lt_compare. intros H.
  pose proof (String.compare_antisym s s) as Ha. rewrite H in Ha. done.
Qed.

(** *** Sorting and first occurrences *)

Lemma elem_of_sorted (s : gset string) x : x ∈ sorted s ↔ x ∈ s.
Proof. unfold sorted. by rewrite merge_sort_Permutation, elem_of_elements. Qed.

Lemma NoDup_sorted (s : gset string) : NoDup (sorted s).
Proof. unfold sorted. rewrite merge_sort_Permutation. apply NoDup_elements. Qed.

Lemma StronglySorted_strict (l : list string) :
  StronglySorted str_le l → NoDup l → StronglySorted str_lt l.
Proof.
  induction 1 as [|x l Hl IH Hx]; intros Hnd; [constructor|].
  apply NoDup_cons in Hnd as [Hnotin Hnd]. constructor; [by apply IH|].
  rewrite Forall_forall in *. intros y Hy. apply str_le_lt; [by apply Hx|].
  by intros ->.
Qed.

Lemma sorted_strict (s : gset string) : StronglySorted str_lt (sorted s).
Proof.
  apply StronglySorted_strict; [|apply NoDup_sorted].
  unfold sorted. apply StronglySorted_merge_sort; apply _.
Qed.

Lemma fromkeys_acc (l acc : list string) :
  fold_left fromkeys_step l acc = (acc ++ filter (λ x, x ∉ acc) (fromkeys l))%list.
Proof.
  revert acc. induction l as [|x l IH]; intros acc.
  - simpl. by rewrite app_nil_r.
  - assert (Hcons : fromkeys (x :: l) = x :: filter (λ y, y ∉ [x]) (fromkeys l)).
    { unfold fromkeys at 1. simpl. unfold fromkeys_step at 2.
      rewrite bool_decide_false by apply not_elem_of_nil. by rewrite IH. }
    rewrite Hcons. simpl. rewrite IH. unfold fromkeys_step.
    case_bool_decide as Hx.
    + rewrite (filter_cons_False (λ y, y ∉ acc)) by (intros Hn; by apply Hn).
      rewrite list_filter_filter. f_equal. apply list_filter_iff.
      intros y. rewrite list_elem_of_singleton. split; [|by intros [? _]].
      intros Hy. split; [done|]. by intros ->.
    + rewrite (filter_cons_True (λ y, y ∉ acc)) by done.
      rewrite <- app_assoc. simpl. do 2 f_equal.
      rewrite list_filter_filter. apply list_filter_iff.
      intros y. rewrite elem_of_app, list_elem_of_singleton. split.
      * intros Hy. split; intros ?; apply Hy; auto.
      * intros [Hy Hne] [?|?]; done.
Qed.

Lemma fromkeys_cons (x : string) (l : list string) :
  fromkeys (x :: l) = x :: filter (λ y, y ∉ [x]) (fromkeys l).
Proof. unfold fromkeys at 1. simpl. by rewrite fromkeys_acc. Qed.

Lemma elem_of_fromkeys (l : list string) x : x ∈ fromkeys l ↔ x ∈ l.
Proof.
  induction l as [|y l IH]; [done|].
  rewrite fromkeys_cons, !elem_of_cons, list_elem_of_filter, IH, list_elem_of_singleton.
  destruct (decide (x = y)) as [->|Hne]; split; auto.
  - intros [?|[_ ?]]; auto.
  - intros [?|?]; auto.
Qed.

Lemma NoDup_fromkeys (l : list string) : NoDup (fromkeys l).
Proof.
  induction l as [|y l IH]; [constructor|].
  rewrite fromkeys_cons. constructor; [|by apply NoDup_filter].
  rewrite list_elem_of_filter, list_elem_of_singleton. intros [Hne _]. by apply Hne.
Qed.

Lemma filter_not_elem_of_id (l block : list string) :
  (∀ x, x ∈ l → x ∉ block) → filter (λ y, y ∉ block) l = l.
Proof.
  induction l as [|y l IH]; intros H; [done|].
  rewrite filter_cons_True by (apply H; left).
  f_equal. apply IH. intros x Hx. apply H. by right.
Qed.

Lemma fromkeys_NoDup_id (l : list string) : NoDup l → fromkeys l = l.
Proof.
  induction 1 as [|x l Hx Hnd IH]; [done|].
  rewrite fromkeys_cons, IH. f_equal. apply filter_not_elem_of_id.
  intros y Hy. rewrite list_elem_of_singleton. by intros ->.
Qed.

Lemma fromkeys_app (block l : list string) :
  NoDup block →
  fromkeys (block ++ l) = (block ++ filter (λ x, x ∉ block) (fromkeys l))%list.
Proof.
  intros Hnd. unfold fromkeys at 1. rewrite fold_left_app.
  change (fold_left fromkeys_step block []) with (fromkeys block).
  by rewrite (fromkeys_NoDup_id block Hnd), fromkeys_acc.
Qed.

Lemma StronglySorted_filter_weaken (R R' : relation string) (P : string → Prop)
    `{∀ x, Decision (P x)} (l : list string) :
  (∀ x y, P x → P y → R x y → R' x y) →
  StronglySorted R l → StronglySorted R' (filter P l).
Proof.
  intros HR. induction 1 as [|x l Hl IH Hx]; [constructor|].
  rewrite filter_cons. case_decide as Hpx; [|done].
  constructor; [done|]. rewrite Forall_forall in *.
  intros y [Hpy Hy]%list_elem_of_filter. apply HR; auto.
Qed.

Lemma StronglySorted_weaken_elem (R R' : relation string) (l : list string) :
  (∀ x y, x ∈ l → y ∈ l → R x y → R' x y) →
  StronglySorted R l → StronglySorted R' l.
Proof.
  intros HR Hl. induction Hl as [|x l Hl IH Hx]; [constructor|].
  constructor.
  - apply IH. intros a b Ha Hb. apply HR; by right.
  - rewrite Forall_forall in *. intros y Hy. apply HR; [by left|by right|auto].
Qed.

Lemma StronglySorted_NoDup (l : list string) : StronglySorted str_lt l → NoDup l.
Proof.
  induction 1 as [|x l Hl IH Hx]; constructor; [|done].
  rewrite Forall_forall in Hx. intros Hin. by apply (str_lt_irrefl x), Hx.
Qed.

Lemma fromkeys_concat_order (blocks : list (list string)) :
  Forall (StronglySorted str_lt) blocks →
  StronglySorted (image_order blocks) (fromkeys (concat blocks)).
Proof.
  induction 1 as [|b blocks Hb Hblocks IH]; [constructor|]. simpl.
  rewrite fromkeys_app by by apply StronglySorted_NoDup.
  apply StronglySorted_app_2.
  - intros x y Hx [Hy _]%list_elem_of_filter. left. simpl.
    rewrite bool_decide_true, bool_decide_false by done. lia.
  - apply (StronglySorted_weaken_elem str_lt); [|done].
    intros x y Hx Hy Hlt. right. simpl. by rewrite !bool_decide_true.
  - apply (StronglySorted_filter_weaken (image_order blocks)); [|done].
    intros x y Hx Hy Hxy. unfold image_order in *. simpl.
    rewrite !bool_decide_false by done.
    destruct Hxy as [Hlt|[Heq Hlt]]; [left; lia|right; split; [lia|done]].
Qed.

Lemma StronglySorted_lookup_lt (R : relation string) (l : list string) (i j : nat) x y :
  StronglySorted R l → l !! i = Some x → l !! j = Some y → (i < j)%nat → R x y.
Proof.
  intros Hl. revert i j. induction Hl as [|a l Hl IH Ha]; intros i j Hi Hj Hij; [done|].
  destruct j as [|j]; [lia|]. destruct i as [|i]; simpl in *.
  - injection Hi as <-. rewrite Forall_forall in Ha. apply Ha.
    by eapply list_elem_of_lookup_2.
  - apply (IH i j); [done..|lia].
Qed.

Lemma elem_of_concat_fmap {A} (f : A → list string) (l : list A) x :
  x ∈ concat (f <$> l) ↔ ∃ a, a ∈ l ∧ x ∈ f a.
Proof.
  induction l as [|a l IH]; simpl.
  - split; [by intros ?%elem_of_nil|]. by intros (? & ?%elem_of_nil & _).
  - rewrite elem_of_app, IH. split.
    + intros [?|(a' & ? & ?)]; [exists a; split; [by left|done]|].
      exists a'. split; [by right|done].
    + intros (a' & [->|?]%elem_of_cons & ?); [by left|]. right. by exists a'.
Qed.

(** *** The resolver *)

Lemma collect_images_supported ad_file (image_files : list string) (acc : gset string) :
  Forall (λ f, supported_image f = true) image_files →
  collect_images ad_file image_files acc
  = Ok (acc ∪ list_to_set (image_path ad_file <$> image_files)).
Proof.
  intros Hall. revert acc. induction Hall as [|f files Hf _ IH]; intros acc; simpl.
  - by rewrite (right_id_L ∅ (∪)).
  - rewrite Hf. simpl. rewrite IH. f_equal. by rewrite (assoc_L (∪)).
Qed.

Lemma collect_images_ok ad_file (image_files : list string) (acc s : gset string) :
  collect_images ad_file image_files acc = Ok s →
  s = acc ∪ list_to_set (image_path ad_file <$> image_files).
Proof.
  revert acc. induction image_files as [|f files IH]; intros acc H; simpl in *.
  - injection H as <-. by rewrite (right_id_L ∅ (∪)).
  - inv_bind H as u Hu. apply IH in H as ->. by rewrite (assoc_L (∪)).
Qed.

Lemma expand_patterns_supported ad_file (patterns images : list string) :
  (∀ p f, p ∈ patterns → f ∈ glob p (dirname ad_file) → supported_image f = true) →
  expand_patterns ad_file (VStr <$> patterns) images
  = Ok (images ++ concat (sorted_matches ad_file <$> patterns))%list.
Proof.
  revert images. induction patterns as [|p patterns IH]; intros images Hall; simpl.
  - by rewrite app_nil_r.
  - rewrite collect_images_supported.
    + simpl. rewrite IH.
      * unfold sorted_matches at 2, pattern_matches.
        by rewrite (left_id_L ∅ (∪)), <- app_assoc.
      * intros q f Hq. apply Hall. by right.
    + rewrite Forall_forall. intros f Hf. apply (Hall p); [by left|done].
Qed.

Lemma expand_patterns_ok ad_file (patterns images res : list string) :
  expand_patterns ad_file (VStr <$> patterns) images = Ok res →
  res = (images ++ concat (sorted_matches ad_file <$> patterns))%list.
Proof.
  revert images. induction patterns as [|p patterns IH]; intros images H; simpl in *.
  - injection H as <-. by rewrite app_nil_r.
  - inv_bind H as set Hset. apply collect_images_ok in Hset as ->.
    apply IH in H as ->. unfold sorted_matches at 2, pattern_matches.
    by rewrite (left_id_L ∅ (∪)), <- app_assoc.
Qed.

Lemma elem_of_sorted_matches ad_file (p x : string) :
  x ∈ sorted_matches ad_file p ↔ x ∈ pattern_matches ad_file p.
Proof. unfold sorted_matches. by rewrite elem_of_sorted, elem_of_list_to_set. Qed.

Lemma truthy_patterns (patterns : list string) :
  truthy (VList (VStr <$> patterns)) = bool_decide (patterns ≠ []).
Proof. by destruct patterns. Qed.

(** What [resolve_images] returns when it returns. *)
Lemma resolve_images_ok ad_file (patterns images : list string) :
  resolve_images ad_file (VStr <$> patterns) = Ok images →
  images = fromkeys (concat (sorted_matches ad_file <$> patterns)).
Proof.
  unfold resolve_images. intros H. inv_bind H as l Hl.
  apply expand_patterns_ok in Hl as ->. inv_bind H as u Hu. by injection H as <-.
Qed.

(** C5: the image list of a list of patterns.  Each pattern contributes the
    absolute paths of its matches, without repetition and in ascending order;
    the list that is returned is the concatenation of these blocks in the
    order of the patterns, reduced to first occurrences.  So every matched
    path occurs exactly once, and of two entries the earlier one is first
    matched by the earlier pattern or, when the same pattern matches both
    first, is the smaller path.  When every match has a supported extension
    a list is returned unless there are patterns and no match at all; and
    resolution fails when there are patterns and none has a match. *)
Theorem image_resolution ad_file (patterns : list string) :
  (∀ images, resolve_images ad_file (VStr <$> patterns) = Ok images →
             images = fromkeys (concat (sorted_matches ad_file <$> patterns)))
  ∧ (Forall (λ p, Forall (λ f, supported_image f = true) (glob p (dirname ad_file)))
       patterns →
     resolve_images ad_file (VStr <$> patterns)
     = (if bool_decide (patterns ≠ [] ∧ concat (sorted_matches ad_file <$> patterns) = [])
        then Raise (ValidationError NoImagesFound)
        else Ok (fromkeys (concat (sorted_matches ad_file <$> patterns)))))
  ∧ Forall (StronglySorted str_lt) (sorted_matches ad_file <$> patterns)
  ∧ (∀ p x, x ∈ sorted_matches ad_file p ↔ x ∈ pattern_matches ad_file p)
  ∧ NoDup (fromkeys (concat (sorted_matches ad_file <$> patterns)))
  ∧ (∀ x, x ∈ fromkeys (concat (sorted_matches ad_file <$> patterns))
          ↔ ∃ p, p ∈ patterns ∧ x ∈ pattern_matches ad_file p)
  ∧ (∀ (i j : nat) x y,
       fromkeys (concat (sorted_matches ad_file <$> patterns)) !! i = Some x →
       fromkeys (concat (sorted_matches ad_file <$> patterns)) !! j = Some y →
       (i < j)%nat →
       image_order (sorted_matches ad_file <$> patterns) x y)
  ∧ (patterns ≠ [] →
     (∀ p, p ∈ patterns → glob p (dirname ad_file) = []) →
     resolve_images ad_file (VStr <$> patterns) = Raise (ValidationError NoImagesFound)).
Proof.
  assert (Hblocks : Forall (StronglySorted str_lt) (sorted_matches ad_file <$> patterns)).
  { rewrite Forall_fmap, Forall_forall. intros p _. apply sorted_strict. }
  assert (Hrun :
    (∀ p f, p ∈ patterns → f ∈ glob p (dirname ad_file) → supported_image f = true) →
    resolve_images ad_file (VStr <$> patterns)
    = (if bool_decide (patterns ≠ [] ∧ concat (sorted_matches ad_file <$> patterns) = [])
       then Raise (ValidationError NoImagesFound)
       else Ok (fromkeys (concat (sorted_matches ad_file <$> patterns))))).
  { intros Hall. unfold resolve_images. rewrite (expand_patterns_supported _ _ _ Hall).
    rewrite truthy_patterns. simpl.
    destruct (decide (patterns = [])) as [->|Hne]; [done|].
    rewrite (bool_decide_true (patterns ≠ [])) by done. simpl. rewrite orb_false_r.
    destruct (decide (concat (sorted_matches ad_file <$> patterns) = [])) as [He|He].
    - rewrite He. rewrite bool_decide_false by (intros Hn; by apply Hn).
      by rewrite bool_decide_true.
    - rewrite bool_decide_true by done. by rewrite bool_decide_false by by intros [_ ?]. }
  split; [apply resolve_images_ok|]. split.
  { intros Hforall. apply Hrun. intros p f Hp Hf.
    rewrite Forall_forall in Hforall. specialize (Hforall p Hp).
    rewrite Forall_forall in Hforall. by apply Hforall. }
  split; [exact Hblocks|].
  split; [intros p x; apply elem_of_sorted_matches|].
  split; [apply NoDup_fromkeys|].
  split; [|split].
  - intros x. rewrite elem_of_fromkeys, elem_of_concat_fmap.
    by setoid_rewrite elem_of_sorted_matches.
  - intros i j x y Hi Hj Hij.
    by eapply StronglySorted_lookup_lt; [apply fromkeys_concat_order|..].
  - intros Hne Hempty. rewrite Hrun.
    + rewrite bool_decide_true; [done|].
      split; [done|]. clear -Hempty.
      induction patterns as [|p patterns IH]; [done|].
      rewrite fmap_cons. cbn [concat].
      rewrite IH by (intros q Hq; apply Hempty; by right).
      unfold sorted_matches, pattern_matches. rewrite (Hempty p) by by left.
      by vm_compute.
    + intros p f Hp Hf. rewrite (Hempty p Hp) in Hf. by apply elem_of_nil in Hf.
Qed.

(** ** Selection under the other selectors *)

(** X1: Under the selector [new] the dates of an ad are not read: an ad that
    passes the filter on [active] is skipped exactly when its [id] is set and
    identifiers are checked, whatever the clock, [created_on], [updated_on]
    and [republication_interval] are; without the check of identifiers it is
    always selected. *)
Theorem new_selection (self : KleinanzeigenBot) ignore_inactive check_id now
    (ad_cfg : dict) :
  ads_selector self = "new" →
  skip_inactive ignore_inactive ad_cfg = Ok false →
  select self ignore_inactive check_id now ad_cfg
  = match ad_cfg !! "id" with
    | Some id => Ok (if truthy id && check_id then SkippedNotNew else Selected)
    | None => Raise (KeyError "id")
    end.
Proof.
  intros Hsel Hact. unfold select, skip_not_new, skip_not_due, getitem.
  rewrite Hact, Hsel. simpl.
  destruct (ad_cfg !! "id") as [id|]; simpl; [|done].
  by destruct (truthy id && check_id).
Qed.

(** X2: Under a selector that is neither [new] nor [due], be it [all] or any other
    text, no ad is skipped for its [id] or its dates: the selection is the
    filter on [active] alone. *)
Theorem other_selector_selects_all (self : KleinanzeigenBot) ignore_inactive check_id
    now (ad_cfg : dict) :
  ads_selector self ≠ "new" → ads_selector self ≠ "due" →
  select self ignore_inactive check_id now ad_cfg
  = (inactive ← skip_inactive ignore_inactive ad_cfg;
     Ok (if inactive : bool then SkippedInactive else Selected)).
Proof.
  intros Hnew Hdue. unfold select, skip_not_new, skip_not_due.
  apply String.eqb_neq in Hnew, Hdue. rewrite Hnew, Hdue.
  destruct (skip_inactive ignore_inactive ad_cfg) as [[]|]; done.
Qed.

(** ** The loop over the ad files *)

Lemma StronglySorted_sublist (R : relation string) (l k : list string) :
  l `sublist_of` k → StronglySorted R k → StronglySorted R l.
Proof.
  induction 1 as [|x l k Hsub IH|x l k Hsub IH]; intros Hk.
  - constructor.
  - apply StronglySorted_inv in Hk as [Hk Hx]. constructor; [by apply IH|].
    rewrite Forall_forall in *. intros y Hy. apply Hx. by eapply elem_of_sublist.
  - apply StronglySorted_inv in Hk as [Hk _]. by apply IH.
Qed.

Lemma load_each_files (self : KleinanzeigenBot) (store : file_store)
    ignore_inactive check_id descr_prefix descr_suffix files n ads entries :
  load_each self store ignore_inactive check_id descr_prefix descr_suffix files n ads
    = Ok entries →
  ∃ loaded, entries = (ads ++ loaded)%list ∧ files_of loaded `sublist_of` files.
Proof.
  revert n ads. induction files as [|f rest IH]; intros n ads H; simpl in H.
  - injection H as <-. exists []. by rewrite app_nil_r.
  - inv_bind H as raw Hraw. inv_bind H as r Hr. apply IH in H as (loaded & -> & Hsub).
    destruct r as [entry|].
    + apply load_ad_id in Hr as (Hf & _ & _). exists (entry :: loaded).
      rewrite <- app_assoc. split; [done|]. unfold files_of. rewrite fmap_cons, Hf.
      by apply sublist_skip.
    + exists loaded. split; [done|]. by apply sublist_cons.
Qed.

(** X3: The entries that [load_ads] returns come in the order of their file
    names, strictly ascending: every entry is from another file, and the
    files are among the discovered ones.  Each entry carries the content of
    its file as the raw definition. *)
Theorem load_ads_in_path_order (self : KleinanzeigenBot) (store : file_store)
    ignore_inactive check_id (entries : list ad_entry) :
  load_ads self store ignore_inactive check_id = Ok entries →
  files_of entries `sublist_of` sorted (discover_ad_files self)
  ∧ StronglySorted str_lt (files_of entries)
  ∧ NoDup (files_of entries)
  ∧ ∀ entry : ad_entry, entry ∈ entries →
      entry.1.1 ∈ discover_ad_files self ∧ load_dict store entry.1.1 = Ok entry.2.
Proof.
  unfold load_ads. intros H.
  case_bool_decide as Hempty.
  { injection H as <-. split; [apply sublist_nil_l|]. split; [constructor|].
    split; [constructor|]. by intros entry ?%elem_of_nil. }
  inv_bind H as p Hp. inv_bind H as s Hs.
  pose proof H as Hfiles. apply load_each_files in Hfiles as (loaded & -> & Hsub).
  simpl in *. split; [done|].
  assert (Hsorted : StronglySorted str_lt (files_of loaded)).
  { eapply StronglySorted_sublist; [done|]. apply sorted_strict. }
  split; [done|]. split; [by apply StronglySorted_NoDup|].
  intros entry Hin. split.
  - apply elem_of_sorted. eapply elem_of_sublist; [|done].
    unfold files_of. apply list_elem_of_fmap. by exists entry.
  - apply (load_each_invariant (λ entry, load_dict store entry.1.1 = Ok entry.2)) in H.
    + rewrite Forall_forall in H. by apply H.
    + intros now f raw e Hload He. by apply load_ad_id in He as (-> & -> & _).
    + constructor.
Qed.

Lemma load_each_cons (self : KleinanzeigenBot) (store : file_store)
    ignore_inactive check_id descr_prefix descr_suffix f rest n ads :
  load_each self store ignore_inactive check_id descr_prefix descr_suffix (f :: rest) n ads
  = (r ← load_file self store ignore_inactive check_id descr_prefix descr_suffix n f;
     load_each self store ignore_inactive check_id descr_prefix descr_suffix rest (S n)
       (match r with Some entry => ads ++ [entry] | None => ads end)%list).
Proof. unfold load_file. simpl. by destruct (load_dict store f). Qed.

Lemma load_each_raises (self : KleinanzeigenBot) (store : file_store)
    ignore_inactive check_id descr_prefix descr_suffix files n ads e :
  load_each self store ignore_inactive check_id descr_prefix descr_suffix files n ads
    = Raise e
  ↔ ∃ (i : nat) f,
      files !! i = Some f
      ∧ load_file self store ignore_inactive check_id descr_prefix descr_suffix (n + i) f
        = Raise e
      ∧ ∀ (j : nat) g, (j < i)%nat → files !! j = Some g →
          is_ok (load_file self store ignore_inactive check_id descr_prefix descr_suffix
                   (n + j) g) = true.
Proof.
  revert n ads. induction files as [|f rest IH]; intros n ads.
  - simpl. split; [discriminate|]. intros (i & g & Hi & _).
    by rewrite lookup_nil in Hi.
  - rewrite load_each_cons.
    destruct (load_file self store ignore_inactive check_id descr_prefix descr_suffix n f)
      as [r|e0] eqn:Hf; simpl.
    + rewrite IH. split.
      * intros (i & g & Hi & Hg & Hbefore). exists (S i), g.
        rewrite Nat.add_succ_r. split; [done|]. split; [done|].
        intros [|j] h Hj Hh; simpl in Hh.
        -- injection Hh as <-. by rewrite Nat.add_0_r, Hf.
        -- rewrite Nat.add_succ_r. apply Hbefore; [lia|done].
      * intros ([|i] & g & Hi & Hg & Hbefore); simpl in Hi.
        -- injection Hi as <-. rewrite Nat.add_0_r, Hf in Hg. discriminate.
        -- exists i, g. rewrite Nat.add_succ_r in Hg. split; [done|]. split; [done|].
           intros j h Hj Hh. specialize (Hbefore (S j) h).
           rewrite Nat.add_succ_r in Hbefore. apply Hbefore; [lia|done].
    + split.
      * intros He. injection He as ->. exists 0%nat, f. rewrite Nat.add_0_r.
        split; [done|]. split; [done|]. intros; lia.
      * intros ([|i] & g & Hi & Hg & Hbefore); simpl in Hi.
        -- injection Hi as <-. rewrite Nat.add_0_r, Hf in Hg. by injection Hg as ->.
        -- specialize (Hbefore 0%nat f). rewrite Nat.add_0_r, Hf in Hbefore.
           discriminate Hbefore; [lia|done].
Qed.

(** X4: [load_ads] gives up at the first file, in the order of the file names,
    on which reading, selection, validation or resolution raises, and raises
    what that file raised; the files after it are not looked at.  It raises
    in no other case, apart from a configuration without the description
    affixes. *)
Theorem load_ads_first_error (self : KleinanzeigenBot) (store : file_store)
    ignore_inactive check_id (e : exn) :
  load_ads self store ignore_inactive check_id = Raise e
  ↔ discover_ad_files self ≠ ∅
    ∧ (description_affix self "prefix" = Raise e
       ∨ ∃ descr_prefix,
           description_affix self "prefix" = Ok descr_prefix
           ∧ (description_affix self "suffix" = Raise e
              ∨ ∃ descr_suffix (i : nat) f,
                  description_affix self "suffix" = Ok descr_suffix
                  ∧ sorted (discover_ad_files self) !! i = Some f
                  ∧ load_file self store ignore_inactive check_id
                      descr_prefix descr_suffix i f = Raise e
                  ∧ ∀ (j : nat) g, (j < i)%nat →
                      sorted (discover_ad_files self) !! j = Some g →
                      is_ok (load_file self store ignore_inactive check_id
                               descr_prefix descr_suffix j g) = true)).
Proof.
  unfold load_ads. case_bool_decide as Hempty.
  { split; [discriminate|]. by intros [? _]. }
  destruct (description_affix self "prefix") as [p|ep]; simpl.
  2:{ split.
      - intros He. injection He as ->. split; [done|]. by left.
      - intros [_ [He|(p & Hp & _)]]; [by injection He as ->|discriminate]. }
  destruct (description_affix self "suffix") as [s|es]; simpl.
  2:{ split.
      - intros He. injection He as ->. split; [done|]. right. exists p.
        split; [done|]. by left.
      - intros [_ [He|(p' & Hp & [He|(s & i & f & Hs & _)])]];
          [discriminate|by injection He as ->|discriminate]. }
  rewrite load_each_raises. simpl. split.
  - intros (i & f & Hi & Hf & Hbefore). split; [done|]. right. exists p.
    split; [done|]. right. by exists s, i, f.
  - intros [_ [He|(p' & Hp & [He|(s' & i & f & Hs & Hi & Hf & Hbefore)])]];
      [discriminate|discriminate|].
    injection Hp as <-. injection Hs as <-. by exists i, f.
Qed.

(** ** What a loaded definition satisfies *)

Lemma normalize_id_lookup_ne (ad_cfg ad_cfg' : dict) key :
  normalize_id ad_cfg = Ok ad_cfg' → key ≠ "id" → ad_cfg' !! key = ad_cfg !! key.
Proof.
  unfold normalize_id. intros H Hne. inv_bind H.
  destruct (truthy a); [|by injection H as <-].
  inv_bind H. injection H as <-. by rewrite lookup_insert_ne.
Qed.

(** The steps of a run of the loop body that returns an entry. *)
Lemma load_ad_steps (self : KleinanzeigenBot) ignore_inactive check_id now
    descr_prefix descr_suffix ad_file (raw : dict) (entry : ad_entry) :
  load_ad self ignore_inactive check_id now descr_prefix descr_suffix ad_file raw
    = Ok (Some entry) →
  ∃ composed with_id with_category with_costs,
    select self ignore_inactive check_id now
      (merge_defaults (ad_defaults (config self)) ad_fields raw) = Ok Selected
    ∧ compose_description descr_prefix descr_suffix
        (merge_defaults (ad_defaults (config self)) ad_fields raw) = Ok composed
    ∧ validate composed = Ok tt
    ∧ normalize_id composed = Ok with_id
    ∧ set_category self with_id = Ok with_category
    ∧ set_shipping_costs with_category = Ok with_costs
    ∧ set_images ad_file with_costs = Ok entry.1.2
    ∧ entry.1.1 = ad_file ∧ entry.2 = raw.
Proof.
  unfold load_ad. intros H. inv_bind H as sel Hsel.
  destruct sel; try discriminate.
  inv_bind H as composed Hcomposed. inv_bind H as u Hvalid. destruct u.
  inv_bind H as with_id Hwith_id. inv_bind H as with_category Hcategory.
  inv_bind H as with_costs Hcosts. inv_bind H as with_images Himages.
  injection H as <-. by exists composed, with_id, with_category, with_costs.
Qed.

(** The steps after validation rewrite [id], [category], [shipping_costs]
    and [images] only. *)
Lemma load_ad_lookup (self : KleinanzeigenBot) ad_file
    (composed with_id with_category with_costs ad_cfg : dict) key :
  normalize_id composed = Ok with_id →
  set_category self with_id = Ok with_category →
  set_shipping_costs with_category = Ok with_costs →
  set_images ad_file with_costs = Ok ad_cfg →
  key ≠ "id" → key ≠ "category" → key ≠ "shipping_costs" → key ≠ "images" →
  ad_cfg !! key = composed !! key.
Proof.
  intros Hid Hcat Hcosts Himg ? ? ? ?.
  rewrite (set_images_lookup_ne _ _ _ _ Himg) by done.
  rewrite (set_shipping_costs_lookup_ne _ _ _ Hcosts) by done.
  rewrite (set_category_lookup_ne _ _ _ _ Hcat) by done.
  by rewrite (normalize_id_lookup_ne _ _ _ Hid).
Qed.

Lemma assert_one_of_ok (ad_cfg : dict) key allowed :
  split_dot key = [key] →
  assert_one_of ad_cfg key allowed = Ok tt ↔ one_of ad_cfg key allowed.
Proof.
  intros Hk. unfold assert_one_of, one_of. rewrite Hk. simpl.
  destruct (ad_cfg !! key) as [v|]; simpl.
  - destruct v as [|b|z|s|t|l|d]; simpl;
      try (split; [discriminate|intros (s' & Hs & _); discriminate]).
    case_bool_decide as Hin; simpl.
    + split; [|done]. intros _. by exists s.
    + split; [discriminate|]. intros (s' & Hs & Hin'). by injection Hs as ->.
  - split; [discriminate|]. intros (s & Hs & _). discriminate.
Qed.

Lemma check_description_length_ok (ad_cfg : dict) :
  check_description_length ad_cfg = Ok tt
  ↔ ∃ d (n : nat), ad_cfg !! "description" = Some d ∧ py_len d = Ok n ∧ (n ≤ 4000)%nat.
Proof.
  unfold check_description_length, getitem.
  destruct (ad_cfg !! "description") as [d|]; simpl.
  - destruct (py_len d) as [n|e] eqn:Hlen; simpl.
    + unfold ensure. destruct (Nat.leb_spec n 4000).
      * split; [|done]. intros _. exists d, n. split; [done|]. split; [done|lia].
      * split; [discriminate|]. intros (d' & n' & Hd & Hn & Hle).
        injection Hd as <-. rewrite Hlen in Hn. injection Hn as <-. lia.
    + split; [discriminate|]. intros (d' & n' & Hd & Hn & _).
      injection Hd as <-. rewrite Hlen in Hn. discriminate.
  - split; [discriminate|]. intros (d' & n' & Hd & _). discriminate.
Qed.

Lemma assert_min_len_ok (ad_cfg : dict) key (minlen : nat) :
  split_dot key = [key] →
  assert_min_len ad_cfg key minlen = Ok tt
  ↔ ∃ v (n : nat), ad_cfg !! key = Some v ∧ py_len v = Ok n ∧ (minlen ≤ n)%nat.
Proof.
  intros Hk. unfold assert_min_len. rewrite Hk. simpl.
  destruct (ad_cfg !! key) as [v|]; simpl.
  - destruct (py_len v) as [n|e] eqn:Hlen; simpl.
    + unfold ensure. destruct (Nat.leb_spec minlen n).
      * split; [|done]. intros _. exists v, n. split; [done|]. split; [done|lia].
      * split; [discriminate|]. intros (v' & n' & Hv & Hn & Hle).
        injection Hv as <-. rewrite Hlen in Hn. injection Hn as <-. lia.
    + split; [discriminate|]. intros (v' & n' & Hv & Hn & _).
      injection Hv as <-. rewrite Hlen in Hn. discriminate.
  - split; [discriminate|]. intros (v' & n' & Hv & _). discriminate.
Qed.

Lemma assert_has_value_ok (ad_cfg : dict) path :
  assert_has_value ad_cfg path = Ok tt
  ↔ truthy (safe_get (VDict ad_cfg) (split_dot path)) = true.
Proof.
  unfold assert_has_value, ensure.
  destruct (truthy (safe_get (VDict ad_cfg) (split_dot path))); split; done.
Qed.

Lemma check_price_ok (ad_cfg : dict) (price_type : string) :
  ad_cfg !! "price_type" = Some (VStr price_type) →
  check_price ad_cfg = Ok tt
  ↔ (price_type = "GIVE_AWAY" → truthy (safe_get (VDict ad_cfg) ["price"]) = false)
    ∧ (price_type = "FIXED" → truthy (safe_get (VDict ad_cfg) ["price"]) = true).
Proof.
  intros Hpt. unfold check_price, getitem, assert_has_value. rewrite Hpt.
  change (split_dot "price") with ["price"].
  generalize (truthy (safe_get (VDict ad_cfg) ["price"])). intros price. simpl.
  destruct (String.eqb_spec price_type "GIVE_AWAY") as [->|Hgive].
  - unfold ensure. destruct price; simpl.
    + split; [discriminate|]. intros [H _]. by specialize (H eq_refl).
    + split; [|done]. intros _. split; [done|]. intros ?; discriminate.
  - destruct (String.eqb_spec price_type "FIXED") as [->|Hfixed].
    + unfold ensure. destruct price; simpl.
      * split; [|done]. intros _. split; [intros ?; discriminate|done].
      * split; [discriminate|]. intros [_ H]. by specialize (H eq_refl).
    + split; [|done]. intros _. split; intros ?; done.
Qed.

(** The checks of lines 262-285, read as a property of the definition: they
    pass exactly on the definitions that satisfy [valid_ad]. *)
Lemma validate_valid (ad_cfg : dict) : validate ad_cfg = Ok tt ↔ valid_ad ad_cfg.
Proof.
  rewrite validate_run_rules, run_rules_ok. unfold validation_rules, valid_ad.
  rewrite !Forall_cons, Forall_nil.
  rewrite !assert_one_of_ok by reflexivity.
  rewrite check_description_length_ok, (assert_min_len_ok _ "title") by reflexivity.
  rewrite !assert_has_value_ok.
  change (split_dot "description") with ["description"].
  change (split_dot "contact.name") with ["contact"; "name"].
  change (split_dot "republication_interval") with ["republication_interval"].
  split.
  - intros ((d & n & Hd & Hn & Hle) & Htype & Htitle & Hdescr & Hpt & Hprice & Hship
            & Hname & Hinterval & _).
    destruct Hpt as (pt & Hpt & Hin).
    apply (check_price_ok _ _ Hpt) in Hprice as [Hgive Hfixed].
    split.
    { exists d, n. simpl in Hdescr. rewrite Hd in Hdescr. done. }
    split; [done|]. split; [done|]. split; [by exists pt|].
    split.
    { intros Hpt'. apply Hgive. rewrite Hpt in Hpt'. by injection Hpt'. }
    split.
    { intros Hpt'. apply Hfixed. rewrite Hpt in Hpt'. by injection Hpt'. }
    done.
  - intros ((d & n & Hd & Hn & Hle & Ht) & Htype & Htitle & Hpt & Hgive & Hfixed
            & Hship & Hname & Hinterval).
    split; [by exists d, n|]. split; [done|]. split; [done|].
    split; [simpl; by rewrite Hd|]. split; [done|].
    split.
    { destruct Hpt as (pt & Hpt & Hin). apply (check_price_ok _ _ Hpt).
      split; intros ->; auto. }
    done.
Qed.

Lemma valid_ad_transfer (ad_cfg ad_cfg' : dict) :
  (∀ key, key ≠ "id" → key ≠ "category" → key ≠ "shipping_costs" → key ≠ "images" →
          ad_cfg' !! key = ad_cfg !! key) →
  valid_ad ad_cfg → valid_ad ad_cfg'.
Proof.
  intros Hsame. unfold valid_ad, one_of. simpl. by rewrite !Hsame by done.
Qed.

Lemma load_ad_valid (self : KleinanzeigenBot) ignore_inactive check_id now
    descr_prefix descr_suffix ad_file (raw : dict) (entry : ad_entry) :
  load_ad self ignore_inactive check_id now descr_prefix descr_suffix ad_file raw
    = Ok (Some entry) →
  valid_ad entry.1.2.
Proof.
  intros (composed & with_id & with_category & with_costs & _ & _ & Hvalid & Hid
          & Hcat & Hcosts & Himg & _)%load_ad_steps.
  apply validate_valid in Hvalid. revert Hvalid. apply valid_ad_transfer.
  intros key ? ? ? ?. by eapply load_ad_lookup.
Qed.

(** X5: Every definition that [load_ads] returns satisfies the checks of the
    validation, although its [id], [category], [shipping_costs] and [images]
    are rewritten after the checks were made: its type, price type and
    shipping type are among the allowed ones, its title has at least 10
    characters, its description is not empty and has at most 4000
    characters, the price fits the price type, and a contact name and a
    republication interval are given.  Validating it again succeeds. *)
Theorem loaded_entries_valid (self : KleinanzeigenBot) (store : file_store)
    ignore_inactive check_id (entries : list ad_entry) :
  load_ads self store ignore_inactive check_id = Ok entries →
  ∀ entry : ad_entry, entry ∈ entries →
    valid_ad entry.1.2 ∧ validate entry.1.2 = Ok tt.
Proof.
  unfold load_ads. intros H entry Hin.
  case_bool_decide; [injection H as <-; by apply elem_of_nil in Hin|].
  inv_bind H. inv_bind H.
  apply (load_each_invariant (λ entry, valid_ad entry.1.2)) in H.
  - rewrite Forall_forall in H. split; [by apply H|]. apply validate_valid. by apply H.
  - intros now f raw e _ He. by eapply load_ad_valid.
  - constructor.
Qed.

Lemma merged_description (ad_defaults0 ad_fields0 raw : dict) :
  merge_defaults ad_defaults0 ad_fields0 raw !! "description"
  = match raw !! "description" with
    | Some d => Some d
    | None => ad_fields0 !! "description"
    end.
Proof.
  rewrite merge_defaults_lookup. unfold merged_field, never, ignore_description. simpl.
  by destruct (ad_defaults0 !! "description"), (raw !! "description"),
    (ad_fields0 !! "description").
Qed.

Lemma load_ad_description (self : KleinanzeigenBot) ignore_inactive check_id now
    descr_prefix descr_suffix ad_file (raw : dict) (entry : ad_entry) :
  load_ad self ignore_inactive check_id now descr_prefix descr_suffix ad_file raw
    = Ok (Some entry) →
  ∃ own composed,
    match entry.2 !! "description" with
    | Some d => Some d
    | None => ad_fields !! "description"
    end = Some own
    ∧ entry.1.2 !! "description" = Some composed
    ∧ (s ← py_add descr_prefix (py_or own (VStr "")); py_add s descr_suffix)
      = Ok composed.
Proof.
  intros (composed & with_id & with_category & with_costs & _ & Hcomposed & _ & Hid
          & Hcat & Hcosts & Himg & _ & ->)%load_ad_steps.
  rewrite (load_ad_lookup _ _ _ _ _ _ _ "description" Hid Hcat Hcosts Himg) by done.
  unfold compose_description in Hcomposed.
  inv_bind Hcomposed as own Hown. apply getitem_ok in Hown.
  rewrite merged_description in Hown.
  inv_bind Hcomposed as s1 Hs1. inv_bind Hcomposed as s2 Hs2.
  injection Hcomposed as <-. exists own, s2.
  split; [done|]. split; [by rewrite lookup_insert_eq|]. by rewrite Hs1.
Qed.

(** X6: The description of every definition that [load_ads] returns is the
    configured prefix, the description of the ad file (the empty string for
    a description that is empty) and the configured suffix, joined in this
    order; the description table of the ad defaults never takes the place of
    a missing description.  Where the prefix is a string, so are the
    description of the file, the suffix and the result. *)
Theorem loaded_description (self : KleinanzeigenBot) (store : file_store)
    ignore_inactive check_id (entries : list ad_entry) :
  load_ads self store ignore_inactive check_id = Ok entries →
  ∀ entry : ad_entry, entry ∈ entries →
    ∃ descr_prefix descr_suffix own composed,
      description_affix self "prefix" = Ok descr_prefix
      ∧ description_affix self "suffix" = Ok descr_suffix
      ∧ match entry.2 !! "description" with
        | Some d => Some d
        | None => ad_fields !! "description"
        end = Some own
      ∧ entry.1.2 !! "description" = Some composed
      ∧ (s ← py_add descr_prefix (py_or own (VStr "")); py_add s descr_suffix)
        = Ok composed
      ∧ ∀ p, descr_prefix = VStr p →
          ∃ body sfx, py_or own (VStr "") = VStr body ∧ descr_suffix = VStr sfx
                      ∧ composed = VStr ((p +:+ body) +:+ sfx).
Proof.
  unfold load_ads. intros H entry Hin.
  case_bool_decide; [injection H as <-; by apply elem_of_nil in Hin|].
  inv_bind H as descr_prefix Hp. inv_bind H as descr_suffix Hs.
  apply (load_each_invariant
           (λ entry : ad_entry, ∃ own composed,
              match entry.2 !! "description" with
              | Some d => Some d
              | None => ad_fields !! "description"
              end = Some own
              ∧ entry.1.2 !! "description" = Some composed
              ∧ (s ← py_add descr_prefix (py_or own (VStr "")); py_add s descr_suffix)
                = Ok composed)) in H.
  - rewrite Forall_forall in H. destruct (H _ Hin) as (own & composed & Hown & Hc & Hadd).
    exists descr_prefix, descr_suffix, own, composed.
    do 5 (split; [done|]).
    intros p ->. destruct (py_or own (VStr "")) as [| | |body| | |]; try discriminate.
    simpl in Hadd. destruct descr_suffix as [| | |sfx| | |]; try discriminate.
    injection Hadd as <-. by exists body, sfx.
  - intros now f raw e _ He. by eapply load_ad_description.
  - constructor.
Qed.

(** *** The images of a loaded definition *)

Lemma collect_images_all_supported ad_file (image_files : list string)
    (acc s : gset string) :
  collect_images ad_file image_files acc = Ok s →
  Forall (λ f, supported_image f = true) image_files.
Proof.
  revert acc. induction image_files as [|f files IH]; intros acc H; simpl in H.
  - constructor.
  - inv_bind H as u Hu. unfold ensure in Hu.
    destruct (supported_image f) eqn:Hf; [|discriminate].
    constructor; [done|]. by eapply IH.
Qed.

Lemma expand_patterns_blocks ad_file (patterns : list value) (images res : list string) :
  expand_patterns ad_file patterns images = Ok res →
  ∃ matches,
    Forall2 (matched_by ad_file) patterns matches
    ∧ res = (images ++ concat (image_block ad_file <$> matches))%list.
Proof.
  revert images. induction patterns as [|v vs IH]; intros images H; simpl in H.
  - injection H as <-. exists []. split; [constructor|]. by rewrite app_nil_r.
  - inv_bind H as files Hfiles. inv_bind H as set Hset.
    pose proof (collect_images_all_supported _ _ _ _ Hset) as Hsupported.
    apply collect_images_ok in Hset as ->.
    apply IH in H as (matches & Hmatches & ->).
    exists (files :: matches). split; [by constructor|].
    rewrite fmap_cons. cbn [concat]. unfold image_block at 2.
    by rewrite (left_id_L ∅ (∪)), <- app_assoc.
Qed.

Lemma elem_of_image_block ad_file (files : list string) x :
  x ∈ image_block ad_file files ↔ ∃ f, f ∈ files ∧ x = image_path ad_file f.
Proof.
  unfold image_block. rewrite elem_of_sorted, elem_of_list_to_set, list_elem_of_fmap.
  split; intros (f & ? & ?); by exists f.
Qed.

Lemma fromkeys_nil_inv (l : list string) : fromkeys l = [] → l = [].
Proof.
  destruct l as [|x rest]; [done|]. intros Hnil.
  assert (x ∈ fromkeys (x :: rest)) as Hx by (apply elem_of_fromkeys; left).
  rewrite Hnil in Hx. by apply elem_of_nil in Hx.
Qed.

Lemma set_images_ok ad_file (ad_cfg ad_cfg' : dict) :
  set_images ad_file ad_cfg = Ok ad_cfg' →
  ∃ v, ad_cfg !! "images" = Some v
       ∧ if truthy v
         then ∃ patterns matches l,
                iterate v = Ok patterns
                ∧ Forall2 (matched_by ad_file) patterns matches
                ∧ ad_cfg' !! "images" = Some (VList (VStr <$> l))
                ∧ l = fromkeys (concat (image_block ad_file <$> matches))
                ∧ NoDup l
                ∧ (patterns ≠ [] → l ≠ [])
                ∧ (∀ x, x ∈ l ↔ ∃ files f, files ∈ matches ∧ f ∈ files
                                           ∧ x = image_path ad_file f)
                ∧ (∀ ps, patterns = VStr <$> ps →
                         l = fromkeys (concat (sorted_matches ad_file <$> ps)))
         else ad_cfg' !! "images" = Some v.
Proof.
  unfold set_images. intros H. inv_bind H as v Hv. apply getitem_ok in Hv.
  exists v. split; [done|].
  destruct (truthy v) eqn:Ht; [|by injection H as <-].
  inv_bind H as patterns Hpatterns. inv_bind H as l Hl. injection H as <-.
  pose proof Hl as Hresolved.
  unfold resolve_images in Hl. inv_bind Hl as images Himages.
  apply expand_patterns_blocks in Himages as (matches & Hmatches & ->).
  rewrite app_nil_l in Hl. inv_bind Hl as u Hu. injection Hl as <-.
  exists patterns, matches, (fromkeys (concat (image_block ad_file <$> matches))).
  split; [done|]. split; [done|]. split; [by rewrite lookup_insert_eq|].
  split; [done|]. split; [apply NoDup_fromkeys|]. split; [|split].
  - intros Hne Hnil%fromkeys_nil_inv. rewrite Hnil in Hu. unfold ensure in Hu.
    rewrite bool_decide_false in Hu by (intros Hn; by apply Hn).
    destruct patterns; [done|discriminate].
  - intros x. rewrite elem_of_fromkeys, elem_of_concat_fmap.
    setoid_rewrite elem_of_image_block. split.
    + intros (files & Hfiles & f & Hf & ->). by exists files, f.
    + intros (files & f & Hfiles & Hf & ->). exists files. split; [done|]. by exists f.
  - intros ps ->. by apply resolve_images_ok in Hresolved.
Qed.

(** X7: The images of every definition that [load_ads] returns.  Where the
    definition names no images the field is left as it is.  Where it names
    patterns, every pattern was accepted by the glob library and all its
    matches have a supported extension; the field becomes the list of the
    paths of the matches, block by block in the order of the patterns and
    each block in ascending order, reduced to first occurrences: a list
    without repetition that is not empty when there is a pattern.  For
    patterns that are strings it is the list of C5. *)
Theorem loaded_images (self : KleinanzeigenBot) (store : file_store)
    ignore_inactive check_id (entries : list ad_entry) :
  load_ads self store ignore_inactive check_id = Ok entries →
  ∀ entry : ad_entry, entry ∈ entries →
    ∃ v, merge_defaults (ad_defaults (config self)) ad_fields entry.2 !! "images" = Some v
         ∧ if truthy v
           then ∃ patterns matches l,
                  iterate v = Ok patterns
                  ∧ Forall2 (matched_by entry.1.1) patterns matches
                  ∧ entry.1.2 !! "images" = Some (VList (VStr <$> l))
                  ∧ l = fromkeys (concat (image_block entry.1.1 <$> matches))
                  ∧ NoDup l
                  ∧ (patterns ≠ [] → l ≠ [])
                  ∧ (∀ x, x ∈ l ↔ ∃ files f, files ∈ matches ∧ f ∈ files
                                             ∧ x = image_path entry.1.1 f)
                  ∧ (∀ ps, patterns = VStr <$> ps →
                           l = fromkeys (concat (sorted_matches entry.1.1 <$> ps)))
           else entry.1.2 !! "images" = Some v.
Proof.
  unfold load_ads. intros H entry Hin.
  case_bool_decide; [injection H as <-; by apply elem_of_nil in Hin|].
  inv_bind H as descr_prefix Hp. inv_bind H as descr_suffix Hs.
  apply (load_each_invariant
           (λ entry : ad_entry,
              ∃ before, set_images entry.1.1 before = Ok entry.1.2
                ∧ before !! "images"
                  = merge_defaults (ad_defaults (config self)) ad_fields entry.2
                      !! "images")) in H.
  - rewrite Forall_forall in H. destruct (H _ Hin) as (before & Himg & Hsame).
    apply set_images_ok in Himg as (v & Hv & Hcase).
    exists v. split; [by rewrite <- Hsame|done].
  - intros now f raw e _ He.
    apply load_ad_steps in He as (composed & with_id & with_category & with_costs & _
      & Hcomposed & _ & Hid & Hcat & Hcosts & Himg & -> & ->).
    exists with_costs. split; [done|].
    rewrite (set_shipping_costs_lookup_ne _ _ _ Hcosts) by done.
    rewrite (set_category_lookup_ne _ _ _ _ Hcat) by done.
    rewrite (normalize_id_lookup_ne _ _ _ Hid) by done.
    by rewrite (compose_description_lookup_ne _ _ _ _ _ Hcomposed).
  - constructor.
Qed.

(** ** The round trip of publishing *)

Lemma merged_of_raw (ad_defaults0 ad_fields0 raw : dict) (key : string) (v : value) :
  raw !! key = Some v → eq_str v "" = false →
  merge_defaults ad_defaults0 ad_fields0 raw !! key = Some v.
Proof.
  intros Hraw Hne. rewrite merge_defaults_lookup, Hraw.
  unfold merged_field, never, override_empty.
  destruct (ad_defaults0 !! key) as [d|]; simpl.
  - destruct (ignore_description key d); rewrite ?Hne; by destruct (ad_fields0 !! key).
  - by destruct (ad_fields0 !! key).
Qed.

Lemma truthy_not_empty_str (v : value) : truthy v = true → eq_str v "" = false.
Proof. destruct v; try done. simpl. by destruct (String.eqb s ""). Qed.

Lemma age_days_le (now now' interval : Z) :
  (age_days now' now <=? interval)%Z
  = (now' <? now + (interval + 1) * MICROS_PER_DAY)%Z.
Proof.
  unfold age_days. assert (0 < MICROS_PER_DAY)%Z as Hpos by done.
  destruct (Z.ltb_spec now' (now + (interval + 1) * MICROS_PER_DAY)) as [Hlt|Hge].
  - apply Z.leb_le.
    assert ((now' - now) / MICROS_PER_DAY < interval + 1)%Z; [|lia].
    apply Z.div_lt_upper_bound; lia.
  - apply Z.leb_gt.
    assert (interval + 1 ≤ (now' - now) / MICROS_PER_DAY)%Z; [|lia].
    apply Z.div_le_lower_bound; lia.
Qed.

(** X8: Publishing restarts the clock of the selector [due].  After a successful
    [publish_ad] at the time [now], the file holds the raw definition with
    [updated_on] set to that time; when this file is loaded again under the
    selector [due], the ad is skipped as long as less than
    [republication_interval] + 1 days have passed since [now], and is due
    from then on.  This asks that the timestamp that is written can be read
    back. *)
Theorem published_ad_not_due (self later : KleinanzeigenBot) now now'
    (store store' : file_store) ad_file (ad_cfg raw ad_cfg' raw' : dict) interval :
  publish_ad self now store ad_file ad_cfg raw = Ok (ad_cfg', raw', store') →
  isoformat now ≠ "" →
  parse_datetime (VStr (isoformat now)) = Ok (Some now) →
  ads_selector later = "due" →
  merge_defaults (ad_defaults (config later)) ad_fields raw !! "republication_interval"
    = Some (VInt interval) →
  load_dict store' ad_file = Ok raw'
  ∧ skip_not_due later now' (merge_defaults (ad_defaults (config later)) ad_fields raw')
    = Ok (now' <? now + (interval + 1) * MICROS_PER_DAY)%Z
  ∧ ∀ ignore_inactive check_id descr_prefix descr_suffix,
      skip_inactive ignore_inactive
        (merge_defaults (ad_defaults (config later)) ad_fields raw') = Ok false →
      (now' < now + (interval + 1) * MICROS_PER_DAY)%Z →
      load_ad later ignore_inactive check_id now' descr_prefix descr_suffix ad_file raw'
      = Ok None.
Proof.
  intros H Hiso Hparse Hsel Hinterval.
  apply publish_ad_frame in H as (Hupdated & _ & Hframe & Hsaved).
  assert (Hdue : skip_not_due later now'
                   (merge_defaults (ad_defaults (config later)) ad_fields raw')
                 = Ok (now' <? now + (interval + 1) * MICROS_PER_DAY)%Z).
  { unfold skip_not_due, last_updated_on, getitem. rewrite Hsel. simpl.
    rewrite (merged_of_raw _ _ _ _ _ Hupdated).
    2:{ simpl. by apply String.eqb_neq. }
    simpl. apply String.eqb_neq in Hiso. rewrite Hiso. simpl. rewrite Hparse. simpl.
    rewrite merge_defaults_lookup, Hframe, <- merge_defaults_lookup, Hinterval by done.
    simpl. by rewrite age_days_le. }
  split; [unfold load_dict; by rewrite Hsaved|]. split; [done|].
  intros ignore_inactive check_id descr_prefix descr_suffix Hact Hlt.
  unfold load_ad, select. rewrite Hact. simpl.
  rewrite (skip_not_new_due _ _ _ Hsel). simpl. rewrite Hdue. simpl.
  apply Z.ltb_lt in Hlt. by rewrite Hlt.
Qed.

(** X9: [created_on] is written once.  When a file that holds a [created_on] is
    loaded and then published, the raw definition that is saved holds the
    same [created_on], with or without [--keep-old]. *)
Theorem created_on_kept (self : KleinanzeigenBot) ignore_inactive check_id loaded_at
    descr_prefix descr_suffix ad_file (raw : dict) (entry : ad_entry)
    now (store store' : file_store) (ad_cfg' raw' : dict) (created_on : value) :
  load_ad self ignore_inactive check_id loaded_at descr_prefix descr_suffix ad_file raw
    = Ok (Some entry) →
  raw !! "created_on" = Some created_on →
  truthy created_on = true →
  publish_ad self now store entry.1.1 entry.1.2 entry.2 = Ok (ad_cfg', raw', store') →
  raw' !! "created_on" = Some created_on
  ∧ store' !! ad_file = Some raw'.
Proof.
  intros Hload Hraw Ht Hpublish.
  apply load_ad_steps in Hload as (composed & with_id & with_category & with_costs & _
    & Hcomposed & _ & Hid & Hcat & Hcosts & Himg & Hfile & Horig).
  assert (Hresolved : entry.1.2 !! "created_on" = Some created_on).
  { rewrite (load_ad_lookup _ _ _ _ _ _ _ "created_on" Hid Hcat Hcosts Himg) by done.
    rewrite (compose_description_lookup_ne _ _ _ _ _ Hcomposed) by done.
    apply merged_of_raw; [done|]. by apply truthy_not_empty_str. }
  rewrite Hfile, Horig in Hpublish.
  apply publish_ad_ok in Hpublish
    as (ad_id & created_on' & first & -> & Hc & Hfirst & -> & _ & ->).
  assert (created_on' = created_on) as ->.
  { destruct (delete_old_ads self); [rewrite lookup_insert_ne in Hc by done|];
      rewrite Hresolved in Hc; by injection Hc. }
  destruct first.
  { destruct Hfirst as [Hf _]. destruct (Hf eq_refl) as [Hfalse _]. congruence. }
  split; [|by rewrite lookup_insert_eq].
  by rewrite !lookup_insert_ne.
Qed.

Lemma publish_ads_ok (self : KleinanzeigenBot) n (store store' : file_store)
    (ad_cfgs ad_cfgs' : list ad_entry) :
  publish_ads self n store ad_cfgs = Ok (ad_cfgs', store') →
  files_of ad_cfgs' = files_of ad_cfgs
  ∧ (∀ path, path ∉ files_of ad_cfgs → store' !! path = store !! path)
  ∧ (∀ (i : nat) (entry' : ad_entry), ad_cfgs' !! i = Some entry' →
       ∃ entry : ad_entry,
         ad_cfgs !! i = Some entry
         ∧ entry'.2 !! "updated_on" = Some (VStr (isoformat (utcnow (n + i))))
         ∧ (∃ ad_id, entry'.2 !! "id" = Some (VInt ad_id))
         ∧ (∀ key, managed_key key = false → entry'.2 !! key = entry.2 !! key)
         ∧ (entry'.1.1 ∉ drop (S i) (files_of ad_cfgs) →
            store' !! entry'.1.1 = Some entry'.2)).
Proof.
  revert n store ad_cfgs'.
  induction ad_cfgs as [|[[ad_file ad_cfg] ad_cfg_orig] rest IH];
    intros n store res H; simpl in H.
  - injection H as <- <-. split; [done|]. split; [done|].
    intros i entry' Hi. by rewrite lookup_nil in Hi.
  - inv_bind H as t Ht. inv_bind H as r Hr. inv_bind H as u Hu.
    inv_bind H as r' Hr'. injection H as <- <-.
    destruct r as [[ad_cfg' raw'] store1]. destruct r' as [rest' store2]. simpl in *.
    apply IH in Hr' as (Hfiles & Hother & Heach).
    pose proof (publish_ad_frame _ _ _ _ _ _ _ _ _ Hr)
      as (Hupdated & Hid & Hframe & Hsaved).
    apply publish_ad_ok in Hr as (_ & _ & _ & _ & _ & _ & _ & _ & Hstore).
    unfold files_of in *. rewrite ?fmap_cons. simpl. split; [by rewrite Hfiles|].
    split.
    + intros path [Hne Hnotin]%not_elem_of_cons.
      rewrite (Hother path Hnotin), Hstore. by rewrite lookup_insert_ne.
    + intros [|i] entry' Hi; simpl in Hi.
      * injection Hi as <-. simpl. exists (ad_file, ad_cfg, ad_cfg_orig).
        rewrite Nat.add_0_r. split; [done|]. split; [done|]. split; [done|].
        split.
        { intros key Hkey. unfold managed_key in Hkey.
          apply bool_decide_eq_false in Hkey.
          apply Hframe; intros ->; apply Hkey; rewrite !elem_of_cons; auto. }
        rewrite drop_0. intros Hnotin. by rewrite (Hother ad_file Hnotin).
      * destruct (Heach i entry' Hi) as (entry & He & Hu' & Hid' & Hkeys & Hs).
        exists entry. rewrite Nat.add_succ_r. simpl. done.
Qed.

(** X10: A successful run of [publish_ads] writes the files of its entries and no
    other file.  It returns the entries in their order, each with the raw
    definition as [publish_ad] left it: [updated_on] is the time of its
    publication, [id] the new identifier, and the fields other than [id],
    [created_on] and [updated_on] are as before.  Where no two entries share
    a file, as in the list that [load_ads] returns, every file holds the raw
    definition of its entry. *)
Theorem publish_ads_frame (self : KleinanzeigenBot) n (store store' : file_store)
    (ad_cfgs ad_cfgs' : list ad_entry) :
  publish_ads self n store ad_cfgs = Ok (ad_cfgs', store') →
  files_of ad_cfgs' = files_of ad_cfgs
  ∧ (∀ path, path ∉ files_of ad_cfgs → store' !! path = store !! path)
  ∧ (∀ (i : nat) (entry' : ad_entry), ad_cfgs' !! i = Some entry' →
       ∃ entry : ad_entry,
         ad_cfgs !! i = Some entry
         ∧ entry'.2 !! "updated_on" = Some (VStr (isoformat (utcnow (n + i))))
         ∧ (∃ ad_id, entry'.2 !! "id" = Some (VInt ad_id))
         ∧ (∀ key, managed_key key = false → entry'.2 !! key = entry.2 !! key))
  ∧ (NoDup (files_of ad_cfgs) →
     ∀ entry' : ad_entry, entry' ∈ ad_cfgs' → store' !! entry'.1.1 = Some entry'.2).
Proof.
  intros (Hfiles & Hother & Heach)%publish_ads_ok.
  split; [done|]. split; [done|]. split.
  - intros i entry' Hi. destruct (Heach i entry' Hi) as (entry & ? & ? & ? & ? & _).
    by exists entry.
  - intros Hnd entry' (i & Hi)%list_elem_of_lookup_1.
    destruct (Heach i entry' Hi) as (entry & He & _ & _ & _ & Hsaved).
    apply Hsaved. intros Hin.
    assert (files_of ad_cfgs !! i = Some entry'.1.1) as Hfile.
    { rewrite <- Hfiles. unfold files_of. by rewrite list_lookup_fmap, Hi. }
    rewrite <- (take_drop_middle _ _ _ Hfile) in Hnd.
    apply NoDup_app in Hnd as (_ & _ & Hnd). apply NoDup_cons in Hnd as [Hnotin _].
    done.
Qed.

(** ** The loops over the entries *)

Lemma publish_ads_cons (self : KleinanzeigenBot) n (store : file_store)
    (entry : ad_entry) (rest : list ad_entry) :
  publish_ads self n store (entry :: rest)
  = (r ← publish_entry self n store entry;
     r' ← publish_ads self (S n) r.2 rest;
     mret (r.1 :: r'.1, r'.2)).
Proof.
  destruct entry as [[ad_file ad_cfg] ad_cfg_orig]. unfold publish_entry. simpl.
  destruct (getitem ad_cfg "title"); simpl; [|done].
  destruct (publish_ad _ _ _ _ _ _); simpl; [|done].
  by destruct web_await_checking_done.
Qed.

Lemma publish_ads_app (self : KleinanzeigenBot) n (store : file_store)
    (first second : list ad_entry) :
  publish_ads self n store (first ++ second)
  = (r ← publish_ads self n store first;
     r' ← publish_ads self (n + length first) r.2 second;
     mret (r.1 ++ r'.1, r'.2)%list).
Proof.
  revert n store. induction first as [|entry first IH]; intros n store.
  - simpl. rewrite Nat.add_0_r. by destruct (publish_ads self n store second) as [[]|].
  - rewrite <- app_comm_cons, !publish_ads_cons.
    destruct (publish_entry self n store entry) as [[entry' store1]|]; simpl; [|done].
    rewrite IH, Nat.add_succ_r. simpl.
    destruct (publish_ads self (S n) store1 first) as [[first' store2]|]; simpl; [|done].
    by destruct (publish_ads self (S (n + length first)) store2 second) as [[]|].
Qed.

(** X11: [publish_ads] runs over its entries in their order, the file store and
    the clock passing from one to the next: publishing a list is publishing
    a first part and then, from what that leaves, the rest.  It stops at the
    first entry on which the title is missing, [publish_ad] raises or the
    wait for the check raises: what that entry raises is raised, and the
    entries after it are not published. *)
Theorem publish_ads_aborts (self : KleinanzeigenBot) n (store : file_store) :
  (∀ first second,
     publish_ads self n store (first ++ second)
     = (r ← publish_ads self n store first;
        r' ← publish_ads self (n + length first) r.2 second;
        mret (r.1 ++ r'.1, r'.2)%list))
  ∧ (∀ before entry after before' store' e,
       publish_ads self n store before = Ok (before', store') →
       publish_entry self (n + length before) store' entry = Raise e →
       publish_ads self n store (before ++ entry :: after) = Raise e)
  ∧ (∀ before after e,
       publish_ads self n store before = Raise e →
       publish_ads self n store (before ++ after) = Raise e).
Proof.
  split; [apply publish_ads_app|]. split.
  - intros before entry after before' store' e Hbefore Hentry.
    rewrite publish_ads_app, Hbefore. cbn [mbind result_bind fst snd].
    by rewrite publish_ads_cons, Hentry.
  - intros before after e Hbefore. by rewrite publish_ads_app, Hbefore.
Qed.

Lemma delete_ads_cons (self : KleinanzeigenBot) (entry : ad_entry)
    (rest : list ad_entry) :
  delete_ads self (entry :: rest)
  = (entry' ← delete_entry self entry;
     rest' ← delete_ads self rest;
     mret (entry' :: rest')).
Proof.
  destruct entry as [[ad_file ad_cfg] ad_cfg_orig]. unfold delete_entry. simpl.
  destruct (getitem ad_cfg "title"); simpl; [|done].
  by destruct (delete_ad self ad_cfg).
Qed.

Lemma delete_ads_app (self : KleinanzeigenBot) (first second : list ad_entry) :
  delete_ads self (first ++ second)
  = (first' ← delete_ads self first;
     second' ← delete_ads self second;
     mret (first' ++ second')%list).
Proof.
  induction first as [|entry first IH].
  - simpl. by destruct (delete_ads self second).
  - rewrite <- app_comm_cons, !delete_ads_cons.
    destruct (delete_entry self entry) as [entry'|]; simpl; [|done].
    rewrite IH. destruct (delete_ads self first) as [first'|]; simpl; [|done].
    by destruct (delete_ads self second).
Qed.

(** X12: [delete_ads] stops at the first entry whose title is missing or on
    which the request of [delete_ad] fails: what that entry raises is raised,
    whatever the entries after it are; and deleting a list is deleting a
    first part and then the rest. *)
Theorem delete_ads_aborts (self : KleinanzeigenBot) :
  (∀ first second,
     delete_ads self (first ++ second)
     = (first' ← delete_ads self first;
        second' ← delete_ads self second;
        mret (first' ++ second')%list))
  ∧ (∀ before entry after e,
       is_ok (delete_ads self before) = true →
       delete_entry self entry = Raise e →
       delete_ads self (before ++ entry :: after) = Raise e)
  ∧ (∀ before after e,
       delete_ads self before = Raise e →
       delete_ads self (before ++ after) = Raise e).
Proof.
  split; [apply delete_ads_app|]. split.
  - intros before entry after e Hbefore Hentry. rewrite delete_ads_app.
    destruct (delete_ads self before) as [before'|]; [|discriminate].
    cbn [mbind result_bind]. by rewrite delete_ads_cons, Hentry.
  - intros before after e Hbefore. by rewrite delete_ads_app, Hbefore.
Qed.

(** ** The command line *)

Lemma parse_options_app (self : Cli) (first second : list (string * string)) :
  parse_options self (first ++ second)
  = match parse_options self first with
    | Continue self' => parse_options self' second
    | SystemExit code => SystemExit code
    end.
Proof.
  revert self. induction first as [|[o v] first IH]; intros self; simpl; [done|].
  by destruct (parse_option self o v).
Qed.

Lemma parse_option_help (self : Cli) (o v : string) :
  parse_option self o v
  = if is_help (o, v) then SystemExit 0
    else Continue (default_or self
                     (match parse_option self o v with
                      | Continue self' => Some self'
                      | SystemExit _ => None
                      end)).
Proof.
  unfold parse_option, is_help. simpl.
  destruct (String.eqb o "-h" || String.eqb o "--help"); [done|].
  repeat match goal with |- context [if ?b then _ else _] => destruct b end; done.
Qed.

Lemma parse_options_exit (self : Cli) (options : list (string * string)) :
  if existsb is_help options
  then parse_options self options = SystemExit 0
  else ∃ self', parse_options self options = Continue self'.
Proof.
  revert self. induction options as [|[o v] rest IH]; intros self; simpl.
  - by exists self.
  - rewrite parse_option_help. destruct (is_help (o, v)); simpl; [done|]. apply IH.
Qed.

(** X13: How [parse_args] ends the program.  Options that are not known end it
    with the code 2; if not, an option [-h] or [--help] anywhere among the
    options ends it with the code 0, whatever the other options and however
    many commands are given; if not, it is ended, with the code 2, exactly
    when more than one command is given. *)
Theorem parse_args_exit (self : Cli) (args : list string) (code : Z) :
  parse_args self args = SystemExit code
  ↔ match gnu_getopt (drop 1 args) with
    | None => code = 2%Z
    | Some (options, arguments) =>
        if existsb is_help options then code = 0%Z
        else code = 2%Z ∧ (2 ≤ length arguments)%nat
    end.
Proof.
  unfold parse_args. destruct (gnu_getopt (drop 1 args)) as [[options arguments]|].
  2:{ split; [by intros [= <-]|by intros ->]. }
  pose proof (parse_options_exit self options) as Hexit.
  destruct (existsb is_help options).
  - rewrite Hexit. split; [by intros [= <-]|by intros ->].
  - destruct Hexit as [self' ->].
    destruct arguments as [|a [|b rest]]; simpl.
    + split; [discriminate|]. intros [_ ?]. lia.
    + split; [discriminate|]. intros [_ ?]. lia.
    + split; [intros [= <-]; split; [done|lia]|]. by intros [-> _].
Qed.

Lemma parse_option_selector (self self' : Cli) (o v : string) :
  parse_option self o v = Continue self' →
  ads_selector (cli_bot self')
  = if String.eqb o "--ads" then lower (strip v)
    else if String.eqb o "--force" then "all"
    else ads_selector (cli_bot self).
Proof.
  unfold parse_option.
  destruct (String.eqb_spec o "-h") as [->|?]; [discriminate|].
  destruct (String.eqb_spec o "--help") as [->|?]; [discriminate|]. simpl.
  destruct (String.eqb_spec o "--config") as [->|?]; [by intros [= <-]|].
  destruct (String.eqb_spec o "--logfile") as [->|?]; [by intros [= <-]|].
  destruct (String.eqb_spec o "--ads") as [->|?]; [by intros [= <-]|].
  destruct (String.eqb_spec o "--force") as [->|?]; [by intros [= <-]|].
  destruct (String.eqb_spec o "--keep-old") as [->|?]; [by intros [= <-]|].
  destruct (String.eqb o "-v" || String.eqb o "--verbose"); by intros [= <-].
Qed.

Lemma parse_options_selector_kept (self self' : Cli) (options : list (string * string)) :
  parse_options self options = Continue self' →
  Forall (λ o, sets_selector o = false) options →
  ads_selector (cli_bot self') = ads_selector (cli_bot self).
Proof.
  revert self. induction options as [|[o v] rest IH]; intros self H Hall; simpl in H.
  - by injection H as <-.
  - apply Forall_cons in Hall as [Ho Hall].
    destruct (parse_option self o v) as [self1|] eqn:H1; [|discriminate].
    rewrite (IH _ H Hall), (parse_option_selector _ _ _ _ H1).
    unfold sets_selector in Ho. simpl in Ho. apply orb_false_iff in Ho as [-> ->]. done.
Qed.

(** X14: The selector after [parse_args]: the last of the options [--ads] and
    [--force] decides.  Without such an option the selector is left as it
    was; where the last one is [--ads] the selector is its value, stripped
    and in lower case, whatever it is; where the last one is [--force] the
    selector is [all]. *)
Theorem parse_args_selector (self self' : Cli) (args : list string)
    (options : list (string * string)) (arguments : list string) :
  gnu_getopt (drop 1 args) = Some (options, arguments) →
  parse_args self args = Continue self' →
  (Forall (λ o, sets_selector o = false) options →
   ads_selector (cli_bot self') = ads_selector (cli_bot self))
  ∧ (∀ before o v after,
       options = (before ++ (o, v) :: after)%list →
       sets_selector (o, v) = true →
       Forall (λ o, sets_selector o = false) after →
       ads_selector (cli_bot self')
       = if String.eqb o "--ads" then lower (strip v) else "all").
Proof.
  unfold parse_args. intros -> H.
  destruct (parse_options self options) as [self1|] eqn:Hoptions; [|discriminate].
  assert (ads_selector (cli_bot self') = ads_selector (cli_bot self1)) as ->.
  { destruct arguments as [|a [|b rest]]; [by injection H as <-..|discriminate]. }
  clear H. split; [by apply parse_options_selector_kept|].
  intros before o v after -> Ho Hafter.
  rewrite parse_options_app in Hoptions.
  destruct (parse_options self before) as [self2|]; [|discriminate].
  simpl in Hoptions.
  destruct (parse_option self2 o v) as [self3|] eqn:H3; [|discriminate].
  rewrite (parse_options_selector_kept _ _ _ Hoptions Hafter).
  rewrite (parse_option_selector _ _ _ _ H3).
  unfold sets_selector in Ho. simpl in Ho.
  destruct (String.eqb o "--ads"); [done|]. simpl in Ho. by rewrite Ho.
Qed.

Lemma parse_option_kept (self self' : Cli) (o v : string) :
  parse_option self o v = Continue self' →
  delete_ads_by_title (cli_bot self') = delete_ads_by_title (cli_bot self)
  ∧ config (cli_bot self') = config (cli_bot self)
  ∧ categories (cli_bot self') = categories (cli_bot self)
  ∧ command self' = command self
  ∧ delete_old_ads (cli_bot self')
    = delete_old_ads (cli_bot self) && negb (is_keep_old (o, v)).
Proof.
  unfold parse_option, is_keep_old.
  destruct (String.eqb_spec o "-h") as [->|?]; [discriminate|].
  destruct (String.eqb_spec o "--help") as [->|?]; [discriminate|]. simpl.
  destruct (String.eqb_spec o "--config") as [->|?];
    [intros [= <-]; simpl; by rewrite andb_true_r|].
  destruct (String.eqb_spec o "--logfile") as [->|?];
    [intros [= <-]; simpl; by rewrite andb_true_r|].
  destruct (String.eqb_spec o "--ads") as [->|?];
    [intros [= <-]; simpl; by rewrite andb_true_r|].
  destruct (String.eqb_spec o "--force") as [->|?];
    [intros [= <-]; simpl; by rewrite andb_true_r|].
  destruct (String.eqb_spec o "--keep-old") as [->|?];
    [intros [= <-]; simpl; by rewrite andb_false_r|].
  destruct (String.eqb o "-v" || String.eqb o "--verbose");
    intros [= <-]; simpl; by rewrite andb_true_r.
Qed.

(** X15: What the command line cannot do.  No option sets [delete_ads_by_title],
    the configuration or the categories; [delete_old_ads] is never switched
    on: after [parse_args] it holds exactly when it held before and
    [--keep-old] is not among the options.  The command is always assigned:
    it is the one argument that is given, and [help] without one, whatever
    it was before. *)
Theorem parse_args_kept (self self' : Cli) (args : list string)
    (options : list (string * string)) (arguments : list string) :
  gnu_getopt (drop 1 args) = Some (options, arguments) →
  parse_args self args = Continue self' →
  delete_ads_by_title (cli_bot self') = delete_ads_by_title (cli_bot self)
  ∧ config (cli_bot self') = config (cli_bot self)
  ∧ categories (cli_bot self') = categories (cli_bot self)
  ∧ delete_old_ads (cli_bot self')
    = delete_old_ads (cli_bot self) && negb (existsb is_keep_old options)
  ∧ command self' = match arguments with [] => "help" | argument :: _ => argument end
  ∧ (length arguments ≤ 1)%nat.
Proof.
  unfold parse_args. intros -> H.
  destruct (parse_options self options) as [self1|] eqn:Hoptions; [|discriminate].
  assert (delete_ads_by_title (cli_bot self1) = delete_ads_by_title (cli_bot self)
          ∧ config (cli_bot self1) = config (cli_bot self)
          ∧ categories (cli_bot self1) = categories (cli_bot self)
          ∧ delete_old_ads (cli_bot self1)
            = delete_old_ads (cli_bot self) && negb (existsb is_keep_old options))
    as (Htitle & Hconfig & Hcategories & Hold).
  { clear H. revert self Hoptions.
    induction options as [|[o v] rest IH]; intros self H; simpl in H.
    - injection H as <-. simpl. by rewrite andb_true_r.
    - destruct (parse_option self o v) as [self2|] eqn:H2; [|discriminate].
      apply parse_option_kept in H2 as (Ht & Hc & Hcat & _ & Ho).
      destruct (IH _ H) as (Ht' & Hc' & Hcat' & Ho').
      rewrite Ht', Hc', Hcat', Ho', Ht, Hc, Hcat, Ho. simpl.
      split; [done|]. split; [done|]. split; [done|].
      by rewrite negb_orb, andb_assoc. }
  destruct arguments as [|a [|b rest]]; [injection H as <-..|discriminate]; simpl.
  - do 4 (split; [done|]). split; [done|lia].
  - do 4 (split; [done|]). split; [done|lia].
Qed.

(** ** Filling in the form *)

Lemma ignore_no_such_element_fail (steps : web unit) (w w' : World) (e : error) :
  steps w = (w', Fail e) → e ≠ NoSuchElementException →
  ignore_no_such_element steps w = (w', Fail e).
Proof. unfold ignore_no_such_element. intros -> He. by destruct e. Qed.

Lemma ignore_no_such_element_never (steps : web unit) (w : World) :
  (ignore_no_such_element steps w).2 ≠ Fail NoSuchElementException.
Proof.
  unfold ignore_no_such_element. destruct (steps w) as [w' [[]|e]]; [done|].
  by destruct e.
Qed.

Lemma mapped_shipping_options_cons (name : string) (names : list string) :
  mapped_shipping_options (VStr <$> name :: names)
  = match shipping_option_mapping name with
    | Some mapped =>
        match mapped_shipping_options (VStr <$> names) with
        | Done mapped_rest => Done (mapped :: mapped_rest)
        | Fail e => Fail e
        end
    | None => Fail UnknownShippingOptions
    end.
Proof. done. Qed.

Lemma mapped_shipping_options_unknown (names : list string) :
  Exists (λ name, shipping_option_mapping name = None) names →
  mapped_shipping_options (VStr <$> names) = Fail UnknownShippingOptions.
Proof.
  induction names as [|name names IH]; intros Hex; [by apply Exists_nil in Hex|].
  rewrite mapped_shipping_options_cons.
  apply Exists_cons in Hex as [Hname|Hrest].
  - by rewrite Hname.
  - rewrite (IH Hrest). by destruct (shipping_option_mapping name).
Qed.

Lemma mapped_shipping_options_known (names : list string) :
  Forall (λ name, is_Some (shipping_option_mapping name)) names →
  mapped_shipping_options (VStr <$> names) = Done (omap shipping_option_mapping names).
Proof.
  induction 1 as [|name names [mapped Hname] _ IH]; [done|].
  rewrite mapped_shipping_options_cons, IH. simpl. by rewrite Hname.
Qed.

Lemma omap_cons_Some {A B} (f : A → option B) (x : A) (y : B) (l : list A) :
  f x = Some y → omap f (x :: l) = y :: omap f l.
Proof. intros H. cbn. by rewrite H. Qed.

Lemma shipping_sizes_of (names : list string) :
  Forall (λ name, is_Some (shipping_option_mapping name)) names →
  (omap shipping_option_mapping names).*1 = omap shipping_size names
  ∧ (omap shipping_option_mapping names).*2 = shipping_packages_of names.
Proof.
  unfold shipping_packages_of.
  induction 1 as [|name names [mapped Hname] _ [IH1 IH2]]; [done|].
  rewrite (omap_cons_Some _ _ _ _ Hname), !fmap_cons, IH1, IH2.
  rewrite (omap_cons_Some shipping_size name mapped.1)
    by (unfold shipping_size; by rewrite Hname).
  rewrite (omap_cons_Some (λ name, snd <$> shipping_option_mapping name) name mapped.2)
    by (by rewrite Hname).
  done.
Qed.

Lemma two_sizes (sizes : list string) (a b : string) :
  a ∈ sizes → b ∈ sizes → a ≠ b → (1 < size (list_to_set sizes : gset string))%nat.
Proof.
  intros Ha Hb Hne.
  assert (({[a]} ∪ {[b]} : gset string) ⊆ list_to_set sizes) as Hsub.
  { intros x [->%elem_of_singleton| ->%elem_of_singleton]%elem_of_union;
      by apply elem_of_list_to_set. }
  apply subseteq_size in Hsub. rewrite size_union, !size_singleton in Hsub; [lia|].
  intros x ->%elem_of_singleton ->%elem_of_singleton. done.
Qed.

Lemma one_size (sizes : list string) (a : string) :
  sizes ≠ [] → Forall (λ x, x = a) sizes → (list_to_set sizes : gset string) = {[a]}.
Proof.
  intros Hne Hall. apply set_eq. intros x.
  rewrite elem_of_list_to_set, elem_of_singleton. rewrite Forall_forall in Hall. split.
  - apply Hall.
  - intros ->. destruct sizes as [|y sizes]; [done|].
    rewrite (Hall y) by left. left.
Qed.

(** X16: [__set_shipping_options] on a list of option names.  The options are
    checked before the form is touched: a name that is not in the table
    raises the KeyError of line 645, also when the sizes differ as well; an
    empty list, and names of the table for two package sizes, raise a
    ValueError; in these cases the browser is as it was.  Where all names
    are in the table and of one size, the steps are a click on the radio
    button of that size, a click on the checkbox of each option in the order
    of the list, and a click on the button to go on.  The call never raises
    a NoSuchElementException. *)
Theorem shipping_options_checked (ad_cfg : dict) (names : list string) (w : World) :
  ad_cfg !! "shipping_options" = Some (VList (VStr <$> names)) →
  (Exists (λ name, shipping_option_mapping name = None) names →
   set_shipping_options ad_cfg w = (w, Fail UnknownShippingOptions))
  ∧ (names = [] → set_shipping_options ad_cfg w = (w, Fail (Py ValueError)))
  ∧ (Forall (λ name, is_Some (shipping_option_mapping name)) names →
     ∀ a b, a ∈ names → b ∈ names → shipping_size a ≠ shipping_size b →
       set_shipping_options ad_cfg w = (w, Fail (Py ValueError)))
  ∧ (∀ size, names ≠ [] →
       Forall (λ name, shipping_size name = Some size) names →
       set_shipping_options ad_cfg w
       = ignore_no_such_element
           (web_click XPATH (shipping_size_xpath size);;
            click_shipping_packages (shipping_packages_of names);;
            web_click XPATH continue_xpath) w)
  ∧ (set_shipping_options ad_cfg w).2 ≠ Fail NoSuchElementException.
Proof.
  intros Hoptions.
  assert (Hsteps : ∀ rest : list (string * string) → web unit,
    ignore_no_such_element (
      shipping_options ← pure (outcome_of (getitem ad_cfg "shipping_options"));
      options ← pure (outcome_of (iterate shipping_options));
      mapped ← pure (mapped_shipping_options options);
      rest mapped) w
    = ignore_no_such_element (
        mapped ← pure (mapped_shipping_options (VStr <$> names));
        rest mapped) w).
  { intros rest. unfold ignore_no_such_element, getitem, mbind, web_bind, pure.
    rewrite Hoptions. done. }
  unfold set_shipping_options. rewrite Hsteps. clear Hsteps.
  split; [|split; [|split; [|split]]].
  - intros Hex. rewrite (mapped_shipping_options_unknown _ Hex). done.
  - intros ->. done.
  - intros Hknown a b Ha Hb Hne.
    rewrite (mapped_shipping_options_known _ Hknown).
    destruct (shipping_sizes_of _ Hknown) as [Hsizes _].
    unfold ignore_no_such_element, mbind, web_bind, pure, unzip_shipping_options.
    destruct (omap shipping_option_mapping names) as [|m ms] eqn:Hm; [done|].
    cbn [fst snd]. rewrite Hsizes.
    rewrite Forall_forall in Hknown.
    destruct (Hknown a Ha) as [ma Hma]. destruct (Hknown b Hb) as [mb Hmb].
    assert (1 < size (list_to_set (omap shipping_size names) : gset string))%nat as Hlt.
    { apply (two_sizes _ ma.1 mb.1).
      - apply list_elem_of_omap. exists a. unfold shipping_size. by rewrite Hma.
      - apply list_elem_of_omap. exists b. unfold shipping_size. by rewrite Hmb.
      - intros Heq. apply Hne. unfold shipping_size. rewrite Hma, Hmb. simpl.
        by rewrite Heq. }
    apply Nat.ltb_lt in Hlt. by rewrite Hlt.
  - intros size0 Hne Hsame.
    assert (Hknown : Forall (λ name, is_Some (shipping_option_mapping name)) names).
    { eapply Forall_impl; [exact Hsame|]. intros name Hname. unfold shipping_size in Hname.
      destruct (shipping_option_mapping name); [by eexists|discriminate]. }
    rewrite (mapped_shipping_options_known _ Hknown).
    destruct (shipping_sizes_of _ Hknown) as [Hsizes Hpackages].
    unfold ignore_no_such_element at 1. unfold mbind at 1. unfold web_bind at 1.
    unfold pure at 1. unfold mbind at 1. unfold web_bind at 1. unfold pure at 1.
    unfold unzip_shipping_options.
    destruct (omap shipping_option_mapping names) as [|m ms] eqn:Hm.
    { destruct names as [|name names]; [done|]. apply Forall_cons in Hknown as [[? Hk] _].
      simpl in Hm. rewrite Hk in Hm. discriminate. }
    cbn [fst snd]. rewrite Hsizes, Hpackages.
    rewrite (one_size _ size0).
    + rewrite size_singleton, elements_singleton. done.
    + destruct names as [|name names]; [done|]. apply Forall_cons in Hsame as [Hs _].
      simpl. by rewrite Hs.
    + rewrite Forall_forall. intros x (name & Hin & Hx)%list_elem_of_omap.
      rewrite Forall_forall in Hsame. rewrite (Hsame name Hin) in Hx. by injection Hx.
  - apply ignore_no_such_element_never.
Qed.

(** X17: What the shipping step reads.  For an ad to be picked up the step is
    the click on the pickup button, whatever the shipping options and costs
    are: they are not looked at.  For any other shipping type with shipping
    options the step is [__set_shipping_options], whatever the shipping
    costs are. *)
Theorem set_shipping_reads (ad_cfg : dict) (w : World) :
  (ad_cfg !! "shipping_type" = Some (VStr "PICKUP") →
   ∀ other : dict, other !! "shipping_type" = Some (VStr "PICKUP") →
     set_shipping other w = set_shipping ad_cfg w)
  ∧ (∀ shipping_type shipping_options,
       ad_cfg !! "shipping_type" = Some shipping_type →
       eq_str shipping_type "PICKUP" = false →
       ad_cfg !! "shipping_options" = Some shipping_options →
       truthy shipping_options = true →
       set_shipping ad_cfg w = set_shipping_options ad_cfg w
       ∧ ∀ shipping_costs,
           set_shipping (<["shipping_costs" := shipping_costs]> ad_cfg) w
           = set_shipping ad_cfg w).
Proof.
  unfold set_shipping, getitem, mbind, web_bind, pure. split.
  - intros Hpickup other Hother. by rewrite Hpickup, Hother.
  - intros shipping_type shipping_options Htype Hnot Hoptions Htruthy.
    rewrite Htype. simpl. rewrite Hnot, Hoptions. simpl. rewrite Htruthy.
    split; [done|]. intros shipping_costs.
    rewrite !lookup_insert_ne by done. rewrite Htype. simpl. rewrite Hnot, Hoptions.
    simpl. rewrite Htruthy.
    unfold set_shipping_options, getitem, mbind, web_bind, pure, ignore_no_such_element.
    by rewrite !lookup_insert_ne by done.
Qed.

(** X18: The switch for the direct sale ends in the position that the ad asks
    for.  The ad asks for it to be on exactly when [sell_directly] is set,
    the shipping type is [SHIPPING], shipping options are given and the
    price type is [FIXED] or [NEGOTIABLE].  Where the switch is on the page,
    reading it leaves the page as it is and a click on its slider turns it
    over, the step clicks only when the position differs, and afterwards the
    switch is on exactly when the ad asks for it.  Where the switch is not on
    the page, the step does nothing. *)
Theorem buy_now_toggle (ad_cfg : dict) (sell_directly price_type : value)
    (wanted : bool) (w : World) :
  ad_cfg !! "sell_directly" = Some sell_directly →
  wants_buy_now ad_cfg sell_directly price_type = Ok wanted →
  (∀ selected w',
     is_selected ID "buy-now-toggle" w = (w, Done selected) →
     web_click XPATH buy_now_slider_xpath w = (w', Done tt) →
     is_selected ID "buy-now-toggle" w' = (w', Done (negb selected)) →
     ∃ after,
       set_sell_directly ad_cfg price_type w = (after, Done tt)
       ∧ is_selected ID "buy-now-toggle" after = (after, Done wanted)
       ∧ after = (if bool_decide (selected = wanted) then w else w'))
  ∧ (∀ w', is_selected ID "buy-now-toggle" w = (w', Fail NoSuchElementException) →
           set_sell_directly ad_cfg price_type w = (w', Done tt))
  ∧ (wanted = true
     ↔ truthy sell_directly = true
       ∧ ad_cfg !! "shipping_type" = Some (VStr "SHIPPING")
       ∧ (∃ shipping_options, ad_cfg !! "shipping_options" = Some shipping_options
                              ∧ truthy shipping_options = true)
       ∧ ∃ s, price_type = VStr s ∧ s ∈ ["FIXED"; "NEGOTIABLE"]).
Proof.
  intros Hsell Hwanted.
  assert (Hrun : set_sell_directly ad_cfg price_type w
    = ignore_no_such_element (
        selected ← is_selected ID "buy-now-toggle";
        if wanted
        then (if negb selected then web_click XPATH buy_now_slider_xpath else mret tt)
        else (if selected : bool then web_click XPATH buy_now_slider_xpath else mret tt))
        w).
  { unfold set_sell_directly, getitem, ignore_no_such_element, mbind, web_bind, pure.
    rewrite Hsell. simpl. by rewrite Hwanted. }
  split; [|split].
  - intros selected w' Hread Hclick Hflipped. rewrite Hrun.
    unfold ignore_no_such_element, mbind, web_bind. rewrite Hread.
    destruct wanted, selected; simpl; rewrite ?Hclick; eauto.
  - intros w' Hmissing. rewrite Hrun.
    unfold ignore_no_such_element, mbind, web_bind. by rewrite Hmissing.
  - unfold wants_buy_now, getitem in Hwanted. split.
    + intros ->. destruct (truthy sell_directly); [|discriminate].
      split; [done|].
      destruct (ad_cfg !! "shipping_type") as [shipping_type|]; [|discriminate].
      simpl in Hwanted.
      destruct shipping_type as [| | |s| | |]; simpl in Hwanted; try discriminate.
      destruct (String.eqb s "SHIPPING") eqn:Heq; [|discriminate].
      apply String.eqb_eq in Heq as ->. split; [done|].
      destruct (ad_cfg !! "shipping_options") as [shipping_options|]; [|discriminate].
      simpl in Hwanted. destruct (truthy shipping_options) eqn:Ht; [|discriminate].
      split; [by exists shipping_options|].
      destruct price_type as [| | |s| | |]; simpl in Hwanted; try discriminate.
      exists s. split; [done|]. injection Hwanted as Hin.
      by apply bool_decide_eq_true in Hin.
    + intros (Hs & Htype & (shipping_options & Hoptions & Ht) & (s & -> & Hin)).
      rewrite Hs, Htype in Hwanted. simpl in Hwanted.
      rewrite Hoptions in Hwanted. simpl in Hwanted. rewrite Ht in Hwanted.
      simpl in Hwanted. rewrite bool_decide_true in Hwanted by done.
      by injection Hwanted.
Qed.

(** ** Downloading ads *)

Lemma load_ad_new_unchecked (self : KleinanzeigenBot) now descr_prefix descr_suffix
    ad_file (raw : dict) (r : option ad_entry) :
  ads_selector self = "new" →
  load_ad self false false now descr_prefix descr_suffix ad_file raw = Ok r →
  ∃ entry : ad_entry, r = Some entry ∧ entry.1.1 = ad_file ∧ entry.2 = raw.
Proof.
  intros Hsel H. destruct r as [entry|].
  - apply load_ad_id in H as (? & ? & _). by exists entry.
  - unfold load_ad, select, skip_not_new, skip_not_due in H. rewrite Hsel in H.
    simpl in H.
    destruct (getitem _ "id") as [id|]; simpl in H; [|discriminate].
    rewrite andb_false_r in H. simpl in H.
    inv_bind H as composed Hc. inv_bind H as u Hu. inv_bind H as a1 H1.
    inv_bind H as a2 H2. inv_bind H as a3 H3. inv_bind H as a4 H4. discriminate.
Qed.

Lemma load_each_new_unchecked (self : KleinanzeigenBot) (store : file_store)
    descr_prefix descr_suffix files n ads entries :
  ads_selector self = "new" →
  load_each self store false false descr_prefix descr_suffix files n ads = Ok entries →
  files_of entries = (files_of ads ++ files)%list
  ∧ (Forall (λ entry : ad_entry, load_dict store entry.1.1 = Ok entry.2) ads →
     Forall (λ entry : ad_entry, load_dict store entry.1.1 = Ok entry.2) entries).
Proof.
  intros Hsel. revert n ads. induction files as [|f rest IH]; intros n ads H; simpl in H.
  - injection H as <-. by rewrite app_nil_r.
  - inv_bind H as raw Hraw. inv_bind H as r Hr.
    apply (load_ad_new_unchecked _ _ _ _ _ _ _ Hsel) in Hr as (entry & -> & Hf & Hr).
    apply IH in H as [Hfiles Hloaded]. split.
    + rewrite Hfiles. unfold files_of. rewrite fmap_app, <- app_assoc. simpl.
      by rewrite Hf.
    + intros Hads. apply Hloaded. apply Forall_app. split; [done|].
      constructor; [|constructor]. by rewrite Hf, Hr.
Qed.

Lemma saved_ad_ids_ok (ads : list ad_entry) (ids : list Z) :
  saved_ad_ids ads = Ok ids →
  Forall (λ entry : ad_entry,
            ∃ id n, entry.2 !! "id" = Some id ∧ py_int int_of_str id = Ok n) ads.
Proof.
  revert ids. induction ads as [|entry rest IH]; intros ids H; [constructor|].
  simpl in H. inv_bind H as id Hid. inv_bind H as n Hn. inv_bind H as ids' Hids.
  constructor; [|by eapply IH]. apply getitem_ok in Hid. by exists id, n.
Qed.

Lemma start_download_routine_new (self : KleinanzeigenBot) (store : file_store)
    (w : World) :
  ads_selector self = "new" →
  start_download_routine self store w
  = (refs ← extract_own_ads_references;
     ids ← pure (ref_ad_ids refs);
     ads ← pure (outcome_of (load_ads self store false false));
     saved ← pure (outcome_of (saved_ad_ids ads));
     download_new (zip refs ids) saved) w.
Proof. intros Hsel. unfold start_download_routine. by rewrite Hsel. Qed.

(** X19: Downloading the ads that are not saved yet ([--ads=new]) loads every
    discovered ad file: nothing is skipped, inactive ads and ads with an
    [id] included.  So the download only runs when every discovered file can
    be read, passes the checks and holds an [id] that [int] accepts; an ad
    file without an [id] (an ad that was never published) makes it raise,
    after the references were read from the profile and before any ad page
    is opened. *)
Theorem download_new_requires_ids (self : KleinanzeigenBot) (store : file_store)
    (w : World) :
  ads_selector self = "new" →
  (∀ entries, load_ads self store false false = Ok entries →
     files_of entries = sorted (discover_ad_files self))
  ∧ (∀ w', start_download_routine self store w = (w', Done tt) →
       ∀ f, f ∈ discover_ad_files self →
         ∃ raw id n, load_dict store f = Ok raw ∧ raw !! "id" = Some id
                     ∧ py_int int_of_str id = Ok n)
  ∧ (∀ w1 refs ids e,
       extract_own_ads_references w = (w1, Done refs) →
       ref_ad_ids refs = Done ids →
       (ads ← load_ads self store false false; saved_ad_ids ads) = Raise e →
       start_download_routine self store w = (w1, Fail (Py e))).
Proof.
  intros Hsel.
  assert (Hall : ∀ entries, load_ads self store false false = Ok entries →
            files_of entries = sorted (discover_ad_files self)
            ∧ Forall (λ entry : ad_entry, load_dict store entry.1.1 = Ok entry.2) entries).
  { unfold load_ads. intros entries H. case_bool_decide as Hempty.
    - injection H as <-. rewrite Hempty. split; [|constructor].
      unfold sorted. by rewrite elements_empty.
    - inv_bind H as p Hp. inv_bind H as s Hs.
      apply (load_each_new_unchecked _ _ _ _ _ _ _ _ Hsel) in H as [Hfiles Hloaded].
      split; [done|]. apply Hloaded. constructor. }
  split; [intros entries H; by apply Hall|]. split.
  - intros w' H f Hf. rewrite (start_download_routine_new _ _ _ Hsel) in H.
    unfold mbind, web_bind, pure in H.
    destruct (extract_own_ads_references w) as [w1 [refs|e]]; [|discriminate].
    destruct (ref_ad_ids refs) as [ids|e]; [|discriminate].
    destruct (load_ads self store false false) as [entries|e] eqn:Hload; [|discriminate].
    simpl in H.
    destruct (saved_ad_ids entries) as [saved|e] eqn:Hsaved; [|discriminate].
    destruct (Hall _ eq_refl) as [Hfiles Hloaded].
    apply saved_ad_ids_ok in Hsaved.
    assert (f ∈ files_of entries) as Hin by (rewrite Hfiles; by apply elem_of_sorted).
    unfold files_of in Hin. apply list_elem_of_fmap in Hin as (entry & -> & Hentry).
    rewrite Forall_forall in Hloaded, Hsaved.
    destruct (Hsaved _ Hentry) as (id & n & Hid & Hn).
    exists entry.2, id, n. split; [by apply Hloaded|done].
  - intros w1 refs ids e Hrefs Hids Hsaved.
    rewrite (start_download_routine_new _ _ _ Hsel).
    unfold mbind at 1 2 3 4. unfold web_bind, pure. rewrite Hrefs, Hids.
    destruct (load_ads self store false false) as [entries|e']; simpl in *.
    + by rewrite Hsaved.
    + by injection Hsaved as ->.
Qed.

Lemma parse_ids_fails (pieces : list string) :
  Exists (λ piece, int_of_str piece = None) pieces →
  parse_ids pieces = Raise ValueError.
Proof.
  induction pieces as [|piece rest IH]; intros Hex; [by apply Exists_nil in Hex|].
  simpl. destruct (int_of_str piece) as [n|] eqn:Hn; [|done]. simpl.
  apply Exists_cons in Hex as [Hpiece|Hrest]; [congruence|]. by rewrite IH.
Qed.

(** X20: Downloading ads by their identifiers.  The selector is split at the
    commas and every piece is turned into an integer before the browser is
    used: a piece that [int] does not accept raises a ValueError and no ad
    is downloaded, although other pieces are identifiers.  The identifier 0
    raises the UserWarning of [navigate_to_ad_page]. *)
Theorem download_ids_parsed_first (self : KleinanzeigenBot) (store : file_store)
    (w : World) :
  ads_selector self ∉ ["all"; "new"] →
  re_search_ids (ads_selector self) = true →
  (Exists (λ piece, int_of_str piece = None) (split_on "," (ads_selector self)) →
   start_download_routine self store w = (w, Fail (Py ValueError)))
  ∧ (∀ ids, parse_ids (split_on "," (ads_selector self)) = Ok ids →
       start_download_routine self store w = download_ids ids w)
  ∧ (∀ ids, parse_ids (split_on "," (ads_selector self)) = Ok (0%Z :: ids) →
       start_download_routine self store w = (w, Fail UserWarning)).
Proof.
  intros Hsel Hre.
  assert (Hrun : start_download_routine self store w
    = (ids ← pure (outcome_of (parse_ids (split_on "," (ads_selector self))));
       download_ids ids) w).
  { unfold start_download_routine. rewrite bool_decide_false by done. by rewrite Hre. }
  rewrite Hrun. unfold mbind, web_bind, pure. split; [|split].
  - intros Hex. by rewrite (parse_ids_fails _ Hex).
  - intros ids ->. done.
  - intros ids ->. done.
Qed.

Lemma download_new_cons (ref_pair : string * Z) (rest : list (string * Z))
    (saved : list Z) (w : World) :
  download_new (ref_pair :: rest) saved w
  = if bool_decide (ref_pair.2 ∈ saved) then download_new rest saved w
    else (found ← navigate_to_ad_page None (Some ref_pair.1);
          (if found : bool then download_ad_page ref_pair.2 else mret tt);;
          download_new rest saved) w.
Proof. simpl. by case_bool_decide. Qed.

(** X21: The ads that are saved already cause no step in the browser: the run
    over the pairs of reference and identifier is the run over the pairs
    whose identifier is not saved.  With nothing saved, and the identifiers
    of all references at hand, it is the run that downloads all ads. *)
Theorem download_new_skips_saved :
  (∀ ref_pairs saved (w : World),
     download_new ref_pairs saved w = download_new (unsaved saved ref_pairs) [] w)
  ∧ (∀ refs ids (w : World),
       ref_ad_ids refs = Done ids →
       download_new (zip refs ids) [] w = download_all refs w).
Proof.
  split.
  - intros ref_pairs saved. unfold unsaved.
    induction ref_pairs as [|ref_pair rest IH]; intros w; [done|].
    rewrite filter_cons, download_new_cons. case_bool_decide as Hsaved.
    + rewrite decide_False by (intros Hn; by apply Hn). apply IH.
    + rewrite decide_True by done. rewrite download_new_cons.
      rewrite bool_decide_false by apply not_elem_of_nil.
      unfold mbind, web_bind.
      destruct (navigate_to_ad_page None (Some ref_pair.1) w) as [w1 [found|e]]; [|done].
      destruct found.
      * destruct (download_ad_page ref_pair.2 w1) as [w2 [[]|e]]; [apply IH|done].
      * apply IH.
  - intros refs. induction refs as [|ref rest IH]; intros ids w Hids; [done|].
    simpl in Hids.
    destruct (extract_ad_id_from_ad_link ref) as [id_|] eqn:Hid; [|discriminate].
    destruct (ref_ad_ids rest) as [ids'|] eqn:Hrest; [|discriminate].
    injection Hids as <-. change (zip (ref :: rest) (id_ :: ids')) with
      ((ref, id_) :: zip rest ids').
    rewrite download_new_cons, bool_decide_false by apply not_elem_of_nil.
    simpl. unfold mbind, web_bind, pure. rewrite Hid.
    destruct (navigate_to_ad_page None (Some ref) w) as [w1 [found|e]]; [|done].
    destruct found.
    + destruct (download_ad_page id_ w1) as [w2 [[]|e]]; [by apply IH|done].
    + by apply IH.
Qed.

(** ** What is skipped is not checked *)

(** X22: An ad that the selection skips is not validated and not resolved: the
    loop body returns without an entry and without an error, whatever the
    other fields of the definition are.  This holds for an inactive ad when
    inactive ads are ignored (its [id] and dates are not read either), for
    an ad with an [id] under the selector [new], and for an ad that is not
    due under the selector [due]. *)
Theorem skipped_ads_not_validated (self : KleinanzeigenBot) ignore_inactive check_id
    now descr_prefix descr_suffix ad_file (raw : dict) :
  (ignore_inactive = true →
   ∀ active,
     merge_defaults (ad_defaults (config self)) ad_fields raw !! "active" = Some active →
     truthy active = false →
     load_ad self ignore_inactive check_id now descr_prefix descr_suffix ad_file raw
     = Ok None)
  ∧ (skip_inactive ignore_inactive
       (merge_defaults (ad_defaults (config self)) ad_fields raw) = Ok false →
     (ads_selector self = "new" → check_id = true →
      ∀ id,
        merge_defaults (ad_defaults (config self)) ad_fields raw !! "id" = Some id →
        truthy id = true →
        load_ad self ignore_inactive check_id now descr_prefix descr_suffix ad_file raw
        = Ok None)
     ∧ (ads_selector self = "due" →
        skip_not_due self now (merge_defaults (ad_defaults (config self)) ad_fields raw)
          = Ok true →
        load_ad self ignore_inactive check_id now descr_prefix descr_suffix ad_file raw
        = Ok None)).
Proof.
  split; [|intros Hact; split].
  - intros -> active Hactive Hfalse. unfold load_ad, select, skip_inactive, getitem.
    rewrite Hactive. simpl. by rewrite Hfalse.
  - intros Hsel -> id Hid Htrue. unfold load_ad, select. rewrite Hact. simpl.
    unfold skip_not_new, getitem. rewrite Hsel, Hid. simpl. by rewrite Htrue.
  - intros Hsel Hdue. unfold load_ad, select. rewrite Hact. simpl.
    rewrite (skip_not_new_due _ _ _ Hsel). simpl. by rewrite Hdue.
Qed.

(** ** The command [publish] and the files it leaves alone *)

Lemma load_each_selected (self : KleinanzeigenBot) (store : file_store)
    ignore_inactive check_id descr_prefix descr_suffix files n ads entries :
  load_each self store ignore_inactive check_id descr_prefix descr_suffix files n ads
    = Ok entries →
  Forall (λ entry : ad_entry,
            store !! entry.1.1 = Some entry.2
            ∧ ∃ now, select self ignore_inactive check_id now
                       (merge_defaults (ad_defaults (config self)) ad_fields entry.2)
                     = Ok Selected) ads →
  Forall (λ entry : ad_entry,
            store !! entry.1.1 = Some entry.2
            ∧ ∃ now, select self ignore_inactive check_id now
                       (merge_defaults (ad_defaults (config self)) ad_fields entry.2)
                     = Ok Selected) entries.
Proof.
  intros H Hads. eapply load_each_invariant; [|exact Hads|exact H].
  intros now f raw entry Hload Hentry.
  apply load_ad_steps in Hentry as (? & ? & ? & ? & Hsel & _ & _ & _ & _ & _ & _ & -> & ->).
  split; [|by exists now].
  unfold load_dict in Hload.
  destruct (store !! f) as [content|]; [by injection Hload as ->|done].
Qed.

(** X23: The command [publish] leaves alone every file that is not a discovered
    ad file, every ad file of an inactive ad and, under the selector [new],
    every ad file of an ad with an [id]: after a successful run these files
    hold what they held before. *)
Theorem run_publish_frame (self : KleinanzeigenBot) (store store' : file_store)
    (path : string) :
  run_publish self store = Ok store' →
  (path ∉ discover_ad_files self → store' !! path = store !! path)
  ∧ (∀ raw active,
       store !! path = Some raw →
       merge_defaults (ad_defaults (config self)) ad_fields raw !! "active" = Some active →
       truthy active = false →
       store' !! path = Some raw)
  ∧ (ads_selector self = "new" →
     ∀ raw id,
       store !! path = Some raw →
       merge_defaults (ad_defaults (config self)) ad_fields raw !! "id" = Some id →
       truthy id = true →
       store' !! path = Some raw).
Proof.
  unfold run_publish. intros H. inv_bind H as ads Hads.
  assert (Hfiles : ∀ f, f ∈ files_of ads → f ∈ discover_ad_files self).
  { unfold load_ads in Hads. case_bool_decide.
    - injection Hads as <-. by intros f ?%elem_of_nil.
    - inv_bind Hads as p Hp. inv_bind Hads as s Hs.
      apply load_each_files in Hads as (loaded & -> & Hsub). simpl.
      intros f Hf. apply elem_of_sorted. by eapply elem_of_sublist. }
  assert (Hselected : Forall (λ entry : ad_entry,
            store !! entry.1.1 = Some entry.2
            ∧ ∃ now, select self true true now
                       (merge_defaults (ad_defaults (config self)) ad_fields entry.2)
                     = Ok Selected) ads).
  { unfold load_ads in Hads. case_bool_decide.
    - injection Hads as <-. constructor.
    - inv_bind Hads as p Hp. inv_bind Hads as s Hs.
      eapply load_each_selected; [exact Hads|constructor]. }
  assert (Hother : path ∉ files_of ads → store' !! path = store !! path).
  { destruct ads as [|entry ads]; [by injection H as <-|].
    inv_bind H as u Hu. inv_bind H as r Hr. injection H as <-.
    destruct r as [ads' store1]. apply publish_ads_ok in Hr as (_ & Hother & _).
    exact (Hother path). }
  assert (Hskipped : ∀ raw,
            store !! path = Some raw →
            (∀ now, select self true true now
                      (merge_defaults (ad_defaults (config self)) ad_fields raw)
                    ≠ Ok Selected) →
            store' !! path = Some raw).
  { intros raw Hraw Hskip. rewrite <- Hraw. apply Hother. intros Hin.
    unfold files_of in Hin. apply list_elem_of_fmap in Hin as (entry & -> & Hentry).
    rewrite Forall_forall in Hselected.
    destruct (Hselected _ Hentry) as (Hstored & now & Hsel).
    rewrite Hstored in Hraw. injection Hraw as <-. by apply (Hskip now). }
  split; [|split].
  - intros Hnot. apply Hother. intros Hin. by apply Hnot, Hfiles.
  - intros raw active Hraw Hactive Hfalse. apply Hskipped; [done|].
    intros now. unfold select, skip_inactive, getitem. rewrite Hactive. simpl.
    by rewrite Hfalse.
  - intros Hsel raw id Hraw Hid Htrue. apply Hskipped; [done|].
    intros now. unfold select.
    destruct (skip_inactive true _) as [[]|]; simpl; [done| |done].
    unfold skip_not_new, getitem. rewrite Hsel, Hid. simpl. by rewrite Htrue.
Qed.

(** ** Publishing twice *)

Lemma load_each_entries (self : KleinanzeigenBot) (store : file_store)
    ignore_inactive check_id descr_prefix descr_suffix files n ads entries :
  load_each self store ignore_inactive check_id descr_prefix descr_suffix files n ads
    = Ok entries →
  ∀ entry : ad_entry, entry ∈ entries →
    entry ∈ ads
    ∨ ∃ j : nat,
        files !! j = Some entry.1.1
        ∧ load_file self store ignore_inactive check_id descr_prefix descr_suffix
            (n + j) entry.1.1
          = Ok (Some entry).
Proof.
  revert n ads. induction files as [|g rest IH]; intros n ads H entry Hin.
  - simpl in H. injection H as <-. by left.
  - rewrite load_each_cons in H.
    destruct (load_file self store ignore_inactive check_id descr_prefix descr_suffix n g)
      as [r|] eqn:Hg; [|discriminate].
    simpl in H. destruct (IH _ _ H entry Hin) as [Hads|(j & Hj & Hload)].
    + destruct r as [loaded|]; [|by left].
      apply elem_of_app in Hads as [Hads|Hone]; [by left|].
      apply list_elem_of_singleton in Hone as ->. right. exists 0%nat.
      pose proof Hg as Hfile. unfold load_file in Hfile. inv_bind Hfile as raw Hraw.
      apply load_ad_id in Hfile as (-> & _ & _).
      rewrite Nat.add_0_r. by split.
    + right. exists (S j). rewrite Nat.add_succ_r. by split.
Qed.

(** After the command [publish] under the selector [due]: a file that was
    not loaded holds what it held, and a file that was published has its
    ad skipped by the loop body of [load_ads] at every time less than a day
    after the clock reading of its publication. *)
Lemma published_files_not_due (self : KleinanzeigenBot) (store store' : file_store)
    (ads : list ad_entry) :
  ads_selector self = "due" →
  (∀ n, isoformat (utcnow n) ≠ ""
        ∧ parse_datetime (VStr (isoformat (utcnow n))) = Ok (Some (utcnow n))) →
  intervals_set self store = true →
  load_ads self store true true = Ok ads →
  run_publish self store = Ok store' →
  (∀ f, f ∉ files_of ads → store' !! f = store !! f)
  ∧ ∀ f, f ∈ files_of ads →
      ∃ (i : nat) raw',
        store' !! f = Some raw'
        ∧ ∀ now' descr_prefix descr_suffix,
            (now' < utcnow i + MICROS_PER_DAY)%Z →
            load_ad self true true now' descr_prefix descr_suffix f raw' = Ok None.
Proof.
  intros Hsel Hclock Hintervals Hads Hrun.
  unfold run_publish in Hrun. rewrite Hads in Hrun. simpl in Hrun.
  assert (∃ ads', publish_ads self 0 store ads = Ok (ads', store')) as (ads' & Hpub).
  { destruct ads as [|first ads]; [injection Hrun as <-; by exists []|].
    inv_bind Hrun as u Hu. inv_bind Hrun as r Hr. injection Hrun as <-.
    destruct r as [ads' store1]. by exists ads'. }
  clear Hrun.
  pose proof (publish_ads_ok _ _ _ _ _ _ Hpub) as (Hfiles & Hother & Heach).
  split; [exact Hother|].
  intros f Hf.
  unfold load_ads in Hads. case_bool_decide as Hempty.
  { injection Hads as <-. by apply elem_of_nil in Hf. }
  inv_bind Hads as p Hp. inv_bind Hads as s Hs.
  pose proof (load_each_files _ _ _ _ _ _ _ _ _ _ Hads) as (loaded & Hloaded & Hsub).
  simpl in Hloaded. subst loaded.
  assert (Hnodup : NoDup (files_of ads)).
  { apply StronglySorted_NoDup. eapply StronglySorted_sublist; [done|]. apply sorted_strict. }
  pose proof (load_each_selected _ _ _ _ _ _ _ _ _ _ Hads (Forall_nil_2 _)) as Hselected.
  apply list_elem_of_lookup_1 in Hf as (i & Hfi).
  assert (∃ entry : ad_entry, ads !! i = Some entry ∧ entry.1.1 = f) as (entry & Hi & Hfile).
  { unfold files_of in Hfi. rewrite list_lookup_fmap in Hfi.
    destruct (ads !! i) as [entry|]; [|discriminate]. exists entry.
    split; [done|]. by injection Hfi. }
  rewrite Forall_forall in Hselected.
  destruct (Hselected entry (list_elem_of_lookup_2 _ _ _ Hi)) as (Hraw & at_ & Hselect).
  rewrite Hfile in Hraw.
  assert (∃ entry' : ad_entry, ads' !! i = Some entry') as (entry' & Hi').
  { apply lookup_lt_is_Some. apply lookup_lt_Some in Hi.
    assert (length (files_of ads') = length (files_of ads)) as Hlen by by rewrite Hfiles.
    unfold files_of in Hlen. rewrite !length_fmap in Hlen. lia. }
  destruct (Heach i entry' Hi') as (entry0 & Hi0 & Hupdated & _ & Hkeys & Hsaved).
  rewrite Hi in Hi0. injection Hi0 as <-. rewrite Nat.add_0_l in Hupdated.
  assert (entry'.1.1 = f) as Hf'.
  { assert (files_of ads' !! i = Some entry'.1.1) as H1
      by (unfold files_of; by rewrite list_lookup_fmap, Hi').
    rewrite Hfiles, Hfi in H1. by injection H1. }
  rewrite Hf' in Hsaved.
  assert (store' !! f = Some entry'.2) as Hstored.
  { apply Hsaved. intros Hdrop.
    rewrite <- (take_drop_middle _ _ _ Hfi) in Hnodup.
    apply NoDup_app in Hnodup as (_ & _ & Hnd). by apply NoDup_cons in Hnd as [Hnot _]. }
  exists i, entry'.2. split; [done|].
  intros now' descr_prefix descr_suffix Hnow.
  assert (∃ interval,
            merge_defaults (ad_defaults (config self)) ad_fields entry.2
              !! "republication_interval" = Some (VInt interval)
            ∧ (0 ≤ interval)%Z) as (interval & Hinterval & Hpos).
  { unfold intervals_set in Hintervals. rewrite forallb_forall in Hintervals.
    assert (interval_set self store f = true) as Hset.
    { apply Hintervals, list_elem_of_In. eapply elem_of_sublist; [|done].
      by eapply list_elem_of_lookup_2. }
    unfold interval_set in Hset. rewrite Hraw in Hset.
    destruct (merge_defaults _ _ entry.2 !! "republication_interval")
      as [[]|]; try discriminate.
    eexists. split; [done|]. by apply Z.leb_le. }
  destruct (Hclock i) as [Hiso Hparse].
  assert (Hsame : ∀ key, managed_key key = false →
            merge_defaults (ad_defaults (config self)) ad_fields entry'.2 !! key
            = merge_defaults (ad_defaults (config self)) ad_fields entry.2 !! key).
  { intros key Hkey. by rewrite !merge_defaults_lookup, (Hkeys key Hkey). }
  unfold load_ad, select.
  assert (skip_inactive true
            (merge_defaults (ad_defaults (config self)) ad_fields entry'.2) = Ok false)
    as ->.
  { unfold select in Hselect. unfold skip_inactive, getitem in *.
    rewrite (Hsame "active") by done.
    destruct (merge_defaults _ _ entry.2 !! "active") as [active|]; [|discriminate].
    simpl in *. by destruct (truthy active). }
  simpl. rewrite (skip_not_new_due _ _ _ Hsel). simpl.
  unfold skip_not_due, last_updated_on, getitem. rewrite Hsel. simpl.
  rewrite (merged_of_raw _ _ _ _ _ Hupdated) by (simpl; by apply String.eqb_neq).
  simpl. apply String.eqb_neq in Hiso. rewrite Hiso. simpl. rewrite Hparse. simpl.
  rewrite (Hsame "republication_interval"), Hinterval by done. simpl.
  rewrite age_days_le.
  assert (now' < utcnow i + (interval + 1) * MICROS_PER_DAY)%Z as Hlt.
  { unfold MICROS_PER_DAY in *. nia. }
  apply Z.ltb_lt in Hlt. by rewrite Hlt.
Qed.

(** ** The script for the description *)

Lemma replace_char_free (old new : ascii) (s : string) :
  old ≠ new → free_of old (replace_char old new s).
Proof.
  intros Hne. unfold free_of. induction s as [|c s IH]; simpl; [apply not_elem_of_nil|].
  apply not_elem_of_cons. split; [|done].
  destruct (Ascii.eqb_spec c old) as [->|Hc]; [done|]. by intros ->.
Qed.

Lemma replace_char_length (old new : ascii) (s : string) :
  String.length (replace_char old new s) = String.length s.
Proof. induction s as [|c s IH]; simpl; [done|]. by rewrite IH. Qed.

Lemma replace_char_id (old new : ascii) (s : string) :
  free_of old s → replace_char old new s = s.
Proof.
  unfold free_of. induction s as [|c s IH]; simpl; [done|].
  intros [Hc Hs]%not_elem_of_cons. rewrite (IH Hs).
  destruct (Ascii.eqb_spec c old) as [->|_]; done.
Qed.

(** X25: The script that sets the description holds the description between two
    backticks, and no backtick in between: every backtick of the description
    is replaced by an apostrophe, and nothing else is changed.  A description
    without a backtick is handed over as it is. *)
Theorem description_script_quoted (ad_cfg : dict) (description : string) :
  ad_cfg !! "description" = Some (VStr description) →
  ∃ body,
    description_script ad_cfg
    = Done ("document.querySelector('#pstad-descrptn').value = `" +:+ body +:+ "`")
    ∧ free_of "`" body
    ∧ String.length body = String.length description
    ∧ (∀ (i : nat) c, String.get i description = Some c →
         String.get i body = Some (if Ascii.eqb c "`" then "'"%char else c))
    ∧ (free_of "`" description → body = description).
Proof.
  intros Hd. exists (replace_char "`" "'" description).
  unfold description_script. rewrite Hd.
  split; [done|]. split; [by apply replace_char_free|].
  split; [apply replace_char_length|]. split; [|apply replace_char_id].
  clear Hd. induction description as [|x d IH]; intros i c Hi; [done|].
  destruct i as [|i]; simpl in *; [by injection Hi as ->|by apply IH].
Qed.

(** ** The creation date of a downloaded ad *)

Lemma string_app_cons (x : ascii) (a b : string) :
  String x a +:+ b = String x (a +:+ b).
Proof. done. Qed.

Lemma string_app_assoc (a b c : string) : (a +:+ b) +:+ c = a +:+ (b +:+ c).
Proof. induction a as [|x a IH]; [done|]. by rewrite !string_app_cons, IH. Qed.

Lemma string_app_nil_r (a : string) : a +:+ "" = a.
Proof. induction a as [|x a IH]; [done|]. by rewrite string_app_cons, IH. Qed.

Lemma split_on_aux_free (sep : ascii) (cur a : string) :
  free_of sep a → split_on_aux sep cur a = [cur +:+ a].
Proof.
  revert cur. induction a as [|x a IH]; intros cur Hfree; simpl.
  - by rewrite string_app_nil_r.
  - unfold free_of in Hfree. simpl in Hfree. apply not_elem_of_cons in Hfree as [Hx Ha].
    destruct (Ascii.eqb_spec x sep) as [->|_]; [done|].
    rewrite (IH _ Ha), string_app_assoc. done.
Qed.

Lemma split_on_aux_sep (sep : ascii) (cur a b : string) :
  free_of sep a →
  split_on_aux sep cur (a +:+ String sep b) = (cur +:+ a) :: split_on_aux sep "" b.
Proof.
  revert cur. induction a as [|x a IH]; intros cur Hfree.
  - change ("" +:+ String sep b) with (String sep b). simpl.
    rewrite Ascii.eqb_refl. by rewrite string_app_nil_r.
  - unfold free_of in Hfree. simpl in Hfree. apply not_elem_of_cons in Hfree as [Hx Ha].
    rewrite string_app_cons. simpl.
    destruct (Ascii.eqb_spec x sep) as [->|_]; [done|].
    rewrite (IH _ Ha), string_app_assoc. done.
Qed.

(** X26: The creation date of a downloaded ad.  A date of the page that is
    written as day.month.year is handed to [datetime.fromisoformat] as
    year-month-day with the time 00:00:00, and [created_on] is the ISO
    format of the result; a text with fewer than two dots raises an
    IndexError. *)
Theorem creation_date_converted (day month year : string) :
  free_of "." day → free_of "." month → free_of "." year →
  convert_creation_date (day +:+ "." +:+ month +:+ "." +:+ year)
  = outcome_of (isoformat <$> fromisoformat
                  (year +:+ "-" +:+ month +:+ "-" +:+ day +:+ " 00:00:00"))
  ∧ convert_creation_date (day +:+ "." +:+ month) = Fail IndexError
  ∧ convert_creation_date day = Fail IndexError.
Proof.
  intros Hday Hmonth Hyear. unfold convert_creation_date, split_on.
  split; [|split].
  - change ("." +:+ month +:+ "." +:+ year) with (String "." (month +:+ String "." year)).
    rewrite (split_on_aux_sep _ _ _ _ Hday), (split_on_aux_sep _ _ _ _ Hmonth),
      (split_on_aux_free _ _ _ Hyear). done.
  - change ("." +:+ month) with (String "." month).
    by rewrite (split_on_aux_sep _ _ _ _ Hday), (split_on_aux_free _ _ _ Hmonth).
  - by rewrite (split_on_aux_free _ _ _ Hday).
Qed.

(** ** The configuration *)

Lemma apply_defaults_empty (defaults : dict) :
  apply_defaults ∅ defaults never never = defaults.
Proof.
  apply map_eq. intros key. rewrite apply_defaults_lookup, lookup_empty.
  unfold merged_field, never. by destruct (defaults !! key).
Qed.

Lemma apply_defaults_self (defaults : dict) :
  apply_defaults defaults defaults never never = defaults.
Proof.
  apply map_eq. intros key. rewrite apply_defaults_lookup.
  unfold merged_field, never. by destruct (defaults !! key).
Qed.

(** X27: [load_config] and the configuration file.  A file that exists is not
    written.  A file that is missing is created with the default
    configuration before anything is checked, so it is there also when the
    call then raises; the configuration of the run is the default one.
    Calling [load_config] again after that changes nothing: the file store
    stays as it is and the outcome is the same. *)
Theorem load_config_creates_file (self : KleinanzeigenBot) (store : file_store) :
  (is_Some (store !! config_file_path self) → (load_config self store).1 = store)
  ∧ (store !! config_file_path self = None →
     (load_config self store).1 = <[config_file_path self := config_defaults]> store
     ∧ (∀ config categories,
          (load_config self store).2 = Ok (config, categories) →
          config = config_defaults)
     ∧ load_config self (load_config self store).1 = load_config self store).
Proof.
  unfold load_config, load_dict_if_exists, save_dict. split.
  - intros [config Hconfig]. by rewrite Hconfig.
  - intros Hmissing. rewrite Hmissing. simpl. split; [done|]. split.
    + intros config categories H. rewrite apply_defaults_empty in H.
      inv_bind H as c Hc. inv_bind H as cats Hcats. inv_bind H as login Hlogin.
      inv_bind H as username Husername. inv_bind H as u Hu.
      inv_bind H as login' Hlogin'. inv_bind H as password Hpassword.
      inv_bind H as u' Hu'. by injection H as <- _.
    + rewrite lookup_insert_eq. simpl.
      by rewrite apply_defaults_empty, apply_defaults_self.
Qed.

Lemma load_config_outcome (self : KleinanzeigenBot) (store : file_store) :
  (load_config self store).2
  = (let config :=
       apply_defaults (default_or ∅ (store !! config_file_path self))
         config_defaults never never in
     config_categories ← getitem config "categories";
     categories ← update_categories config_categories;
     login ← getitem config "login";
     username ← subscript login "username";
     ensure (truthy username) (NotSpecified "login.username");;
     login ← getitem config "login";
     password ← subscript login "password";
     ensure (truthy password) (NotSpecified "login.password");;
     mret (config, categories)).
Proof.
  unfold load_config, load_dict_if_exists.
  by destruct (store !! config_file_path self).
Qed.

(** X28: [load_config] and the credentials.  When it returns, the configuration
    holds a user name and a password that are not empty, and the categories
    are the bundled ones updated with those of the configuration.  With a
    user name that is empty it raises the error for [login.username],
    whatever the password is; with a user name, and a password that is
    empty, the error for [login.password]. *)
Theorem load_config_credentials (self : KleinanzeigenBot) (store : file_store)
    (config : dict) :
  config = apply_defaults (default_or ∅ (store !! config_file_path self))
             config_defaults never never →
  (∀ loaded categories,
     (load_config self store).2 = Ok (loaded, categories) →
     loaded = config
     ∧ ∃ config_categories login username password,
         config !! "categories" = Some config_categories
         ∧ update_categories config_categories = Ok categories
         ∧ config !! "login" = Some (VDict login)
         ∧ login !! "username" = Some username ∧ truthy username = true
         ∧ login !! "password" = Some password ∧ truthy password = true)
  ∧ (∀ config_categories login username,
       config !! "categories" = Some config_categories →
       is_ok (update_categories config_categories) = true →
       config !! "login" = Some (VDict login) →
       login !! "username" = Some username →
       (truthy username = false →
        (load_config self store).2
        = Raise (ValidationError (NotSpecified "login.username")))
       ∧ (truthy username = true →
          ∀ password, login !! "password" = Some password →
            (load_config self store).2
            = if truthy password
              then (categories ← update_categories config_categories;
                    Ok (config, categories))
              else Raise (ValidationError (NotSpecified "login.password")))).
Proof.
  intros Hconfig. rewrite load_config_outcome. cbn zeta. rewrite <- Hconfig. split.
  - intros loaded categories H.
    inv_bind H as config_categories Hcc. inv_bind H as cats Hcats.
    inv_bind H as login Hlogin. inv_bind H as username Husername.
    inv_bind H as u Hu. inv_bind H as login' Hlogin'.
    inv_bind H as password Hpassword. inv_bind H as u' Hu'.
    injection H as <- <-. split; [done|].
    apply getitem_ok in Hcc, Hlogin, Hlogin'.
    rewrite Hlogin in Hlogin'. injection Hlogin' as <-.
    destruct login as [| | | | | |login]; try discriminate.
    simpl in Husername, Hpassword. apply getitem_ok in Husername, Hpassword.
    unfold ensure in Hu, Hu'.
    destruct (truthy username) eqn:Htu; [|discriminate].
    destruct (truthy password) eqn:Htp; [|discriminate].
    by exists config_categories, login, username, password.
  - intros config_categories login username Hcc Hcats Hlogin Husername.
    unfold getitem. rewrite Hcc, Hlogin. simpl.
    destruct (update_categories config_categories) as [categories|]; [|discriminate].
    simpl. unfold getitem. rewrite Husername. simpl. split.
    + intros ->. done.
    + intros -> password Hpassword. simpl. rewrite Hpassword. simpl.
      by destruct (truthy password).
Qed.

End Engine.

(** * A second run of the command [publish]

    The second run reads its own clock, [later]. *)

Section Again.

Variable parse_datetime : value → result (option Z).
Variable int_of_str : string → option Z.
Variable glob : string → string → list string.
Variable abspath : string → string → string.
Variable dirname : string → string.
Variable isabs : string → bool.
Variable splitext_ext : string → string.
Variable lower : string → string.
Variable normalize_shipping_costs : value → result value.
Variable ad_fields : dict.
Variable utcnow later : nat → Z.
Variable isoformat : Z → string.
Variable web_delete : bool → dict → result unit.
Variable web_free_ad_limit : result unit.
Variable web_submit : string → dict → result unit.
Variable web_ad_id : string → dict → result Z.
Variable web_await_checking_done : result unit.
Variable web_login : result unit.
Variable glob_other : value → string → result (list string).
Variable insertion_order : dict → list string.

#[local] Abbreviation load_ads_at clock :=
  (load_ads parse_datetime int_of_str glob abspath dirname isabs splitext_ext lower
     normalize_shipping_costs ad_fields clock glob_other insertion_order).
#[local] Abbreviation load_file_at clock :=
  (load_file parse_datetime int_of_str glob abspath dirname isabs splitext_ext lower
     normalize_shipping_costs ad_fields clock glob_other insertion_order).
#[local] Abbreviation run_publish_at clock :=
  (run_publish parse_datetime int_of_str glob abspath dirname isabs splitext_ext lower
     normalize_shipping_costs ad_fields clock isoformat web_delete web_free_ad_limit
     web_submit web_ad_id web_await_checking_done web_login glob_other insertion_order).

(** X24: Ads that the command [publish] published under the selector [due]
    are not loaded by a second run as long as its clock reads less than a
    day after the clock readings of the first run.  In the second run the
    loop body of [load_ads] skips every file that the first run published,
    without an error, and treats every other file as it would have without
    the first run; so each entry that the second run loads is of a file that
    the first run did not load, and that file holds what it held.  This asks
    that the timestamps that are written can be read back and that the
    republication intervals are integers that are not negative.  The ads that
    the first run skipped can be due in the second run. *)
Theorem published_ads_not_loaded_again (self : KleinanzeigenBot)
    (store store' : file_store) (ads : list ad_entry) :
  ads_selector self = "due" →
  (∀ n, isoformat (utcnow n) ≠ ""
        ∧ parse_datetime (VStr (isoformat (utcnow n))) = Ok (Some (utcnow n))) →
  (∀ a b, (later a < utcnow b + MICROS_PER_DAY)%Z) →
  intervals_set glob abspath dirname ad_fields self store = true →
  load_ads_at utcnow self store true true = Ok ads →
  run_publish_at utcnow self store = Ok store' →
  (∀ descr_prefix descr_suffix n ad_file,
     ad_file ∈ files_of ads →
     load_file_at later self store' true true descr_prefix descr_suffix n ad_file
     = Ok None)
  ∧ (∀ descr_prefix descr_suffix n ad_file,
       ad_file ∉ files_of ads →
       load_file_at later self store' true true descr_prefix descr_suffix n ad_file
       = load_file_at later self store true true descr_prefix descr_suffix n ad_file)
  ∧ (∀ entries,
       load_ads_at later self store' true true = Ok entries →
       ∀ entry : ad_entry, entry ∈ entries →
         (entry.1.1 ∉ files_of ads) ∧ store !! entry.1.1 = Some entry.2).
Proof.
  intros Hsel Hclock Hday Hintervals Hads Hrun.
  destruct (published_files_not_due _ _ _ _ _ _ _ _ _ _ _ _ _ _ _ _ _ _ _ _ _ _ _ _
              Hsel Hclock Hintervals Hads Hrun) as [Hother Hpublished].
  assert (Hskip : ∀ descr_prefix descr_suffix n ad_file,
            ad_file ∈ files_of ads →
            load_file_at later self store' true true descr_prefix descr_suffix n ad_file
            = Ok None).
  { intros p s n f Hf. destruct (Hpublished f Hf) as (i & raw' & Hstored & Hdue).
    unfold load_file, load_dict. rewrite Hstored. simpl. apply Hdue, Hday. }
  split; [exact Hskip|]. split.
  - intros p s n f Hf. unfold load_file, load_dict. by rewrite (Hother f Hf).
  - intros entries Hload entry Hin. unfold load_ads in Hload.
    case_bool_decide; [injection Hload as <-; by apply elem_of_nil in Hin|].
    destruct (description_affix self "prefix") as [p|]; [|discriminate].
    destruct (description_affix self "suffix") as [s|]; [|discriminate].
    simpl in Hload.
    destruct (load_each_entries _ _ _ _ _ _ _ _ _ _ _ _ _ _ _ _ _ _ _ _ _ _ _
                Hload entry Hin) as [Hnil|(j & Hj & Hfile)];
      [by apply elem_of_nil in Hnil|].
    simpl in Hfile.
    assert (entry.1.1 ∉ files_of ads) as Hnot.
    { intros Hf. rewrite (Hskip p s _ _ Hf) in Hfile. discriminate. }
    split; [done|]. rewrite <- (Hother _ Hnot).
    unfold load_file, load_dict in Hfile.
    destruct (store' !! entry.1.1) as [raw|]; [|discriminate]. simpl in Hfile.
    by apply load_ad_id in Hfile as (_ & -> & _).
Qed.

End Again.

(** * The properties at the sample data *)

(** C1 at three definitions: last updated 8 days ago, 7 days ago, and never
    published. *)
Lemma due_selection_witness :
  select Sample.parse_datetime Sample.bot true true Sample.now
    Sample.ad_updated_8_days_ago = Ok Selected
  ∧ select Sample.parse_datetime Sample.bot true true Sample.now
      Sample.ad_updated_7_days_ago = Ok SkippedNotDue
  ∧ select Sample.parse_datetime Sample.bot true true Sample.now Sample.ad = Ok Selected.
Proof.
  split; [|split].
  - refine (proj1 (proj2 (proj2 (proj2 (proj2 (proj2
      (due_selection Sample.parse_datetime Sample.bot Sample.now
         Sample.ad_updated_8_days_ago
         (VDatetime (Sample.now - 8 * MICROS_PER_DAY)) VNone _ _ _)
      (Sample.now - 8 * MICROS_PER_DAY)%Z 7%Z _ _ _)) true true _))) _ _);
      reflexivity.
  - refine (proj2 (proj2 (proj2 (proj2 (proj2 (proj2
      (due_selection Sample.parse_datetime Sample.bot Sample.now
         Sample.ad_updated_7_days_ago
         (VDatetime (Sample.now - 7 * MICROS_PER_DAY)) VNone _ _ _)
      (Sample.now - 7 * MICROS_PER_DAY)%Z 7%Z _ _ _)) true true _))) _ _);
      reflexivity.
  - refine (proj2 (proj1
      (due_selection Sample.parse_datetime Sample.bot Sample.now
         Sample.ad VNone VNone _ _ _) _ _) true true _); reflexivity.
Defined.

(** The order of the specification does not hold: a definition with a wrong
    type and a description of 4001 characters breaks rule 1 and rule 3, and
    validation reports the description, where the rules in the order 1 to 8
    report the type. *)
Lemma validate_reports_description_before_type :
  assert_one_of Sample.ad_bad_type_long_description "type" ["OFFER"; "WANTED"]
    = Raise (ValidationError (NotOneOf "type"))
  ∧ check_description_length Sample.ad_bad_type_long_description
    = Raise (ValidationError DescriptionTooLong)
  ∧ validate_in_spec_order Sample.ad_bad_type_long_description
    = Raise (ValidationError (NotOneOf "type"))
  ∧ validate Sample.ad_bad_type_long_description
    = Raise (ValidationError DescriptionTooLong)
  ∧ validate Sample.ad_bad_type_long_description
    ≠ validate_in_spec_order Sample.ad_bad_type_long_description.
Proof.
  assert (Hspec : validate_in_spec_order Sample.ad_bad_type_long_description
                  = Raise (ValidationError (NotOneOf "type")))
    by (vm_compute; reflexivity).
  assert (Hcode : validate Sample.ad_bad_type_long_description
                  = Raise (ValidationError DescriptionTooLong))
    by (vm_compute; reflexivity).
  do 2 (split; [vm_compute; reflexivity|]).
  split; [exact Hspec|]. split; [exact Hcode|].
  rewrite Hspec, Hcode. discriminate.
Qed.

(** C2 at a definition whose title has nine characters, one of them an
    umlaut: the checks before the one on the title pass, and validation
    reports the title.  And at a definition with a wrong type whose
    description has 4000 characters, one of them an umlaut: the check of the
    length passes, and validation reports the type. *)
Lemma validate_first_broken_check_witness :
  validate Sample.ad_umlaut_title = Raise (ValidationError (TooShort "title" 10))
  ∧ validate Sample.ad_bad_type_umlaut_description
    = Raise (ValidationError (NotOneOf "type")).
Proof.
  split.
  - refine (proj1 (proj2 (validate_first_broken_check Sample.ad_umlaut_title))
              2%nat (λ ad_cfg, assert_min_len ad_cfg "title" 10) _ _ _ _).
    + reflexivity.
    + vm_compute. reflexivity.
    + intros [|[|j]] rule' Hj Hrule; [| |lia]; injection Hrule as <-;
        vm_compute; reflexivity.
  - refine (proj1 (proj2 (validate_first_broken_check
                            Sample.ad_bad_type_umlaut_description))
              1%nat (λ ad_cfg, assert_one_of ad_cfg "type" ["OFFER"; "WANTED"]) _ _ _ _).
    + reflexivity.
    + vm_compute. reflexivity.
    + intros [|j] rule' Hj Hrule; [|lia]. injection Hrule as <-.
      vm_compute. reflexivity.
Defined.

(** C7 at a definition to give away that names a price, and at one that
    names none and passes the other checks. *)
Lemma price_rule_witness :
  check_price Sample.ad_give_away_priced = Raise (ValidationError PriceForGiveAway)
  ∧ is_ok (validate Sample.ad_give_away_priced) = false
  ∧ is_ok (validate Sample.ad) = true.
Proof.
  destruct (price_rule Sample.ad_give_away_priced "GIVE_AWAY" eq_refl) as [Hgive _].
  destruct (Hgive eq_refl) as (Hrule & _ & Hfails & _).
  split; [apply Hrule; vm_compute; reflexivity|].
  split; [apply Hfails; vm_compute; reflexivity|].
  destruct (price_rule Sample.ad "GIVE_AWAY" eq_refl) as [Hfree _].
  destruct (Hfree eq_refl) as (_ & _ & _ & Hiff).
  assert (Forall (λ rule, rule Sample.ad = Ok tt) other_rules) as Hother.
  { unfold other_rules, validation_rules. simpl.
    repeat (constructor; [vm_compute; reflexivity|]). constructor. }
  destruct (is_ok (validate Sample.ad)) eqn:Hvalid; [reflexivity|].
  pose proof (proj1 (Hiff Hother) eq_refl) as Hprice. vm_compute in Hprice.
  discriminate Hprice.
Defined.

(** C8 at the sample tables: an overridden name, a bundled name, an unknown
    name and a numeric code. *)
Lemma category_resolution_witness :
  resolve_category Sample.bot (VStr "Fahrräder") = Ok (VStr "217")
  ∧ resolve_category Sample.bot (VStr "Autos") = Ok (VStr "216")
  ∧ resolve_category Sample.bot (VStr "Unbekannt") = Ok (VStr "Unbekannt")
  ∧ resolve_category Sample.bot (VInt 161) = Ok (VInt 161).
Proof.
  split; [|split; [|split]].
  - refine (proj1 (category_resolution Sample.bundled_categories Sample.bot Sample.cfg
                     (VStr "Fahrräder") _ _) "Fahrräder" (VStr "217") _ _);
      vm_compute; reflexivity.
  - refine (proj1 (category_resolution Sample.bundled_categories Sample.bot Sample.cfg
                     (VStr "Autos") _ _) "Autos" (VStr "216") _ _);
      vm_compute; reflexivity.
  - refine (proj1 (proj2 (category_resolution Sample.bundled_categories Sample.bot
                            Sample.cfg (VStr "Unbekannt") _ _)) _);
      [vm_compute; reflexivity..|].
    intros key Hkey. injection Hkey as <-. vm_compute. reflexivity.
  - refine (proj1 (proj2 (category_resolution Sample.bundled_categories Sample.bot
                            Sample.cfg (VInt 161) _ _)) _);
      [vm_compute; reflexivity..|].
    intros key Hkey. discriminate Hkey.
Defined.

(** C9 at the sample file system: the one ad file holds the [id] "123", and
    the loaded definition holds the integer 123. *)
Lemma loaded_id_is_integer_witness :
  ∃ entries : list ad_entry,
    load_ads Sample.parse_datetime Sample.int_of_str Sample.glob Sample.abspath
      Sample.dirname Sample.isabs Sample.splitext_ext Sample.lower
      Sample.normalize_shipping_costs Sample.ad_fields Sample.utcnow
      Sample.glob_other Sample.insertion_order Sample.bot Sample.store true true
    = Ok entries
    ∧ ids_of entries
      = [("/data/ads/ad_bike.yaml", Some (VInt 123), Some (VStr "123"))]
    ∧ ∀ ad_file ad_cfg ad_cfg_orig,
        (ad_file, ad_cfg, ad_cfg_orig) ∈ entries →
        ∃ id, ad_cfg !! "id" = Some id ∧ (truthy id = false ∨ ∃ n, id = VInt n).
Proof.
  assert (ids_of <$>
    load_ads Sample.parse_datetime Sample.int_of_str Sample.glob Sample.abspath
      Sample.dirname Sample.isabs Sample.splitext_ext Sample.lower
      Sample.normalize_shipping_costs Sample.ad_fields Sample.utcnow
      Sample.glob_other Sample.insertion_order Sample.bot Sample.store true true
    = Ok [("/data/ads/ad_bike.yaml", Some (VInt 123), Some (VStr "123"))]) as Hids
    by (vm_compute; reflexivity).
  destruct (load_ads _ _ _ _ _ _ _ _ _ _ _ _ _ _ _ _ _) as [entries|e] eqn:Hrun;
    [|discriminate Hids].
  exists entries. split; [reflexivity|]. split; [by injection Hids|].
  intros ad_file ad_cfg ad_cfg_orig Hin.
  exact (proj1 (loaded_id_is_integer _ _ _ _ _ _ _ _ _ _ _ _ _ _ _ _ _ _ Hrun
                  ad_file ad_cfg ad_cfg_orig Hin)).
Defined.

(** C10 at the sample file system, where the pattern of the configuration
    matches the field table next to one ad file. *)
Lemma discovery_excludes_ad_fields_witness :
  "ads/ad_fields.yaml" ∈ Sample.glob "ads/*.yaml" "/data"
  ∧ discover_ad_files Sample.glob Sample.abspath Sample.dirname Sample.bot
    = {[ "/data/ads/ad_bike.yaml" ]}
  ∧ ∀ f, f ∈ discover_ad_files Sample.glob Sample.abspath Sample.dirname Sample.bot →
         endswith f "ad_fields.yaml" = false.
Proof.
  split; [left|]. split; [vm_compute; reflexivity|].
  apply (discovery_excludes_ad_fields Sample.glob Sample.abspath Sample.dirname Sample.bot).
  apply (bool_decide_unpack _). vm_compute. exact I.
Defined.

(** C5 at the sample file system: the second pattern matches a file that the
    first one matches too. *)
Lemma image_resolution_witness :
  resolve_images Sample.glob Sample.abspath Sample.dirname Sample.isabs
    Sample.splitext_ext Sample.lower Sample.glob_other "/data/ads/ad_bike.yaml"
    (VStr <$> ["img/*.jpg"; "img/b.jpg"])
  = Ok ["/data/img/a.jpg"; "/data/img/b.jpg"; "/data/img/c.jpg"].
Proof.
  rewrite (proj1 (proj2 (image_resolution Sample.glob Sample.abspath Sample.dirname
                            Sample.isabs Sample.splitext_ext Sample.lower
                            Sample.glob_other "/data/ads/ad_bike.yaml" ["img/*.jpg"; "img/b.jpg"]))
             ltac:(apply (bool_decide_unpack _); vm_compute; exact I)).
  vm_compute. reflexivity.
Defined.

(** The claim C4 as it is stated does not hold: after a successful run of
    [delete_ads] the [id] of the resolved definition is None and the raw
    definition still holds its [id]; after the command [delete] the file
    still holds the [id] too. *)
Lemma delete_leaves_raw_id :
  ids_of <$> delete_ads Sample.web_delete Sample.bot
               [("/data/ads/ad_bike.yaml", Sample.ad_published, Sample.raw_published)]
  = Ok [("/data/ads/ad_bike.yaml", Some VNone, Some (VInt 5))]
  ∧ saved_fields "/data/ads/ad_bike.yaml" Sample.store = Some (Some (VStr "123"), None, None)
  ∧ delete_outcome "/data/ads/ad_bike.yaml"
      <$> run_delete Sample.parse_datetime Sample.int_of_str Sample.glob Sample.abspath
            Sample.dirname Sample.isabs Sample.splitext_ext Sample.lower
            Sample.normalize_shipping_costs Sample.ad_fields Sample.utcnow
            Sample.web_delete Sample.web_login Sample.glob_other Sample.insertion_order Sample.bot Sample.store
    = Ok ([("/data/ads/ad_bike.yaml", Some VNone, Some (VStr "123"))],
          Some (Some (VStr "123"), None, None)).
Proof. do 2 (split; [vm_compute; reflexivity|]). vm_compute. reflexivity. Qed.

(** C4 at the sample definition, with the browser in which every request
    succeeds. *)
Lemma delete_clears_resolved_id_witness :
  delete_ads Sample.web_delete Sample.bot
    [("/data/ads/ad_bike.yaml", Sample.ad_published, Sample.raw_published)]
  = Ok (deleted_entry
          <$> [("/data/ads/ad_bike.yaml", Sample.ad_published, Sample.raw_published)]).
Proof.
  apply (proj1 (proj2 (delete_clears_resolved_id Sample.parse_datetime Sample.int_of_str
                         Sample.glob Sample.abspath Sample.dirname Sample.isabs
                         Sample.splitext_ext Sample.lower
                         Sample.normalize_shipping_costs Sample.ad_fields Sample.utcnow
                         Sample.web_delete Sample.web_login Sample.glob_other Sample.insertion_order Sample.bot _))).
  constructor; [|constructor].
  split; [exists (VStr "A fine bicycle")|]; vm_compute; reflexivity.
Defined.

(** C3 at a definition that carries the [id] 5 and no [created_on].  With the
    default setting the old ad is deleted first, which clears the [id] of the
    resolved definition, and the raw definition gets a [created_on] although
    its [id] was set; with [--keep-old] it gets none.  In both runs the raw
    definition gets the new [id] and [updated_on], and it is what is saved.
    The same happens in a run of the command [publish] on a file that holds
    an [id] and no [created_on]. *)
Theorem publish_sets_created_on_despite_id :
  managed_fields Sample.raw_published = (Some (VInt 5), None, None)
  ∧ managed_fields Sample.ad_published = (Some (VInt 5), Some VNone, Some VNone)
  ∧ publish_outcome "/data/ads/ad_bike.yaml"
      <$> publish_ad Sample.isoformat Sample.web_delete Sample.web_free_ad_limit
            Sample.web_submit Sample.web_ad_id Sample.bot Sample.now ∅
            "/data/ads/ad_bike.yaml" Sample.ad_published Sample.raw_published
    = Ok ((Some (VInt 456), Some (VStr "2023-11-14T22:13:20"),
           Some (VStr "2023-11-14T22:13:20")),
          Some (Some (VInt 456), Some (VStr "2023-11-14T22:13:20"),
                Some (VStr "2023-11-14T22:13:20")))
  ∧ publish_outcome "/data/ads/ad_bike.yaml"
      <$> publish_ad Sample.isoformat Sample.web_delete Sample.web_free_ad_limit
            Sample.web_submit Sample.web_ad_id Sample.bot_keep_old Sample.now ∅
            "/data/ads/ad_bike.yaml" Sample.ad_published Sample.raw_published
    = Ok ((Some (VInt 456), None, Some (VStr "2023-11-14T22:13:20")),
          Some (Some (VInt 456), None, Some (VStr "2023-11-14T22:13:20")))
  ∧ saved_fields "/data/ads/ad_bike.yaml" Sample.store = Some (Some (VStr "123"), None, None)
  ∧ saved_fields "/data/ads/ad_bike.yaml"
      <$> run_publish Sample.parse_datetime Sample.int_of_str Sample.glob Sample.abspath
            Sample.dirname Sample.isabs Sample.splitext_ext Sample.lower
            Sample.normalize_shipping_costs Sample.ad_fields Sample.utcnow
            Sample.isoformat Sample.web_delete Sample.web_free_ad_limit
            Sample.web_submit Sample.web_ad_id Sample.web_await_checking_done
            Sample.web_login Sample.glob_other Sample.insertion_order Sample.bot Sample.store
    = Ok (Some (Some (VInt 456), Some (VStr "2023-11-14T22:13:20"),
                Some (VStr "2023-11-14T22:13:20")))
  ∧ saved_fields "/data/ads/ad_bike.yaml"
      <$> run_publish Sample.parse_datetime Sample.int_of_str Sample.glob Sample.abspath
            Sample.dirname Sample.isabs Sample.splitext_ext Sample.lower
            Sample.normalize_shipping_costs Sample.ad_fields Sample.utcnow
            Sample.isoformat Sample.web_delete Sample.web_free_ad_limit
            Sample.web_submit Sample.web_ad_id Sample.web_await_checking_done
            Sample.web_login Sample.glob_other Sample.insertion_order Sample.bot_keep_old Sample.store
    = Ok (Some (Some (VInt 456), None, Some (VStr "2023-11-14T22:13:20"))).
Proof. do 6 (split; [vm_compute; reflexivity|]). vm_compute. reflexivity. Qed.

(** * Further properties at the sample data *)

(** Under [--ads=new] a definition with an [id] is skipped although it was
    last updated 8 days ago, and a definition without one is selected
    although it was updated 7 days ago. *)
Lemma new_selection_witness :
  select Sample.parse_datetime (Sample.bot_with_selector "new") true true Sample.now
    (<["id" := VInt 5]> Sample.ad_updated_8_days_ago) = Ok SkippedNotNew
  ∧ select Sample.parse_datetime (Sample.bot_with_selector "new") true true Sample.now
      Sample.ad_updated_7_days_ago = Ok Selected.
Proof.
  split.
  - rewrite (new_selection Sample.parse_datetime (Sample.bot_with_selector "new")
               true true Sample.now (<["id" := VInt 5]> Sample.ad_updated_8_days_ago)
               eq_refl); vm_compute; reflexivity.
  - rewrite (new_selection Sample.parse_datetime (Sample.bot_with_selector "new")
               true true Sample.now Sample.ad_updated_7_days_ago eq_refl);
      vm_compute; reflexivity.
Defined.

(** Under [--force], and under a selector that is misspelled, a definition
    that was updated 7 days ago is selected. *)
Lemma other_selector_selects_all_witness :
  select Sample.parse_datetime (Sample.bot_with_selector "all") true true Sample.now
    Sample.ad_updated_7_days_ago = Ok Selected
  ∧ select Sample.parse_datetime (Sample.bot_with_selector "deu") true true Sample.now
      (<["id" := VInt 5]> Sample.ad_updated_7_days_ago) = Ok Selected.
Proof.
  split.
  - rewrite (other_selector_selects_all Sample.parse_datetime
               (Sample.bot_with_selector "all") true true Sample.now
               Sample.ad_updated_7_days_ago);
      [vm_compute; reflexivity|discriminate..].
  - rewrite (other_selector_selects_all Sample.parse_datetime
               (Sample.bot_with_selector "deu") true true Sample.now
               (<["id" := VInt 5]> Sample.ad_updated_7_days_ago));
      [vm_compute; reflexivity|discriminate..].
Defined.

(** On the file system with two ad files, which the pattern finds in
    descending order, the entries come in ascending order. *)
Lemma load_ads_in_path_order_witness :
  ∃ entries : list ad_entry,
    load_ads Sample.parse_datetime Sample.int_of_str Sample.glob_pair Sample.abspath
      Sample.dirname Sample.isabs Sample.splitext_ext Sample.lower
      Sample.normalize_shipping_costs Sample.ad_fields Sample.utcnow
      Sample.glob_other Sample.insertion_order Sample.bot Sample.store_pair true true
    = Ok entries
    ∧ files_of entries = ["/data/ads/ad_bike.yaml"; "/data/ads/ad_sofa.yaml"]
    ∧ StronglySorted str_lt (files_of entries)
    ∧ NoDup (files_of entries).
Proof.
  assert (files_of <$>
    load_ads Sample.parse_datetime Sample.int_of_str Sample.glob_pair Sample.abspath
      Sample.dirname Sample.isabs Sample.splitext_ext Sample.lower
      Sample.normalize_shipping_costs Sample.ad_fields Sample.utcnow
      Sample.glob_other Sample.insertion_order Sample.bot Sample.store_pair true true
    = Ok ["/data/ads/ad_bike.yaml"; "/data/ads/ad_sofa.yaml"]) as Hfiles
    by (vm_compute; reflexivity).
  destruct (load_ads _ _ _ _ _ _ _ _ _ _ _ _ _ _ _ _ _) as [entries|e] eqn:Hrun;
    [|discriminate Hfiles].
  exists entries. split; [reflexivity|]. split; [by injection Hfiles|].
  pose proof (load_ads_in_path_order _ _ _ _ _ _ _ _ _ _ _ _ _ _ _ _ _ _ Hrun)
    as (_ & Hsorted & Hnd & _).
  split; [exact Hsorted|exact Hnd].
Defined.

(** When the first of the two files holds a title of four characters,
    [load_ads] raises what this file raises, and the second file is not
    looked at. *)
Lemma load_ads_first_error_witness :
  load_ads Sample.parse_datetime Sample.int_of_str Sample.glob_pair Sample.abspath
    Sample.dirname Sample.isabs Sample.splitext_ext Sample.lower
    Sample.normalize_shipping_costs Sample.ad_fields Sample.utcnow
    Sample.glob_other Sample.insertion_order Sample.bot Sample.store_broken true true
  = Raise (ValidationError (TooShort "title" 10)).
Proof.
  apply (load_ads_first_error Sample.parse_datetime Sample.int_of_str Sample.glob_pair
           Sample.abspath Sample.dirname Sample.isabs Sample.splitext_ext Sample.lower
           Sample.normalize_shipping_costs Sample.ad_fields Sample.utcnow
           Sample.glob_other Sample.insertion_order Sample.bot Sample.store_broken true true).
  split; [apply (bool_decide_unpack _); vm_compute; exact I|].
  right. exists (VStr ""). split; [vm_compute; reflexivity|].
  right. exists (VStr ""), 0%nat, "/data/ads/ad_bike.yaml".
  split; [vm_compute; reflexivity|]. split; [vm_compute; reflexivity|].
  split; [vm_compute; reflexivity|]. intros j g Hj. lia.
Defined.

(** The two definitions that are loaded from the sample files pass the
    checks. *)
Lemma loaded_entries_valid_witness :
  ∃ entries : list ad_entry,
    load_ads Sample.parse_datetime Sample.int_of_str Sample.glob_pair Sample.abspath
      Sample.dirname Sample.isabs Sample.splitext_ext Sample.lower
      Sample.normalize_shipping_costs Sample.ad_fields Sample.utcnow
      Sample.glob_other Sample.insertion_order Sample.bot Sample.store_pair true true
    = Ok entries
    ∧ length entries = 2%nat
    ∧ ∀ entry : ad_entry, entry ∈ entries →
        valid_ad entry.1.2 ∧ validate entry.1.2 = Ok tt.
Proof.
  assert (length <$>
    load_ads Sample.parse_datetime Sample.int_of_str Sample.glob_pair Sample.abspath
      Sample.dirname Sample.isabs Sample.splitext_ext Sample.lower
      Sample.normalize_shipping_costs Sample.ad_fields Sample.utcnow
      Sample.glob_other Sample.insertion_order Sample.bot Sample.store_pair true true
    = Ok 2%nat) as Hlen by (vm_compute; reflexivity).
  destruct (load_ads _ _ _ _ _ _ _ _ _ _ _ _ _ _ _ _ _) as [entries|e] eqn:Hrun;
    [|discriminate Hlen].
  exists entries. split; [reflexivity|]. split; [by injection Hlen|].
  exact (loaded_entries_valid _ _ _ _ _ _ _ _ _ _ _ _ _ _ _ _ _ _ Hrun).
Defined.

(** The descriptions of the two definitions that are loaded from the sample
    files, under the empty prefix and suffix of the sample configuration. *)
Lemma loaded_description_witness :
  ∃ entries : list ad_entry,
    load_ads Sample.parse_datetime Sample.int_of_str Sample.glob_pair Sample.abspath
      Sample.dirname Sample.isabs Sample.splitext_ext Sample.lower
      Sample.normalize_shipping_costs Sample.ad_fields Sample.utcnow
      Sample.glob_other Sample.insertion_order Sample.bot Sample.store_pair true true
    = Ok entries
    ∧ map (λ entry : ad_entry, entry.1.2 !! "description") entries
      = [Some (VStr "Hardly used."); Some (VStr "Hardly used.")]
    ∧ ∀ entry : ad_entry, entry ∈ entries →
        ∃ descr_prefix descr_suffix own composed,
          description_affix Sample.bot "prefix" = Ok descr_prefix
          ∧ description_affix Sample.bot "suffix" = Ok descr_suffix
          ∧ match entry.2 !! "description" with
            | Some d => Some d
            | None => Sample.ad_fields !! "description"
            end = Some own
          ∧ entry.1.2 !! "description" = Some composed
          ∧ (s ← py_add descr_prefix (py_or own (VStr "")); py_add s descr_suffix)
            = Ok composed
          ∧ ∀ p, descr_prefix = VStr p →
              ∃ body sfx, py_or own (VStr "") = VStr body ∧ descr_suffix = VStr sfx
                          ∧ composed = VStr ((p +:+ body) +:+ sfx).
Proof.
  assert (map (λ entry : ad_entry, entry.1.2 !! "description") <$>
    load_ads Sample.parse_datetime Sample.int_of_str Sample.glob_pair Sample.abspath
      Sample.dirname Sample.isabs Sample.splitext_ext Sample.lower
      Sample.normalize_shipping_costs Sample.ad_fields Sample.utcnow
      Sample.glob_other Sample.insertion_order Sample.bot Sample.store_pair true true
    = Ok [Some (VStr "Hardly used."); Some (VStr "Hardly used.")]) as Hd
    by (vm_compute; reflexivity).
  destruct (load_ads _ _ _ _ _ _ _ _ _ _ _ _ _ _ _ _ _) as [entries|e] eqn:Hrun;
    [|discriminate Hd].
  exists entries. split; [reflexivity|]. split; [by injection Hd|].
  exact (loaded_description _ _ _ _ _ _ _ _ _ _ _ _ _ _ _ _ _ _ Hrun).
Defined.

(** The images of the two definitions that are loaded from the sample
    files: the first names none, the second names two patterns that match
    three files. *)
Lemma loaded_images_witness :
  ∃ entries : list ad_entry,
    load_ads Sample.parse_datetime Sample.int_of_str Sample.glob_pair Sample.abspath
      Sample.dirname Sample.isabs Sample.splitext_ext Sample.lower
      Sample.normalize_shipping_costs Sample.ad_fields Sample.utcnow
      Sample.glob_other Sample.insertion_order Sample.bot Sample.store_pair true true
    = Ok entries
    ∧ map (λ entry : ad_entry, entry.1.2 !! "images") entries
      = [Some (VList []);
         Some (VList [VStr "/data/img/a.jpg"; VStr "/data/img/b.jpg";
                      VStr "/data/img/c.jpg"])]
    ∧ ∀ entry : ad_entry, entry ∈ entries →
        ∃ v, merge_defaults (ad_defaults (config Sample.bot)) Sample.ad_fields entry.2
               !! "images" = Some v
             ∧ if truthy v
               then ∃ patterns matches l,
                      iterate Sample.insertion_order v = Ok patterns
                      ∧ Forall2 (matched_by Sample.glob_pair Sample.dirname
                                   Sample.splitext_ext Sample.lower Sample.glob_other
                                   entry.1.1) patterns matches
                      ∧ entry.1.2 !! "images" = Some (VList (VStr <$> l))
                      ∧ l = fromkeys
                              (concat (image_block Sample.abspath Sample.isabs entry.1.1
                                         <$> matches))
                      ∧ NoDup l
                      ∧ (patterns ≠ [] → l ≠ [])
                      ∧ (∀ x, x ∈ l ↔
                              ∃ files f, files ∈ matches ∧ f ∈ files
                                         ∧ x = image_path Sample.abspath Sample.isabs
                                                 entry.1.1 f)
                      ∧ (∀ ps, patterns = VStr <$> ps →
                               l = fromkeys
                                     (concat (sorted_matches Sample.glob_pair
                                                Sample.abspath Sample.dirname Sample.isabs
                                                entry.1.1 <$> ps)))
               else entry.1.2 !! "images" = Some v.
Proof.
  assert (map (λ entry : ad_entry, entry.1.2 !! "images") <$>
    load_ads Sample.parse_datetime Sample.int_of_str Sample.glob_pair Sample.abspath
      Sample.dirname Sample.isabs Sample.splitext_ext Sample.lower
      Sample.normalize_shipping_costs Sample.ad_fields Sample.utcnow
      Sample.glob_other Sample.insertion_order Sample.bot Sample.store_pair true true
    = Ok [Some (VList []);
          Some (VList [VStr "/data/img/a.jpg"; VStr "/data/img/b.jpg";
                       VStr "/data/img/c.jpg"])]) as Himg
    by (vm_compute; reflexivity).
  destruct (load_ads _ _ _ _ _ _ _ _ _ _ _ _ _ _ _ _ _) as [entries|e] eqn:Hrun;
    [|discriminate Himg].
  exists entries. split; [reflexivity|]. split; [by injection Himg|].
  exact (loaded_images _ _ _ _ _ _ _ _ _ _ _ _ _ _ _ _ _ _ Hrun).
Defined.

(** The sample definition is published at the sample time with an interval
    of 7 days: when its file is loaded one microsecond before 8 days have
    passed it is skipped as not due, and at 8 days it is due. *)
Lemma published_ad_not_due_witness :
  ∃ ad_cfg' raw' store',
    publish_ad Sample.isoformat Sample.web_delete Sample.web_free_ad_limit
      Sample.web_submit Sample.web_ad_id Sample.bot Sample.now ∅
      "/data/ads/ad_bike.yaml" Sample.ad_published Sample.raw_published
    = Ok (ad_cfg', raw', store')
    ∧ skip_not_due Sample.parse_iso Sample.bot (Sample.now + 8 * MICROS_PER_DAY - 1)
        (merge_defaults (ad_defaults Sample.cfg) Sample.ad_fields raw') = Ok true
    ∧ skip_not_due Sample.parse_iso Sample.bot (Sample.now + 8 * MICROS_PER_DAY)
        (merge_defaults (ad_defaults Sample.cfg) Sample.ad_fields raw') = Ok false.
Proof.
  assert (is_ok
    (publish_ad Sample.isoformat Sample.web_delete Sample.web_free_ad_limit
       Sample.web_submit Sample.web_ad_id Sample.bot Sample.now ∅
       "/data/ads/ad_bike.yaml" Sample.ad_published Sample.raw_published) = true) as Hok
    by (vm_compute; reflexivity).
  destruct (publish_ad _ _ _ _ _ _ _ _ _ _ _) as [[[ad_cfg' raw'] store']|e] eqn:Hrun;
    [|discriminate Hok].
  exists ad_cfg', raw', store'. split; [reflexivity|].
  assert (Hdue := λ now',
    proj1 (proj2 (published_ad_not_due Sample.parse_iso Sample.int_of_str Sample.glob
      Sample.abspath Sample.dirname Sample.isabs Sample.splitext_ext Sample.lower
      Sample.normalize_shipping_costs Sample.ad_fields Sample.isoformat
      Sample.web_delete Sample.web_free_ad_limit Sample.web_submit Sample.web_ad_id
      Sample.glob_other Sample.insertion_order Sample.bot Sample.bot Sample.now now' ∅ store' "/data/ads/ad_bike.yaml"
      Sample.ad_published Sample.raw_published ad_cfg' raw' 7%Z Hrun
      ltac:(intros H; vm_compute in H; discriminate H)
      ltac:(vm_compute; reflexivity) eq_refl ltac:(vm_compute; reflexivity)))).
  split; (etrans; [apply Hdue|vm_compute; reflexivity]).
Defined.

(** A file that holds a [created_on] is loaded and published at the sample
    time: the definition that is saved holds the [created_on] of the file. *)
Lemma created_on_kept_witness :
  ∃ (entry : ad_entry) ad_cfg' raw' store',
    load_ad Sample.parse_datetime Sample.int_of_str Sample.glob Sample.abspath
      Sample.dirname Sample.isabs Sample.splitext_ext Sample.lower
      Sample.normalize_shipping_costs Sample.ad_fields
      Sample.glob_other Sample.insertion_order (Sample.bot_with_selector "all") true true Sample.now (VStr "") (VStr "")
      "/data/ads/ad_bike.yaml"
      (<["created_on" := VStr "2023-01-01T00:00:00"]> Sample.raw_published)
    = Ok (Some entry)
    ∧ publish_ad Sample.isoformat Sample.web_delete Sample.web_free_ad_limit
        Sample.web_submit Sample.web_ad_id (Sample.bot_with_selector "all") Sample.now ∅
        entry.1.1 entry.1.2 entry.2
      = Ok (ad_cfg', raw', store')
    ∧ raw' !! "created_on" = Some (VStr "2023-01-01T00:00:00").
Proof.
  assert ((r ← load_ad Sample.parse_datetime Sample.int_of_str Sample.glob Sample.abspath
                 Sample.dirname Sample.isabs Sample.splitext_ext Sample.lower
                 Sample.normalize_shipping_costs Sample.ad_fields
                 Sample.glob_other Sample.insertion_order (Sample.bot_with_selector "all") true true Sample.now (VStr "") (VStr "")
                 "/data/ads/ad_bike.yaml"
                 (<["created_on" := VStr "2023-01-01T00:00:00"]> Sample.raw_published);
           match r with
           | Some entry =>
               Ok (is_ok (publish_ad Sample.isoformat Sample.web_delete
                            Sample.web_free_ad_limit Sample.web_submit Sample.web_ad_id
                            (Sample.bot_with_selector "all") Sample.now ∅
                            entry.1.1 entry.1.2 entry.2))
           | None => Ok false
           end) = Ok true) as Hpipe by (vm_compute; reflexivity).
  destruct (load_ad _ _ _ _ _ _ _ _ _ _ _ _ _ _ _ _ _ _ _ _) as [[entry|]|e] eqn:Hload;
    [|discriminate Hpipe..].
  cbn [mbind result_bind] in Hpipe.
  destruct (publish_ad _ _ _ _ _ _ _ _ _ _ _) as [[[ad_cfg' raw'] store']|e] eqn:Hpub;
    [|discriminate Hpipe].
  exists entry, ad_cfg', raw', store'. split; [reflexivity|]. split; [exact Hpub|].
  exact (proj1 (created_on_kept _ _ _ _ _ _ _ _ _ _ _ _ _ _ _ _ _ _ _ _ _ _ _ _ _ _ _ _ _ _ _ _
                  Hload ltac:(vm_compute; reflexivity) eq_refl Hpub)).
Defined.

(** The sample definition is published from the sample file store: its file
    holds the raw definition that is returned, and a file that is not in the
    list is as before. *)
Lemma publish_ads_frame_witness :
  ∃ ad_cfgs' store',
    publish_ads Sample.utcnow Sample.isoformat Sample.web_delete Sample.web_free_ad_limit
      Sample.web_submit Sample.web_ad_id Sample.web_await_checking_done Sample.bot 0
      Sample.store_pair
      [("/data/ads/ad_bike.yaml", Sample.ad_published, Sample.raw_published)]
    = Ok (ad_cfgs', store')
    ∧ store' !! "/data/ads/ad_sofa.yaml" = Sample.store_pair !! "/data/ads/ad_sofa.yaml"
    ∧ ∀ entry' : ad_entry, entry' ∈ ad_cfgs' → store' !! entry'.1.1 = Some entry'.2.
Proof.
  assert (is_ok
    (publish_ads Sample.utcnow Sample.isoformat Sample.web_delete Sample.web_free_ad_limit
       Sample.web_submit Sample.web_ad_id Sample.web_await_checking_done Sample.bot 0
       Sample.store_pair
       [("/data/ads/ad_bike.yaml", Sample.ad_published, Sample.raw_published)]) = true)
    as Hok by (vm_compute; reflexivity).
  destruct (publish_ads _ _ _ _ _ _ _ _ _ _ _) as [[ad_cfgs' store']|e] eqn:Hrun;
    [|discriminate Hok].
  exists ad_cfgs', store'. split; [reflexivity|].
  pose proof (publish_ads_frame _ _ _ _ _ _ _ _ _ _ _ _ _ Hrun)
    as (_ & Hother & _ & Hsaved).
  split.
  - apply Hother. intros [Hin|Hin]%elem_of_cons; [discriminate Hin|].
    by apply elem_of_nil in Hin.
  - apply Hsaved. apply NoDup_singleton.
Defined.

(** Of three entries the second has no title: the first one is published,
    and the run raises at the second. *)
Lemma publish_ads_aborts_witness :
  publish_ads Sample.utcnow Sample.isoformat Sample.web_delete Sample.web_free_ad_limit
    Sample.web_submit Sample.web_ad_id Sample.web_await_checking_done Sample.bot 0
    Sample.store_pair
    ([("/data/ads/ad_bike.yaml", Sample.ad_published, Sample.raw_published)]
     ++ ("/data/ads/ad_sofa.yaml", delete "title" Sample.ad, Sample.raw_sofa)
        :: [("/data/ads/ad_tisch.yaml", Sample.ad, Sample.raw_published)])
  = Raise (KeyError "title").
Proof.
  assert (is_ok
    (publish_ads Sample.utcnow Sample.isoformat Sample.web_delete Sample.web_free_ad_limit
       Sample.web_submit Sample.web_ad_id Sample.web_await_checking_done Sample.bot 0
       Sample.store_pair
       [("/data/ads/ad_bike.yaml", Sample.ad_published, Sample.raw_published)]) = true)
    as Hok by (vm_compute; reflexivity).
  destruct (publish_ads Sample.utcnow Sample.isoformat Sample.web_delete
              Sample.web_free_ad_limit Sample.web_submit Sample.web_ad_id
              Sample.web_await_checking_done Sample.bot 0 Sample.store_pair
              [("/data/ads/ad_bike.yaml", Sample.ad_published, Sample.raw_published)])
    as [[before' store']|e] eqn:Hrun; [|discriminate Hok].
  apply (proj1 (proj2 (publish_ads_aborts Sample.utcnow Sample.isoformat Sample.web_delete
                         Sample.web_free_ad_limit Sample.web_submit Sample.web_ad_id
                         Sample.web_await_checking_done Sample.bot 0 Sample.store_pair))
           _ _ _ before' store' _ Hrun).
  vm_compute. reflexivity.
Defined.

(** Of three entries the second has no title: deleting raises at the
    second. *)
Lemma delete_ads_aborts_witness :
  delete_ads Sample.web_delete Sample.bot
    ([("/data/ads/ad_bike.yaml", Sample.ad_published, Sample.raw_published)]
     ++ ("/data/ads/ad_sofa.yaml", delete "title" Sample.ad, Sample.raw_sofa)
        :: [("/data/ads/ad_tisch.yaml", Sample.ad, Sample.raw_published)])
  = Raise (KeyError "title").
Proof.
  apply (proj1 (proj2 (delete_ads_aborts Sample.web_delete Sample.bot)));
    vm_compute; reflexivity.
Defined.

(** [--help] after two commands ends the program with the code 0; the two
    commands without it end it with the code 2, as an unknown option does. *)
Lemma parse_args_exit_witness :
  parse_args Sample.lower Sample.gnu_getopt Sample.strip Sample.abspath_cwd Sample.cli
    ["bot"; "publish"; "delete"; "--help"] = SystemExit 0
  ∧ parse_args Sample.lower Sample.gnu_getopt Sample.strip Sample.abspath_cwd Sample.cli
      ["bot"; "publish"; "delete"] = SystemExit 2
  ∧ parse_args Sample.lower Sample.gnu_getopt Sample.strip Sample.abspath_cwd Sample.cli
      ["bot"; "publish"; "--bogus"] = SystemExit 2.
Proof.
  split; [|split];
    apply (proj2 (parse_args_exit Sample.lower Sample.gnu_getopt Sample.strip
                    Sample.abspath_cwd Sample.cli _ _)).
  - vm_compute. reflexivity.
  - change (2%Z = 2%Z ∧ (2 ≤ 2)%nat). split; [reflexivity|lia].
  - vm_compute. reflexivity.
Defined.

(** [--force] after [--ads=new] leaves the selector [all], and [--ads=new]
    after [--force] leaves the selector [new]. *)
Lemma parse_args_selector_witness :
  ∃ forced selected,
    parse_args Sample.lower Sample.gnu_getopt Sample.strip Sample.abspath_cwd Sample.cli
      ["bot"; "--ads=new"; "publish"; "--force"] = Continue forced
    ∧ ads_selector (cli_bot forced) = "all"
    ∧ parse_args Sample.lower Sample.gnu_getopt Sample.strip Sample.abspath_cwd Sample.cli
        ["bot"; "--force"; "publish"; "--ads=new"] = Continue selected
    ∧ ads_selector (cli_bot selected) = "new".
Proof.
  destruct (parse_args Sample.lower Sample.gnu_getopt Sample.strip Sample.abspath_cwd
              Sample.cli ["bot"; "--ads=new"; "publish"; "--force"])
    as [forced|code] eqn:Hforced.
  2:{ apply (proj1 (parse_args_exit _ _ _ _ _ _ _)) in Hforced.
      vm_compute in Hforced. destruct Hforced as [_ Hle]. exfalso. inversion Hle as [|? H1].
      inversion H1. }
  destruct (parse_args Sample.lower Sample.gnu_getopt Sample.strip Sample.abspath_cwd
              Sample.cli ["bot"; "--force"; "publish"; "--ads=new"])
    as [selected|code] eqn:Hselected.
  2:{ apply (proj1 (parse_args_exit _ _ _ _ _ _ _)) in Hselected.
      vm_compute in Hselected. destruct Hselected as [_ Hle]. exfalso.
      inversion Hle as [|? H1]. inversion H1. }
  exists forced, selected. split; [reflexivity|]. split; [|split; [reflexivity|]].
  - exact (proj2 (parse_args_selector Sample.lower Sample.gnu_getopt Sample.strip
                    Sample.abspath_cwd Sample.cli forced
                    ["bot"; "--ads=new"; "publish"; "--force"]
                    [("--ads", "new"); ("--force", "")] ["publish"]
                    ltac:(vm_compute; reflexivity) Hforced)
             [("--ads", "new")] "--force" "" [] eq_refl eq_refl (Forall_nil_2 _)).
  - exact (proj2 (parse_args_selector Sample.lower Sample.gnu_getopt Sample.strip
                    Sample.abspath_cwd Sample.cli selected
                    ["bot"; "--force"; "publish"; "--ads=new"]
                    [("--force", ""); ("--ads", "new")] ["publish"]
                    ltac:(vm_compute; reflexivity) Hselected)
             [("--force", "")] "--ads" "new" [] eq_refl eq_refl (Forall_nil_2 _)).
Defined.

(** With [--keep-old] old ads are kept and the command is the argument;
    without an argument the command is [help]. *)
Lemma parse_args_kept_witness :
  ∃ kept,
    parse_args Sample.lower Sample.gnu_getopt Sample.strip Sample.abspath_cwd Sample.cli
      ["bot"; "--keep-old"; "publish"] = Continue kept
    ∧ delete_ads_by_title (cli_bot kept) = false
    ∧ delete_old_ads (cli_bot kept) = false
    ∧ command kept = "publish".
Proof.
  destruct (parse_args Sample.lower Sample.gnu_getopt Sample.strip Sample.abspath_cwd
              Sample.cli ["bot"; "--keep-old"; "publish"]) as [kept|code] eqn:Hkept.
  2:{ apply (proj1 (parse_args_exit _ _ _ _ _ _ _)) in Hkept.
      vm_compute in Hkept. destruct Hkept as [_ Hle]. exfalso. inversion Hle as [|? H1].
      inversion H1. }
  exists kept. split; [reflexivity|].
  destruct (parse_args_kept Sample.lower Sample.gnu_getopt Sample.strip
              Sample.abspath_cwd Sample.cli kept ["bot"; "--keep-old"; "publish"]
              [("--keep-old", "")] ["publish"] ltac:(vm_compute; reflexivity) Hkept)
    as (Htitle & _ & _ & Hold & Hcommand & _).
  split; [exact Htitle|]. split; [exact Hold|exact Hcommand].
Defined.

(** Two options of the size [Klein] are clicked after the radio button of
    that size; an option that is not in the table raises the KeyError, also
    between options of two sizes; options of two sizes raise the ValueError;
    in both cases nothing was clicked. *)
Lemma shipping_options_checked_witness :
  Sample.clicked (set_shipping_options Sample.insertion_order Sample.page Sample.web_click
                    (Sample.ad_shipped ["DHL_2"; "Hermes_S"]) Sample.page_opened).1
  = [continue_xpath; shipping_package_xpath "S-Paket";
     shipping_package_xpath "Paket 2 kg"; shipping_size_xpath "Klein"]
  ∧ set_shipping_options Sample.insertion_order Sample.page Sample.web_click
      (Sample.ad_shipped ["DHL_2"; "DHL_20"; "DHL_5"]) Sample.page_opened
    = (Sample.page_opened, Fail UnknownShippingOptions)
  ∧ set_shipping_options Sample.insertion_order Sample.page Sample.web_click
      (Sample.ad_shipped ["DHL_2"; "DHL_5"]) Sample.page_opened
    = (Sample.page_opened, Fail (Py ValueError)).
Proof.
  split; [|split].
  - rewrite (proj1 (proj2 (proj2 (proj2
      (shipping_options_checked Sample.insertion_order Sample.page Sample.web_click
         (Sample.ad_shipped ["DHL_2"; "Hermes_S"]) ["DHL_2"; "Hermes_S"]
         Sample.page_opened ltac:(vm_compute; reflexivity))))) "Klein");
      [vm_compute; reflexivity|discriminate|].
    repeat constructor.
  - apply (proj1 (shipping_options_checked Sample.insertion_order Sample.page Sample.web_click
                    (Sample.ad_shipped ["DHL_2"; "DHL_20"; "DHL_5"])
                    ["DHL_2"; "DHL_20"; "DHL_5"] Sample.page_opened
                    ltac:(vm_compute; reflexivity))).
    apply Exists_cons_tl, Exists_cons_hd. reflexivity.
  - apply (proj1 (proj2 (proj2 (shipping_options_checked Sample.insertion_order Sample.page Sample.web_click
                    (Sample.ad_shipped ["DHL_2"; "DHL_5"])
                    ["DHL_2"; "DHL_5"] Sample.page_opened
                    ltac:(vm_compute; reflexivity))))
             ltac:(repeat constructor; by eexists) "DHL_2" "DHL_5").
    + left.
    + right. left.
    + discriminate.
Defined.

(** An ad to be picked up whose shipping options are not in the table goes
    through the shipping step like the sample ad. *)
Lemma set_shipping_reads_witness :
  set_shipping Sample.insertion_order Sample.page Sample.web_click Sample.web_input
    (<["shipping_options" := VList [VStr "DHL_20"]]> Sample.ad) Sample.page_opened
  = set_shipping Sample.insertion_order Sample.page Sample.web_click Sample.web_input Sample.ad
      Sample.page_opened.
Proof.
  apply (proj1 (set_shipping_reads Sample.insertion_order Sample.page Sample.web_click Sample.web_input
                  Sample.ad Sample.page_opened)); vm_compute; reflexivity.
Defined.

(** On a page whose switch is off, the step for an ad that is to be sold
    directly leaves the switch on. *)
Lemma buy_now_toggle_witness :
  ∃ after,
    set_sell_directly Sample.page Sample.web_click Sample.is_selected
      (Sample.ad_shipped ["DHL_2"]) (VStr "FIXED") Sample.page_opened
    = (after, Done tt)
    ∧ Sample.is_selected ID "buy-now-toggle" after = (after, Done true).
Proof.
  destruct (proj1 (buy_now_toggle Sample.page Sample.web_click Sample.is_selected
                     (Sample.ad_shipped ["DHL_2"]) (VBool true) (VStr "FIXED") true
                     Sample.page_opened
                     ltac:(vm_compute; reflexivity) ltac:(vm_compute; reflexivity))
              false (Sample.web_click XPATH buy_now_slider_xpath Sample.page_opened).1
              eq_refl eq_refl ltac:(vm_compute; reflexivity))
    as (after & Hrun & Hon & _).
  exists after. split; [exact Hrun|exact Hon].
Defined.

(** Of the two sample files the second holds no [id]: downloading the new
    ads raises the KeyError before any ad page is opened. *)
Lemma download_new_requires_ids_witness :
  start_download_routine Sample.parse_datetime Sample.int_of_str Sample.glob_pair
    Sample.abspath Sample.dirname Sample.isabs Sample.splitext_ext Sample.lower
    Sample.normalize_shipping_costs Sample.ad_fields Sample.utcnow Sample.glob_other Sample.insertion_order Sample.page
    Sample.re_search_ids Sample.extract_own_ads_references
    Sample.extract_ad_id_from_ad_link Sample.web_navigate Sample.download_ad_page
    (Sample.bot_with_selector "new") Sample.store_pair Sample.page_opened
  = (Sample.page_opened, Fail (Py (KeyError "id"))).
Proof.
  apply (proj2 (proj2 (download_new_requires_ids Sample.parse_datetime Sample.int_of_str
           Sample.glob_pair Sample.abspath Sample.dirname Sample.isabs
           Sample.splitext_ext Sample.lower Sample.normalize_shipping_costs
           Sample.ad_fields Sample.utcnow Sample.glob_other Sample.insertion_order Sample.page Sample.re_search_ids
           Sample.extract_own_ads_references Sample.extract_ad_id_from_ad_link
           Sample.web_navigate Sample.download_ad_page
           (Sample.bot_with_selector "new") Sample.store_pair Sample.page_opened
           eq_refl))
         Sample.page_opened ["/s-anzeige/fahrrad/123"; "/s-anzeige/sofa/456"]
         [123%Z; 456%Z]);
    vm_compute; reflexivity.
Defined.

(** The selector [123,abc] raises the ValueError although 123 is an
    identifier, and the selector [0] raises the UserWarning; nothing is
    downloaded. *)
Lemma download_ids_parsed_first_witness :
  start_download_routine Sample.parse_datetime Sample.int_of_str Sample.glob
    Sample.abspath Sample.dirname Sample.isabs Sample.splitext_ext Sample.lower
    Sample.normalize_shipping_costs Sample.ad_fields Sample.utcnow Sample.glob_other Sample.insertion_order Sample.page
    Sample.re_search_ids Sample.extract_own_ads_references
    Sample.extract_ad_id_from_ad_link Sample.web_navigate Sample.download_ad_page
    (Sample.bot_with_selector "123,abc") Sample.store Sample.page_opened
  = (Sample.page_opened, Fail (Py ValueError))
  ∧ start_download_routine Sample.parse_datetime Sample.int_of_str Sample.glob
      Sample.abspath Sample.dirname Sample.isabs Sample.splitext_ext Sample.lower
      Sample.normalize_shipping_costs Sample.ad_fields Sample.utcnow Sample.glob_other Sample.insertion_order Sample.page
      Sample.re_search_ids Sample.extract_own_ads_references
      Sample.extract_ad_id_from_ad_link Sample.web_navigate Sample.download_ad_page
      (Sample.bot_with_selector "0") Sample.store Sample.page_opened
    = (Sample.page_opened, Fail UserWarning).
Proof.
  split.
  - apply (proj1 (download_ids_parsed_first Sample.parse_datetime Sample.int_of_str
             Sample.glob Sample.abspath Sample.dirname Sample.isabs
             Sample.splitext_ext Sample.lower Sample.normalize_shipping_costs
             Sample.ad_fields Sample.utcnow Sample.glob_other Sample.insertion_order Sample.page Sample.re_search_ids
             Sample.extract_own_ads_references Sample.extract_ad_id_from_ad_link
             Sample.web_navigate Sample.download_ad_page
             (Sample.bot_with_selector "123,abc") Sample.store Sample.page_opened
             ltac:(apply (bool_decide_unpack _); vm_compute; exact I)
             ltac:(vm_compute; reflexivity))).
    apply (bool_decide_unpack _). vm_compute. exact I.
  - apply (proj2 (proj2 (download_ids_parsed_first Sample.parse_datetime
             Sample.int_of_str Sample.glob Sample.abspath Sample.dirname Sample.isabs
             Sample.splitext_ext Sample.lower Sample.normalize_shipping_costs
             Sample.ad_fields Sample.utcnow Sample.glob_other Sample.insertion_order Sample.page Sample.re_search_ids
             Sample.extract_own_ads_references Sample.extract_ad_id_from_ad_link
             Sample.web_navigate Sample.download_ad_page
             (Sample.bot_with_selector "0") Sample.store Sample.page_opened
             ltac:(apply (bool_decide_unpack _); vm_compute; exact I)
             ltac:(vm_compute; reflexivity))) []).
    vm_compute. reflexivity.
Defined.

(** With the ad 123 saved, only the ad 456 is downloaded. *)
Lemma download_new_skips_saved_witness :
  Sample.downloaded
    (download_new Sample.page Sample.web_navigate Sample.download_ad_page
       [("/s-anzeige/fahrrad/123", 123%Z); ("/s-anzeige/sofa/456", 456%Z)] [123%Z]
       Sample.page_opened).1
  = [456%Z].
Proof.
  rewrite (proj1 (download_new_skips_saved Sample.page Sample.extract_ad_id_from_ad_link
                    Sample.web_navigate Sample.download_ad_page)).
  vm_compute. reflexivity.
Defined.

(** An inactive ad whose title is too short is skipped without an error. *)
Lemma skipped_ads_not_validated_witness :
  load_ad Sample.parse_datetime Sample.int_of_str Sample.glob Sample.abspath
    Sample.dirname Sample.isabs Sample.splitext_ext Sample.lower
    Sample.normalize_shipping_costs Sample.ad_fields Sample.glob_other Sample.insertion_order Sample.bot true true Sample.now
    (VStr "") (VStr "") "/data/ads/ad_sofa.yaml" Sample.raw_sofa_inactive
  = Ok None.
Proof.
  apply (proj1 (skipped_ads_not_validated Sample.parse_datetime Sample.int_of_str
                  Sample.glob Sample.abspath Sample.dirname Sample.isabs
                  Sample.splitext_ext Sample.lower Sample.normalize_shipping_costs
                  Sample.ad_fields Sample.glob_other Sample.insertion_order Sample.bot true true Sample.now (VStr "") (VStr "")
                  "/data/ads/ad_sofa.yaml" Sample.raw_sofa_inactive)
           eq_refl (VBool false)); vm_compute; reflexivity.
Defined.

(** The command [publish] on the two sample files, the second of an
    inactive ad: the first file gets the new [id], the second holds what it
    held. *)
Lemma run_publish_frame_witness :
  ∃ store',
    run_publish Sample.parse_datetime Sample.int_of_str Sample.glob_pair Sample.abspath
      Sample.dirname Sample.isabs Sample.splitext_ext Sample.lower
      Sample.normalize_shipping_costs Sample.ad_fields Sample.utcnow
      Sample.isoformat Sample.web_delete Sample.web_free_ad_limit
      Sample.web_submit Sample.web_ad_id Sample.web_await_checking_done
      Sample.web_login Sample.glob_other Sample.insertion_order Sample.bot Sample.store_sofa_inactive
    = Ok store'
    ∧ saved_fields "/data/ads/ad_bike.yaml" store'
      = Some (Some (VInt 456), Some (VStr "2023-11-14T22:13:20"),
              Some (VStr "2023-11-14T22:13:20"))
    ∧ store' !! "/data/ads/ad_sofa.yaml" = Some Sample.raw_sofa_inactive.
Proof.
  assert (saved_fields "/data/ads/ad_bike.yaml" <$>
    run_publish Sample.parse_datetime Sample.int_of_str Sample.glob_pair Sample.abspath
      Sample.dirname Sample.isabs Sample.splitext_ext Sample.lower
      Sample.normalize_shipping_costs Sample.ad_fields Sample.utcnow
      Sample.isoformat Sample.web_delete Sample.web_free_ad_limit
      Sample.web_submit Sample.web_ad_id Sample.web_await_checking_done
      Sample.web_login Sample.glob_other Sample.insertion_order Sample.bot Sample.store_sofa_inactive
    = Ok (Some (Some (VInt 456), Some (VStr "2023-11-14T22:13:20"),
                Some (VStr "2023-11-14T22:13:20")))) as Hbike
    by (vm_compute; reflexivity).
  destruct (run_publish _ _ _ _ _ _ _ _ _ _ _ _ _ _ _ _ _ _ _ _ _ _) as [store'|e] eqn:Hrun;
    [|discriminate Hbike].
  exists store'. split; [reflexivity|]. split; [by injection Hbike|].
  apply (proj1 (proj2 (run_publish_frame _ _ _ _ _ _ _ _ _ _ _ _ _ _ _ _ _ _ _ _ _ _ _
                         "/data/ads/ad_sofa.yaml" Hrun))
           Sample.raw_sofa_inactive (VBool false)); vm_compute; reflexivity.
Defined.

(** The date 14.11.2023 of an ad page. *)
Lemma creation_date_converted_witness :
  convert_creation_date Sample.isoformat Sample.fromisoformat "14.11.2023"
  = Done "2023-11-14T22:13:20"
  ∧ convert_creation_date Sample.isoformat Sample.fromisoformat "14.11" = Fail IndexError.
Proof.
  destruct (creation_date_converted Sample.isoformat Sample.fromisoformat
              "14" "11" "2023"
              ltac:(apply (bool_decide_unpack _); vm_compute; exact I)
              ltac:(apply (bool_decide_unpack _); vm_compute; exact I)
              ltac:(apply (bool_decide_unpack _); vm_compute; exact I))
    as (Hdate & Hshort & _).
  split; [exact Hdate|exact Hshort].
Defined.

(** Without a configuration file the file is created with the default
    settings, also in a run that raises for the missing user name. *)
Lemma load_config_creates_file_witness :
  (load_config Sample.bundled_categories Sample.config_defaults
     Sample.update_from_iterable Sample.bot Sample.store).1 !! "/data/config.yaml"
  = Some Sample.config_defaults
  ∧ (load_config Sample.bundled_categories Sample.config_defaults
       Sample.update_from_iterable Sample.bot Sample.store).2
    = Raise (ValidationError (NotSpecified "login.username")).
Proof.
  split; [|vm_compute; reflexivity].
  rewrite (proj1 (proj2 (load_config_creates_file Sample.bundled_categories
                           Sample.config_defaults Sample.update_from_iterable
                           Sample.bot Sample.store) ltac:(vm_compute; reflexivity))).
  apply lookup_insert_eq.
Defined.

(** With a configuration file that gives a user name and an empty password
    the error is the one for the password. *)
Lemma load_config_credentials_witness :
  (load_config Sample.bundled_categories Sample.config_defaults
     Sample.update_from_iterable Sample.bot Sample.store_configured).2
  = Raise (ValidationError (NotSpecified "login.password")).
Proof.
  exact (proj2 (proj2 (load_config_credentials Sample.bundled_categories
                         Sample.config_defaults Sample.update_from_iterable
                         Sample.bot Sample.store_configured _ eq_refl)
                  (VDict ∅)
                  (list_to_map [("username", VStr "bob"); ("password", VStr "")])
                  (VStr "bob")
                  ltac:(vm_compute; reflexivity) ltac:(vm_compute; reflexivity)
                  ltac:(vm_compute; reflexivity) ltac:(vm_compute; reflexivity))
           eq_refl (VStr "") ltac:(vm_compute; reflexivity)).
Defined.

(** A description with two backticks. *)
Lemma description_script_quoted_witness :
  ∃ body,
    description_script (<["description" := VStr "A `fine` bicycle"]> Sample.ad)
    = Done ("document.querySelector('#pstad-descrptn').value = `" +:+ body +:+ "`")
    ∧ free_of "`" body
    ∧ String.length body = 16%nat.
Proof.
  destruct (description_script_quoted
              (<["description" := VStr "A `fine` bicycle"]> Sample.ad) "A `fine` bicycle"
              (lookup_insert_eq _ _ _)) as (body & Hrun & Hfree & Hlength & _).
  exists body. split; [exact Hrun|]. split; [exact Hfree|exact Hlength].
Defined.

(** The command [publish] on the two sample files, and a second run one
    hour later: the loop body skips both files. *)
Lemma published_ads_not_loaded_again_witness :
  ∃ store',
    run_publish Sample.parse_iso Sample.int_of_str Sample.glob_pair Sample.abspath
      Sample.dirname Sample.isabs Sample.splitext_ext Sample.lower
      Sample.normalize_shipping_costs Sample.ad_fields Sample.utcnow
      Sample.isoformat Sample.web_delete Sample.web_free_ad_limit
      Sample.web_submit Sample.web_ad_id Sample.web_await_checking_done
      Sample.web_login Sample.glob_other Sample.insertion_order Sample.bot
      Sample.store_pair
    = Ok store'
    ∧ load_file Sample.parse_iso Sample.int_of_str Sample.glob_pair Sample.abspath
        Sample.dirname Sample.isabs Sample.splitext_ext Sample.lower
        Sample.normalize_shipping_costs Sample.ad_fields Sample.utcnow_later
        Sample.glob_other Sample.insertion_order Sample.bot store' true true
        (VStr "") (VStr "") 0 "/data/ads/ad_bike.yaml"
      = Ok None
    ∧ load_file Sample.parse_iso Sample.int_of_str Sample.glob_pair Sample.abspath
        Sample.dirname Sample.isabs Sample.splitext_ext Sample.lower
        Sample.normalize_shipping_costs Sample.ad_fields Sample.utcnow_later
        Sample.glob_other Sample.insertion_order Sample.bot store' true true
        (VStr "") (VStr "") 1 "/data/ads/ad_sofa.yaml"
      = Ok None.
Proof.
  assert (files_of <$>
    load_ads Sample.parse_iso Sample.int_of_str Sample.glob_pair Sample.abspath
      Sample.dirname Sample.isabs Sample.splitext_ext Sample.lower
      Sample.normalize_shipping_costs Sample.ad_fields Sample.utcnow
      Sample.glob_other Sample.insertion_order Sample.bot Sample.store_pair true true
    = Ok ["/data/ads/ad_bike.yaml"; "/data/ads/ad_sofa.yaml"]) as Hfiles
    by (vm_compute; reflexivity).
  destruct (load_ads _ _ _ _ _ _ _ _ _ _ _ _ _ _ _ _ _) as [ads|e] eqn:Hads;
    [|discriminate Hfiles].
  injection Hfiles as Hfiles.
  assert (is_ok
    (run_publish Sample.parse_iso Sample.int_of_str Sample.glob_pair Sample.abspath
       Sample.dirname Sample.isabs Sample.splitext_ext Sample.lower
       Sample.normalize_shipping_costs Sample.ad_fields Sample.utcnow
       Sample.isoformat Sample.web_delete Sample.web_free_ad_limit
       Sample.web_submit Sample.web_ad_id Sample.web_await_checking_done
       Sample.web_login Sample.glob_other Sample.insertion_order Sample.bot
       Sample.store_pair) = true) as Hok by (vm_compute; reflexivity).
  destruct (run_publish _ _ _ _ _ _ _ _ _ _ _ _ _ _ _ _ _ _ _ _ _ _) as [store'|e] eqn:Hrun;
    [|discriminate Hok].
  exists store'. split; [reflexivity|].
  destruct (published_ads_not_loaded_again Sample.parse_iso Sample.int_of_str
              Sample.glob_pair Sample.abspath Sample.dirname Sample.isabs
              Sample.splitext_ext Sample.lower Sample.normalize_shipping_costs
              Sample.ad_fields Sample.utcnow Sample.utcnow_later Sample.isoformat
              Sample.web_delete Sample.web_free_ad_limit Sample.web_submit
              Sample.web_ad_id Sample.web_await_checking_done Sample.web_login
              Sample.glob_other Sample.insertion_order Sample.bot Sample.store_pair
              store' ads eq_refl
              ltac:(intros n; split; [discriminate|vm_compute; reflexivity])
              ltac:(intros a b; unfold Sample.utcnow_later, Sample.utcnow,
                      MICROS_PER_DAY; lia)
              ltac:(vm_compute; reflexivity) Hads Hrun) as (Hskip & _ & _).
  split; apply Hskip; rewrite Hfiles, !elem_of_cons; auto.
Defined.
